(** * The MDS daemon's lifecycle and membership controller (src/mds/MDS.cc)

    A shallow embedding of the controller in [MDS.cc]: the membership state
    machine [handle_mds_map], the terminal operations [suicide] and
    [respawn], the message dispatcher [ms_dispatch] / [handle_core_message],
    the admin command surface ([asok_command], [_command_flush_journal],
    [set_up_admin_socket] / [clean_up_admin_socket]).

    The model is sequential: the operations on maps and messages run with
    [mds_lock] held by the calling thread, as the code asserts; where an
    admin command takes and gives up the lock itself, the model records
    it.  Calls into the
    collaborators that [MDS.cc] only uses (beacon, messenger, monitor
    client, objecter, cache, journal, ...) are recorded as [event]s, in the
    order in which the code issues them. *)

From Stdlib Require Import ZArith Lia Sorted.
From stdpp Require Import gmap strings list pretty.

Local Open Scope Z_scope.

(** ** Constants *)

(** Modelled from the spec: the numeric values of [MDSMap::DaemonState]
    ([MDSMap.h], [include/ceph_fs.h]) are declared outside [MDS.cc].  The spec
    fixes the closed enumeration and that reconnect, rejoin, clientreplay,
    active form a contiguous increasing sequence; the numbers are those of
    the header. *)
Module MDSMapState.
Definition STATE_NULL : Z := 0.
Definition STATE_DNE : Z := 0.
Definition STATE_STOPPED : Z := -1.
Definition STATE_BOOT : Z := -4.
Definition STATE_STANDBY : Z := -5.
Definition STATE_CREATING : Z := -6.
Definition STATE_STARTING : Z := -7.
Definition STATE_STANDBY_REPLAY : Z := -8.
Definition STATE_ONESHOT_REPLAY : Z := -9.
Definition STATE_REPLAY : Z := 8.
Definition STATE_RESOLVE : Z := 9.
Definition STATE_RECONNECT : Z := 10.
Definition STATE_REJOIN : Z := 11.
Definition STATE_CLIENTREPLAY : Z := 12.
Definition STATE_ACTIVE : Z := 13.
Definition STATE_STOPPING : Z := 14.
Definition STATE_DAMAGED : Z := 15.
End MDSMapState.
Export MDSMapState.

(** [mds_rank_t(-1)] and [mds_gid_t(0)]. *)
Definition MDS_RANK_NONE : Z := -1.
Definition MDS_GID_NONE : Z := 0.

(** Entity types are bit flags ([include/msgr.h]). *)
Definition CEPH_ENTITY_TYPE_MON : Z := 1.
Definition CEPH_ENTITY_TYPE_MDS : Z := 2.
Definition CEPH_ENTITY_TYPE_OSD : Z := 4.
Definition CEPH_ENTITY_TYPE_CLIENT : Z := 8.

(** Linux errno values. *)
Definition EPERM : Z := 1.
Definition ENOENT : Z := 2.
Definition EEXIST : Z := 17.
Definition EINVAL : Z := 22.
Definition EROFS : Z := 30.
Definition EOPNOTSUPP : Z := 95.

(** Conversion of an [int64_t] to [epoch_t] (an unsigned 32-bit integer). *)
Definition to_epoch_t (v : Z) : Z := v mod 2 ^ 32.

(** ** The cluster membership map *)

(** Modelled from the spec: [MDSMap::mds_info_t] is outside [MDS.cc]; the
    per-daemon info has "name, address, assigned rank, state, incarnation,
    standby preferences" and the daemon's global id. *)
Record mds_info_t : Type := mk_mds_info {
  info_global_id : Z;
  info_name : string;
  info_rank : Z;
  info_inc : Z;
  info_state : Z;
  info_addr : Z;
  info_standby_for_rank : Z
}.

(** Modelled from the spec: class [MDSMap] ([MDSMap.h]) is outside [MDS.cc].
    The map holds its epoch, the per-daemon info keyed by global id (a
    [std::map], so in ascending key order), the table server rank and the
    down, up and stopped rank sets.  [compat_writeable] is the outcome of
    [get_mdsmap_compat_set_all().writeable(compat)], the compatibility check
    of this daemon's feature set against the map's; [is_resolving],
    [is_rejoining] and [have_inst] are the map's answers to
    the queries of the same names, [inst_addr r] is [get_inst(r).addr]. *)
Record MDSMap : Type := mk_MDSMap {
  epoch : Z;
  compat_writeable : bool;
  mds_info : list (Z * mds_info_t);
  tableserver : Z;
  is_resolving : bool;
  is_rejoining : bool;
  down_mds_set : list Z;
  up_mds_set : list Z;
  stopped_mds_set : list Z;
  have_inst : Z -> bool;
  inst_addr : Z -> Z
}.

(** Modelled from the spec: the lookup of a daemon's info by global id
    ([mds_info.find(gid)]) in the map "keyed by global id". *)
Fixpoint find_info (gid : Z) (l : list (Z * mds_info_t)) : option mds_info_t :=
  match l with
  | [] => None
  | (g, i) :: l' => if g =? gid then Some i else find_info gid l'
  end.

(** Modelled from the spec: [MDSMap::get_state_gid], the state the map
    gives the daemon, the null state when the map does not list it. *)
Definition get_state_gid (m : MDSMap) (gid : Z) : Z :=
  match find_info gid (mds_info m) with
  | Some i => info_state i
  | None => STATE_NULL
  end.

(** Modelled from the spec: [MDSMap::get_inc_gid], the incarnation the map
    gives the daemon, -1 when the map does not list it. *)
Definition get_inc_gid (m : MDSMap) (gid : Z) : Z :=
  match find_info gid (mds_info m) with
  | Some i => info_inc i
  | None => -1
  end.

(** Modelled from the spec: [MDSMap::get_rank_gid], the rank the map
    assigns to the daemon, the sentinel none when the map does not list
    it. *)
Definition get_rank_gid (m : MDSMap) (gid : Z) : Z :=
  match find_info gid (mds_info m) with
  | Some i => info_rank i
  | None => MDS_RANK_NONE
  end.

(** Modelled from the spec: [MDSMap::is_dne_gid], "the map already lists
    this daemon as gone". *)
Definition is_dne_gid (m : MDSMap) (gid : Z) : bool :=
  match find_info gid (mds_info m) with
  | Some _ => false
  | None => true
  end.

(** Modelled from the spec: [MDSMap::find_mds_gid_by_name], the search for
    "another daemon of the same name": the key of the first entry, in key
    order, that carries the name; [MDS_GID_NONE] when there is none. *)
Fixpoint find_gid_by_name (s : string) (l : list (Z * mds_info_t)) : Z :=
  match l with
  | [] => MDS_GID_NONE
  | (g, i) :: l' =>
      if bool_decide (info_name i = s) then g else find_gid_by_name s l'
  end.

(** Modelled from the spec: [MDSMap::find_mds_gid_by_name] on a map. *)
Definition find_mds_gid_by_name (m : MDSMap) (s : string) : Z :=
  find_gid_by_name s (mds_info m).

(** A [std::set<mds_rank_t>] as an ascending list without duplicates. *)
Fixpoint set_insert (x : Z) (l : list Z) : list Z :=
  match l with
  | [] => [x]
  | y :: l' =>
      if x <? y then x :: l
      else if x =? y then l
      else y :: set_insert x l'
  end.

(** [s.count(x) != 0] *)
Definition set_count (x : Z) (l : list Z) : bool :=
  existsb (Z.eqb x) l.

(** Modelled from the spec: [MDSMap::get_mds_set(s, state)] adds to [s]
    the rank of every daemon that the map has in [state]. *)
Definition get_mds_set (m : MDSMap) (s : list Z) (st : Z) : list Z :=
  fold_left
    (fun acc p => if info_state (snd p) =? st
                  then set_insert (info_rank (snd p)) acc else acc)
    (mds_info m) s.

(** ** Messages *)

(** The name of a message's source: its entity type and number. *)
Record entity_name_t : Type := mk_entity_name { ent_type : Z; ent_num : Z }.

(** [entity_name_t::is_mds()] *)
Definition is_mds (n : entity_name_t) : bool :=
  ent_type n =? CEPH_ENTITY_TYPE_MDS.

(** [mds_rank_t] is a signed 32-bit integer; [entity_name_t::num()] is
    64 bits wide. *)
Definition to_mds_rank_t (v : Z) : Z :=
  (v + 2 ^ 31) mod 2 ^ 32 - 2 ^ 31.

(** An [MMDSMap] carries its own epoch field next to the encoded map;
    [m_encoded] stands for the map that [MDSMap::decode] reads from
    [get_encoded()]. *)
Record MMDSMap : Type := mk_MMDSMap {
  m_source : entity_name_t;
  m_epoch : Z;
  m_encoded : MDSMap
}.

(** The command map of an admin or monitor command. *)
Inductive cmd_val : Type :=
| CmdStr (s : string)
| CmdInt (v : Z)
| CmdVec (l : list string).

(** [cmd_getval] for a string, an integer and a vector of strings: the
    value under the key when it is there with that type. *)
Definition cmd_getval_str (cmdmap : gmap string cmd_val) (k : string)
  : option string :=
  match cmdmap !! k with Some (CmdStr s) => Some s | _ => None end.

Definition cmd_getval_int (cmdmap : gmap string cmd_val) (k : string)
  : option Z :=
  match cmdmap !! k with Some (CmdInt v) => Some v | _ => None end.

Definition cmd_getval_vec (cmdmap : gmap string cmd_val) (k : string)
  : option (list string) :=
  match cmdmap !! k with Some (CmdVec l) => Some l | _ => None end.

(** The connection a message arrived on: the peer's entity type and, as
    [con_priv], the session attached to it (whether its capabilities allow
    everything); [None] when no session is attached. *)
Record Connection : Type := mk_Connection {
  peer_type : Z;
  con_priv : option bool
}.

(** A message as a tagged variant over the kinds [handle_core_message]
    switches on.  [PCommand] carries [m->cmd] and what [cmdmap_from_json]
    makes of it: the command map, or the text of the parse error. *)
Inductive payload : Type :=
| PMonMap
| PMDSMap (mm : MMDSMap)
| PMonCommand (cmd : list string)
| PCommand (cmd : list string) (parsed : string + gmap string cmd_val)
| POSDMap
| POther (type : Z).

(** A message with the connection it arrived on, if any. *)
Record Message : Type := mk_Message {
  get_connection : option Connection;
  body : payload
}.

(** ** Effects on the collaborators *)

(** The calls that leave [MDS.cc], named after the callee.  [MsgPut] is
    [m->put()], [Execv] the [execv] of [respawn]. *)
Inductive event : Type :=
| MsgPut
| Execv
| HeartbeatReset
| MoncSubGot (e : Z)
| MoncFlushLog
| MoncShutdown
| BeaconNotifyMdsmap (e : Z)
| BeaconNotifyHealth
| BeaconSetWantState (s : Z)
| BeaconSend
| BeaconSendAndWait (timeout : Z)
| BeaconShutdown
| MessengerMarkDown (addr : Z)
| MessengerSetMyname (n : Z)
| MessengerShutdown
| ObjecterSetClientIncarnation (i : Z)
| ObjecterWaitForMap (e : Z)
| ObjecterMaybeRequestMap
| ObjecterShutdown
| DumpCache
| RecoveryDone (oldstate : Z)
| ActiveStart
| ReplayStart
| ResolveStart
| ReconnectStart
| RejoinStart
| ClientreplayStart
| BootCreate
| BootStart
| StoppingStart
| CalcRecoverySet
| SendResolves
| RejoinJointStart
| KickDiscovers (r : Z)
| KickOpenInoPeers (r : Z)
| CacheHandleMdsRecovery (r : Z)
| SnapserverHandleMdsRecovery (r : Z)
| QueueWaiters (r : Z)
| CacheHandleMdsFailure (r : Z)
| SnapclientHandleMdsFailure (r : Z)
| MigratorHandleMdsFailureOrStop (r : Z)
| TryRebalance
| FinishContexts (ls : list Z)
| NotifyMdsmapChanged
| DeleteOldmap
| MdlogShutdown
| FinisherStop
| TimerCancelEvent
| TimerCancelAllEvents
| TimerShutdown
| MdcacheShutdown
| OpTrackerOnShutdown
| ProgressThreadShutdown
| HeartbeatRemoveWorker
| SnapserverCheckOsdMap
| ServerHandleOsdMap
| HandleRankMessage
| SendReply (r : Z) (outs : string)
| ConfInjectargs (args : string)
| KillSession (id : Z)
| HeapProfiler
| CpuProfiler
| CommandDescriptions
| CacheCommand (args : list string)
| Output (text : string)
| Dump (section : string)
| DumpResult (message : string) (return_code : Z)
| FormatterFlush
| OpTrackerDump (what : string)
| ScrubDentry (path : string)
| FlushDentry (path : string)
| ExportDirCommand (path : string) (rank : Z)
| DumpCacheTo (path : string)
| ForceReadonly
| DirfragCommand (what : string)
| TimerAddEventAfter
| OpTrackerCheckOpsInFlight
| ProgressThreadSignal
| CacheTrim
| CacheTrimClientLeases
| CacheCheckMemoryUsage
| MdlogTrim
| LogStat
| LockerTick
| FindIdleSessions
| ReconnectTick
| BalancerTick
| FindStaleFragmentFreeze
| FindStaleExportFreeze
| MdlogStartNewSegment
| MdlogFlush
| MdlogWaitForSafe
| MdlogTrimAll
| WaitForExpiry (n : nat)
| MdlogTrimExpiredSegments
| JournalerWriteHead
| LockUnlock
| LockLock
| Sleep (secs : Z).

(** ** The controller's state *)

(** What the admin socket keeps for a registered command. *)
Record asok_entry : Type := mk_asok_entry {
  asok_cmddesc : string;
  asok_hook_of : nat;
  asok_help : string
}.

(** What the controller reads from its collaborators and from the
    configuration. *)
Record Env : Type := mk_Env {
  global_id : Z;                       (* monc->get_global_id() *)
  osd_epoch : Z;                       (* objecter's OSD map epoch *)
  objecter_initialized : bool;
  mds_enforce_unique_name : bool;
  mds_dump_cache_on_map : bool;
  mds_dump_cache_after_rejoin : bool;
  tracking_enabled : bool;             (* op_tracker.tracking_enabled *)
  using_tcmalloc : bool;
  beacon_is_laggy : bool;
  logger : bool;                       (* the perf counters exist *)
  mds_mon_shutdown_timeout : Z;
  rank_accepts : Message -> bool;      (* what handle_rank_message returns *)
  has_session : Z -> bool;             (* sessionmap.get_session(client.id) *)
  strtol : string -> Z;
  cpp_strerror : Z -> string;
  conf_injectargs : string -> string   (* what injectargs writes back *)
}.

(** The members of [MDS] (and of its rank base class) that [MDS.cc] reads
    and writes.  [tick_event] and [hb] say whether the pointer is non-null;
    [asok_hook] is the hook's address when non-null; [admin_socket] is the
    process's admin socket and [live_hooks] the hooks that are allocated;
    [waiting_for_mdsmap] is in ascending order of epoch;
    [objecter_client_incarnation] and [mdcache_readonly] are what the
    objecter and the cache answer. *)
Record MDS : Type := mkMDS {
  stopping : bool;
  mdsmap : MDSMap;
  whoami : Z;
  incarnation : Z;
  state : Z;
  want_state : Z;
  last_state : Z;
  standby_type : Z;
  peer_mdsmap_epoch : gmap Z Z;
  osd_epoch_barrier : Z;
  waiting_for_mdsmap : list (Z * list Z);
  tick_event : bool;
  hb : bool;
  asok_hook : option nat;
  admin_socket : gmap string asok_entry;
  live_hooks : gset nat;
  name : string;
  objecter_client_incarnation : Z;
  mdcache_readonly : bool;
  env : Env
}.

(** Field updates. *)
Definition with_stopping (v : bool) (s : MDS) : MDS :=
  mkMDS v (mdsmap s) (whoami s) (incarnation s) (state s) (want_state s)
    (last_state s) (standby_type s) (peer_mdsmap_epoch s)
    (osd_epoch_barrier s) (waiting_for_mdsmap s) (tick_event s) (hb s)
    (asok_hook s) (admin_socket s) (live_hooks s) (name s)
    (objecter_client_incarnation s) (mdcache_readonly s) (env s).

Definition with_mdsmap (v : MDSMap) (s : MDS) : MDS :=
  mkMDS (stopping s) v (whoami s) (incarnation s) (state s) (want_state s)
    (last_state s) (standby_type s) (peer_mdsmap_epoch s)
    (osd_epoch_barrier s) (waiting_for_mdsmap s) (tick_event s) (hb s)
    (asok_hook s) (admin_socket s) (live_hooks s) (name s)
    (objecter_client_incarnation s) (mdcache_readonly s) (env s).

Definition with_whoami (v : Z) (s : MDS) : MDS :=
  mkMDS (stopping s) (mdsmap s) v (incarnation s) (state s) (want_state s)
    (last_state s) (standby_type s) (peer_mdsmap_epoch s)
    (osd_epoch_barrier s) (waiting_for_mdsmap s) (tick_event s) (hb s)
    (asok_hook s) (admin_socket s) (live_hooks s) (name s)
    (objecter_client_incarnation s) (mdcache_readonly s) (env s).

Definition with_incarnation (v : Z) (s : MDS) : MDS :=
  mkMDS (stopping s) (mdsmap s) (whoami s) v (state s) (want_state s)
    (last_state s) (standby_type s) (peer_mdsmap_epoch s)
    (osd_epoch_barrier s) (waiting_for_mdsmap s) (tick_event s) (hb s)
    (asok_hook s) (admin_socket s) (live_hooks s) (name s)
    (objecter_client_incarnation s) (mdcache_readonly s) (env s).

Definition with_state (v : Z) (s : MDS) : MDS :=
  mkMDS (stopping s) (mdsmap s) (whoami s) (incarnation s) v (want_state s)
    (last_state s) (standby_type s) (peer_mdsmap_epoch s)
    (osd_epoch_barrier s) (waiting_for_mdsmap s) (tick_event s) (hb s)
    (asok_hook s) (admin_socket s) (live_hooks s) (name s)
    (objecter_client_incarnation s) (mdcache_readonly s) (env s).

Definition with_want_state (v : Z) (s : MDS) : MDS :=
  mkMDS (stopping s) (mdsmap s) (whoami s) (incarnation s) (state s) v
    (last_state s) (standby_type s) (peer_mdsmap_epoch s)
    (osd_epoch_barrier s) (waiting_for_mdsmap s) (tick_event s) (hb s)
    (asok_hook s) (admin_socket s) (live_hooks s) (name s)
    (objecter_client_incarnation s) (mdcache_readonly s) (env s).

Definition with_last_state (v : Z) (s : MDS) : MDS :=
  mkMDS (stopping s) (mdsmap s) (whoami s) (incarnation s) (state s)
    (want_state s) v (standby_type s) (peer_mdsmap_epoch s)
    (osd_epoch_barrier s) (waiting_for_mdsmap s) (tick_event s) (hb s)
    (asok_hook s) (admin_socket s) (live_hooks s) (name s)
    (objecter_client_incarnation s) (mdcache_readonly s) (env s).

Definition with_peer_mdsmap_epoch (v : gmap Z Z) (s : MDS) : MDS :=
  mkMDS (stopping s) (mdsmap s) (whoami s) (incarnation s) (state s)
    (want_state s) (last_state s) (standby_type s) v (osd_epoch_barrier s)
    (waiting_for_mdsmap s) (tick_event s) (hb s) (asok_hook s)
    (admin_socket s) (live_hooks s) (name s) (objecter_client_incarnation s)
    (mdcache_readonly s) (env s).

Definition with_osd_epoch_barrier (v : Z) (s : MDS) : MDS :=
  mkMDS (stopping s) (mdsmap s) (whoami s) (incarnation s) (state s)
    (want_state s) (last_state s) (standby_type s) (peer_mdsmap_epoch s) v
    (waiting_for_mdsmap s) (tick_event s) (hb s) (asok_hook s)
    (admin_socket s) (live_hooks s) (name s) (objecter_client_incarnation s)
    (mdcache_readonly s) (env s).

Definition with_waiting_for_mdsmap (v : list (Z * list Z)) (s : MDS) : MDS :=
  mkMDS (stopping s) (mdsmap s) (whoami s) (incarnation s) (state s)
    (want_state s) (last_state s) (standby_type s) (peer_mdsmap_epoch s)
    (osd_epoch_barrier s) v (tick_event s) (hb s) (asok_hook s)
    (admin_socket s) (live_hooks s) (name s) (objecter_client_incarnation s)
    (mdcache_readonly s) (env s).

Definition with_tick_event (v : bool) (s : MDS) : MDS :=
  mkMDS (stopping s) (mdsmap s) (whoami s) (incarnation s) (state s)
    (want_state s) (last_state s) (standby_type s) (peer_mdsmap_epoch s)
    (osd_epoch_barrier s) (waiting_for_mdsmap s) v (hb s) (asok_hook s)
    (admin_socket s) (live_hooks s) (name s) (objecter_client_incarnation s)
    (mdcache_readonly s) (env s).

Definition with_hb (v : bool) (s : MDS) : MDS :=
  mkMDS (stopping s) (mdsmap s) (whoami s) (incarnation s) (state s)
    (want_state s) (last_state s) (standby_type s) (peer_mdsmap_epoch s)
    (osd_epoch_barrier s) (waiting_for_mdsmap s) (tick_event s) v
    (asok_hook s) (admin_socket s) (live_hooks s) (name s)
    (objecter_client_incarnation s) (mdcache_readonly s) (env s).

Definition with_asok_hook (v : option nat) (s : MDS) : MDS :=
  mkMDS (stopping s) (mdsmap s) (whoami s) (incarnation s) (state s)
    (want_state s) (last_state s) (standby_type s) (peer_mdsmap_epoch s)
    (osd_epoch_barrier s) (waiting_for_mdsmap s) (tick_event s) (hb s) v
    (admin_socket s) (live_hooks s) (name s) (objecter_client_incarnation s)
    (mdcache_readonly s) (env s).

Definition with_admin_socket (v : gmap string asok_entry) (s : MDS) : MDS :=
  mkMDS (stopping s) (mdsmap s) (whoami s) (incarnation s) (state s)
    (want_state s) (last_state s) (standby_type s) (peer_mdsmap_epoch s)
    (osd_epoch_barrier s) (waiting_for_mdsmap s) (tick_event s) (hb s)
    (asok_hook s) v (live_hooks s) (name s) (objecter_client_incarnation s)
    (mdcache_readonly s) (env s).

Definition with_live_hooks (v : gset nat) (s : MDS) : MDS :=
  mkMDS (stopping s) (mdsmap s) (whoami s) (incarnation s) (state s)
    (want_state s) (last_state s) (standby_type s) (peer_mdsmap_epoch s)
    (osd_epoch_barrier s) (waiting_for_mdsmap s) (tick_event s) (hb s)
    (asok_hook s) (admin_socket s) v (name s)
    (objecter_client_incarnation s) (mdcache_readonly s) (env s).

Definition with_objecter_client_incarnation (v : Z) (s : MDS) : MDS :=
  mkMDS (stopping s) (mdsmap s) (whoami s) (incarnation s) (state s)
    (want_state s) (last_state s) (standby_type s) (peer_mdsmap_epoch s)
    (osd_epoch_barrier s) (waiting_for_mdsmap s) (tick_event s) (hb s)
    (asok_hook s) (admin_socket s) (live_hooks s) (name s) v
    (mdcache_readonly s) (env s).

Definition with_mdcache_readonly (v : bool) (s : MDS) : MDS :=
  mkMDS (stopping s) (mdsmap s) (whoami s) (incarnation s) (state s)
    (want_state s) (last_state s) (standby_type s) (peer_mdsmap_epoch s)
    (osd_epoch_barrier s) (waiting_for_mdsmap s) (tick_event s) (hb s)
    (asok_hook s) (admin_socket s) (live_hooks s) (name s)
    (objecter_client_incarnation s) v (env s).

(** ** Outcomes

    An operation either returns to its caller, or ends in [respawn()]
    (which replaces the process image through [execv], and aborts when
    [execv] comes back: control never returns to the caller), or stops at a
    failed [assert].  Every outcome carries the state reached and the
    effects issued so far. *)

Inductive result (A : Type) : Type :=
| Ret (a : A) (s : MDS) (t : list event)
| Respawned (s : MDS) (t : list event)
| Asserted (s : MDS) (t : list event).
Arguments Ret {A} a s t.
Arguments Respawned {A} s t.
Arguments Asserted {A} s t.

(** The state an outcome ends in, its effects, and whether it is a
    return. *)
Definition final_state {A} (r : result A) : MDS :=
  match r with Ret _ s _ | Respawned s _ | Asserted s _ => s end.

Definition trace {A} (r : result A) : list event :=
  match r with Ret _ _ t | Respawned _ t | Asserted _ t => t end.

Definition returns {A} (r : result A) : bool :=
  match r with Ret _ _ _ => true | _ => false end.

(** The outcome [r] with the effects [t0] in front of its own. *)
Definition after {A} (t0 : list event) (r : result A) : result A :=
  match r with
  | Ret a s t => Ret a s (t0 ++ t)
  | Respawned s t => Respawned s (t0 ++ t)
  | Asserted s t => Asserted s (t0 ++ t)
  end.

(** A piece of code: from the state it starts in to its outcome.  Code in
    sequence stops at the first outcome that is not a return. *)
Definition M (A : Type) : Type := MDS -> result A.

#[export] Instance M_ret : MRet M := fun A a s => Ret a s [].

#[export] Instance M_bind : MBind M := fun A B f m s =>
  match m s with
  | Ret a s1 t1 => after t1 (f a s1)
  | Respawned s1 t1 => Respawned s1 t1
  | Asserted s1 t1 => Asserted s1 t1
  end.

(** Reading the state, updating it, calling a collaborator, [assert(b)],
    [if (b) ...] without an else, and a loop over a container. *)
Definition get : M MDS := fun s => Ret s s [].

Definition modify (f : MDS -> MDS) : M unit := fun s => Ret tt (f s) [].

Definition emit (e : event) : M unit := fun s => Ret tt s [e].

Definition c_assert (b : bool) : M unit :=
  fun s => if b then Ret tt s [] else Asserted s [].

Definition when (b : bool) (m : M unit) : M unit :=
  if b then m else mret tt.

Fixpoint for_each {A} (l : list A) (f : A -> M unit) : M unit :=
  match l with
  | [] => mret tt
  | x :: l' => f x;; for_each l' f
  end.

(** ** Helpers of the rank base class *)

(** Modelled from the spec: [set_want_state] is a member of the rank base
    class, outside [MDS.cc]; it sets the wanted state, which is "advertised
    via beacons". *)
Definition set_want_state (newstate : Z) : M unit :=
  modify (with_want_state newstate);; emit (BeaconSetWantState newstate).

(** Modelled from the spec: [request_state] is outside [MDS.cc]; it sets
    the wanted state and sends a beacon with it. *)
Definition request_state (s : Z) : M unit :=
  set_want_state s;; emit BeaconSend.

(** Modelled from the spec: [heartbeat_reset] is outside [MDS.cc]; the
    dispatcher and the tick "reset the heartbeat". *)
Definition heartbeat_reset : M unit := emit HeartbeatReset.

(** Modelled from the spec: [set_osd_epoch_barrier] is a member of the rank
    base class, outside [MDS.cc].  The barrier is "the highest
    object-store-map epoch this MDS requires any client it serves to have
    observed", "monotonic non-decreasing": setting it to an epoch raises
    it to that epoch, and leaves it where it is when it is higher
    already. *)
Definition set_osd_epoch_barrier (e : Z) : M unit :=
  modify (fun s => with_osd_epoch_barrier (Z.max (osd_epoch_barrier s) e) s).

(** Modelled from the spec: the state tests [is_active], [is_stopping],
    ... of the rank base class are outside [MDS.cc]; each compares the
    current state with one value of the enumeration. *)
Definition is_active (s : MDS) : bool := state s =? STATE_ACTIVE.

Definition is_stopping (s : MDS) : bool := state s =? STATE_STOPPING.

Definition is_clientreplay (s : MDS) : bool := state s =? STATE_CLIENTREPLAY.

Definition is_rejoin (s : MDS) : bool := state s =? STATE_REJOIN.

Definition is_reconnect (s : MDS) : bool := state s =? STATE_RECONNECT.

Definition is_resolve (s : MDS) : bool := state s =? STATE_RESOLVE.

Definition is_replay (s : MDS) : bool := state s =? STATE_REPLAY.

Definition is_creating (s : MDS) : bool := state s =? STATE_CREATING.

Definition is_starting (s : MDS) : bool := state s =? STATE_STARTING.

(** Modelled from the spec: [is_any_replay], "any replay state": replay,
    standby-replay or oneshot-replay. *)
Definition is_any_replay (s : MDS) : bool :=
  is_replay s || (state s =? STATE_STANDBY_REPLAY)
  || (state s =? STATE_ONESHOT_REPLAY).

(** ** The admin socket *)

(** Modelled from the spec: [AdminSocket::register_command] is outside
    [MDS.cc].  At most one hook is registered per command string:
    "registration fails the second time". *)
Definition register_command (command cmddesc : string) (hook : nat)
    (help : string) : M Z :=
  s ← get;
  match admin_socket s !! command with
  | Some _ => mret (- EEXIST)
  | None =>
      modify (with_admin_socket
                (<[command := mk_asok_entry cmddesc hook help]>
                   (admin_socket s)));;
      mret 0
  end.

(** Modelled from the spec: [AdminSocket::unregister_command] is outside
    [MDS.cc]; it removes the registration of the command string, and fails
    when there is none. *)
Definition unregister_command (command : string) : M Z :=
  s ← get;
  match admin_socket s !! command with
  | Some _ =>
      modify (with_admin_socket (delete command (admin_socket s)));;
      mret 0
  | None => mret (- ENOENT)
  end.

(** [new MDSSocketHook(this)]: a hook at an address that is not in use. *)
Definition new_hook : M nat :=
  s ← get;
  let h := fresh (live_hooks s) in
  modify (with_live_hooks ({[h]} ∪ live_hooks s));;
  mret h.

(** [delete asok_hook]; deleting a null pointer does nothing. *)
Definition delete_hook (p : option nat) : M unit :=
  match p with
  | Some h => s ← get; modify (with_live_hooks (live_hooks s ∖ {[h]}))
  | None => mret tt
  end.

(** One [register_command] of [set_up_admin_socket] with its
    [assert(r == 0)]. *)
Definition register_checked (command cmddesc : string) (hook : nat)
    (help : string) : M unit :=
  r ← register_command command cmddesc hook help;
  c_assert (r =? 0).

Definition set_up_admin_socket : M unit :=
  h ← new_hook;
  modify (with_asok_hook (Some h));;
  register_checked "status" "status" h "high-level status of MDS";;
  register_checked "dump_ops_in_flight" "dump_ops_in_flight" h
    "show the ops currently in flight";;
  register_checked "ops" "ops" h "show the ops currently in flight";;
  register_checked "dump_historic_ops" "dump_historic_ops" h
    "show slowest recent ops";;
  register_checked "scrub_path" "scrub_path name=path,type=CephString" h
    "scrub an inode and output results";;
  register_checked "flush_path" "flush_path name=path,type=CephString" h
    "flush an inode (and its dirfrags)";;
  register_checked "export dir"
    "export dir name=path,type=CephString name=rank,type=CephInt" h
    "migrate a subtree to named MDS";;
  register_checked "dump cache"
    "dump cache name=path,type=CephString,req=false" h
    "dump metadata cache (optionally to a file)";;
  register_checked "session evict"
    "session evict name=client_id,type=CephString" h
    "Evict a CephFS client";;
  register_checked "osdmap barrier"
    "osdmap barrier name=target_epoch,type=CephInt" h
    "Wait until the MDS has this OSD map epoch";;
  register_checked "session ls" "session ls" h
    "Enumerate connected CephFS clients";;
  register_checked "flush journal" "flush journal" h
    "Flush the journal to the backing store";;
  register_checked "force_readonly" "force_readonly" h
    "Force MDS to read-only mode";;
  register_checked "get subtrees" "get subtrees" h
    "Return the subtree map";;
  register_checked "dirfrag split"
    "dirfrag split name=path,type=CephString,req=true name=frag,type=CephString,req=true name=bits,type=CephInt,req=true "
    h "Fragment directory by path";;
  register_checked "dirfrag merge"
    "dirfrag merge name=path,type=CephString,req=true name=frag,type=CephString,req=true"
    h "De-fragment directory by path";;
  register_checked "dirfrag ls"
    "dirfrag ls name=path,type=CephString,req=true" h
    "List fragments in directory".

Definition clean_up_admin_socket : M unit :=
  unregister_command "status";;
  unregister_command "dump_ops_in_flight";;
  unregister_command "ops";;
  unregister_command "dump_historic_ops";;
  unregister_command "scrub_path";;
  unregister_command "flush_path";;
  unregister_command "session evict";;
  unregister_command "session ls";;
  unregister_command "flush journal";;
  unregister_command "force_readonly";;
  s ← get;
  delete_hook (asok_hook s);;
  modify (with_asok_hook None).

(** ** Terminal operations *)

(** [respawn()] rebuilds the argument vector and calls [execv]; when
    [execv] returns it runs [assert(0)].  It never returns to its caller. *)
Definition respawn {A} : M A := fun s => Respawned s [Execv].

Definition suicide (fast : bool) : M unit :=
  s ← get;
  c_assert (negb (stopping s));;
  modify (with_stopping true);;
  set_want_state STATE_DNE;;
  when (negb fast && negb (is_dne_gid (mdsmap s) (global_id (env s))))
    (emit (BeaconSendAndWait 1));;
  emit MdlogShutdown;;
  emit FinisherStop;;
  emit BeaconShutdown;;
  when (tick_event s) (emit TimerCancelEvent;; modify (with_tick_event false));;
  emit TimerCancelAllEvents;;
  emit TimerShutdown;;
  clean_up_admin_socket;;
  emit MdcacheShutdown;;
  when (objecter_initialized (env s)) (emit ObjecterShutdown);;
  emit MoncShutdown;;
  emit OpTrackerOnShutdown;;
  emit ProgressThreadShutdown;;
  emit MessengerShutdown;;
  when (hb s) (emit HeartbeatRemoveWorker;; modify (with_hb false)).

Definition handle_signal : M unit :=
  s ← get;
  if stopping s then mret tt else suicide false.

(** The periodic tick. *)
Definition reset_tick : M unit :=
  s ← get;
  when (tick_event s) (emit TimerCancelEvent);;
  modify (with_tick_event true);;
  emit TimerAddEventAfter.

Definition check_ops_in_flight : M unit := emit OpTrackerCheckOpsInFlight.

Definition tick : M unit :=
  heartbeat_reset;;
  modify (with_tick_event false);;
  reset_tick;;
  s ← get;
  if beacon_is_laggy (env s) then mret tt
  else
    emit ProgressThreadSignal;;
    emit MdlogFlush;;
    when (is_active s || is_stopping s)
      (emit CacheTrim;; emit CacheTrimClientLeases;;
       emit CacheCheckMemoryUsage;; emit MdlogTrim);;
    when (logger (env s)) (emit LogStat);;
    when (is_clientreplay s || is_active s || is_stopping s)
      (emit LockerTick;; emit FindIdleSessions);;
    when (is_reconnect s) (emit ReconnectTick);;
    when (is_active s)
      (emit BalancerTick;; emit FindStaleFragmentFreeze;;
       emit FindStaleExportFreeze;; emit SnapserverCheckOsdMap);;
    emit BeaconNotifyHealth;;
    check_ops_in_flight.

Definition damaged : M unit :=
  s ← get;
  c_assert (negb (whoami s =? MDS_RANK_NONE));;
  set_want_state STATE_DAMAGED;;
  emit MoncFlushLog;;
  emit BeaconNotifyHealth;;
  emit (BeaconSendAndWait (mds_mon_shutdown_timeout (env s)));;
  respawn.

(** ** The membership state machine *)

(** "note source's map version": [peer_mdsmap_epoch[...]] creates a missing
    entry with value 0 before it is compared. *)
Definition note_source_epoch (m : MMDSMap) : M unit :=
  s ← get;
  if is_mds (m_source m) then
    let r := to_mds_rank_t (ent_num (m_source m)) in
    let cur := default 0 (peer_mdsmap_epoch s !! r) in
    if cur <? m_epoch m
    then modify (with_peer_mdsmap_epoch
                   (<[r := m_epoch m]> (peer_mdsmap_epoch s)))
    else modify (with_peer_mdsmap_epoch
                   (<[r := cur]> (peer_mdsmap_epoch s)))
  else mret tt.

(** "see who i am" *)
Definition see_who_i_am : M unit :=
  s ← get;
  let gid := global_id (env s) in
  modify (with_state (get_state_gid (mdsmap s) gid));;
  modify (with_incarnation (get_inc_gid (mdsmap s) gid));;
  modify (with_whoami (get_rank_gid (mdsmap s) gid));;
  s ← get;
  when ((whoami s =? MDS_RANK_NONE)
        && ((state s =? STATE_STANDBY_REPLAY)
            || (state s =? STATE_ONESHOT_REPLAY)))
    (match find_info gid (mds_info (mdsmap s)) with
     | Some i => modify (with_whoami (info_standby_for_rank i))
     | None => c_assert false
     end).

(** "Validate state transitions while I hold a rank": the value of the
    local [state_valid]. *)
Definition state_valid (whoami oldstate state : Z) : bool :=
  if negb (whoami =? MDS_RANK_NONE) && negb (state =? oldstate) then
    if oldstate =? STATE_REPLAY then
      if negb (state =? STATE_RESOLVE) && negb (state =? STATE_RECONNECT)
      then false else true
    else if oldstate =? STATE_REJOIN then
      if negb (state =? STATE_ACTIVE)
         && negb (state =? STATE_CLIENTREPLAY)
         && negb (state =? STATE_STOPPED)
      then false else true
    else if (STATE_RECONNECT <=? oldstate) && (oldstate <? STATE_ACTIVE) then
      if negb (state =? oldstate + 1) then false else true
    else true
  else true.

Definition handle_mds_recovery (who : Z) : M unit :=
  s ← get;
  emit (CacheHandleMdsRecovery who);;
  when (tableserver (mdsmap s) =? whoami s)
    (emit (SnapserverHandleMdsRecovery who));;
  emit (QueueWaiters who).

Definition handle_mds_failure (who : Z) : M unit :=
  s ← get;
  if who =? whoami s then mret tt
  else emit (CacheHandleMdsFailure who);;
       emit (SnapclientHandleMdsFailure who).

(** The rank-none cases. *)
Definition rank_none_case : M unit :=
  s ← get;
  if want_state s =? STATE_STANDBY then
    modify (with_state STATE_BOOT);;
    set_want_state STATE_BOOT
  else if want_state s =? STATE_BOOT then
    mret tt
  else
    let existing := find_mds_gid_by_name (mdsmap s) (name s) in
    if mds_enforce_unique_name (env s) && negb (existing =? MDS_GID_NONE)
    then
      match find_info existing (mds_info (mdsmap s)) with
      | Some i =>
          if info_global_id i >? global_id (env s)
          then suicide false
          else respawn
      | None => c_assert false
      end
    else respawn.

(** The fan-out on a change of state. *)
Definition state_change (oldstate : Z) : M unit :=
  s ← get;
  set_want_state (state s);;
  if oldstate =? STATE_STANDBY_REPLAY then
    c_assert (state s =? STATE_REPLAY)
  else
    when ((is_active s || is_clientreplay s)
          && ((oldstate =? STATE_CREATING)
              || (oldstate =? STATE_REJOIN)
              || (oldstate =? STATE_RECONNECT)))
      (emit (RecoveryDone oldstate));;
    if is_active s then emit ActiveStart
    else if is_any_replay s then emit ReplayStart
    else if is_resolve s then emit ResolveStart
    else if is_reconnect s then emit ReconnectStart
    else if is_rejoin s then emit RejoinStart
    else if is_clientreplay s then emit ClientreplayStart
    else if is_creating s then emit BootCreate
    else if is_starting s then emit BootStart
    else if is_stopping s then
      c_assert (oldstate =? STATE_ACTIVE);; emit StoppingStart
    else mret tt.

(** The waiters keyed by map epoch, drained up to the installed epoch. *)
Fixpoint drain_waiters (e : Z) (w : list (Z * list Z)) : M unit :=
  match w with
  | [] => mret tt
  | (k, ls) :: w' =>
      if k <=? e then
        modify (with_waiting_for_mdsmap w');;
        emit (FinishContexts ls);;
        drain_waiters e w'
      else mret tt
  end.

(** The peer events derived from the difference of the two maps, and the
    end of the handler. *)
Definition peer_events (oldmap : MDSMap) (oldstate : Z) : M unit :=
  s ← get;
  let newmap := mdsmap s in
  when ((is_resolve s || is_reconnect s || is_rejoin s
         || is_clientreplay s || is_active s || is_stopping s)
        && negb (is_resolving oldmap) && is_resolving newmap)
    (emit CalcRecoverySet;; emit SendResolves);;
  when (is_rejoin s || is_clientreplay s || is_active s || is_stopping s)
    (when (negb (is_rejoining oldmap) && is_rejoining newmap)
       (emit RejoinJointStart);;
     when (mds_dump_cache_after_rejoin (env s)
           && is_rejoining oldmap && negb (is_rejoining newmap))
       (emit DumpCache);;
     when (STATE_REJOIN <=? oldstate)
       (let olddis :=
          get_mds_set oldmap
            (get_mds_set oldmap (get_mds_set oldmap [] STATE_ACTIVE)
               STATE_CLIENTREPLAY) STATE_REJOIN in
        let dis :=
          get_mds_set newmap
            (get_mds_set newmap (get_mds_set newmap [] STATE_ACTIVE)
               STATE_CLIENTREPLAY) STATE_REJOIN in
        for_each dis (fun p =>
          when (negb (p =? whoami s) && negb (set_count p olddis))
            (emit (KickDiscovers p);; emit (KickOpenInoPeers p)))));;
  when ((STATE_CLIENTREPLAY <=? oldstate)
        && (is_clientreplay s || is_active s || is_stopping s))
    (let oldactive :=
       get_mds_set oldmap (get_mds_set oldmap [] STATE_ACTIVE)
         STATE_CLIENTREPLAY in
     let active :=
       get_mds_set newmap (get_mds_set newmap [] STATE_ACTIVE)
         STATE_CLIENTREPLAY in
     for_each active (fun p =>
       when (negb (p =? whoami s) && negb (set_count p oldactive))
         (handle_mds_recovery p)));;
  for_each (down_mds_set newmap) (fun p =>
    when (negb (set_count p (down_mds_set oldmap)))
      (emit (MessengerMarkDown (inst_addr oldmap p));;
       handle_mds_failure p));;
  for_each (up_mds_set newmap) (fun p =>
    when (have_inst oldmap p
          && negb (inst_addr oldmap p =? inst_addr newmap p))
      (emit (MessengerMarkDown (inst_addr oldmap p));;
       handle_mds_failure p));;
  when (is_clientreplay s || is_active s || is_stopping s)
    (for_each (stopped_mds_set newmap) (fun p =>
       when (negb (set_count p (stopped_mds_set oldmap)))
         (emit (MigratorHandleMdsFailureOrStop p))));;
  when (negb (is_any_replay s)) (emit TryRebalance);;
  drain_waiters (epoch newmap) (waiting_for_mdsmap s);;
  when (is_active s) (set_osd_epoch_barrier (osd_epoch (env s)));;
  emit NotifyMdsmapChanged.

(** The handler from "update messenger" on, for a daemon that holds a
    rank. *)
Definition process_rank (oldmap : MDSMap) (oldwhoami oldstate : Z)
  : M unit :=
  s ← get;
  when (negb (oldwhoami =? whoami s) || negb (oldstate =? state s))
    (if (state s =? STATE_STANDBY_REPLAY)
        || (state s =? STATE_ONESHOT_REPLAY)
     then emit (MessengerSetMyname (global_id (env s)))
     else emit (MessengerSetMyname (whoami s)));;
  when (negb (objecter_client_incarnation s =? incarnation s))
    (modify (with_objecter_client_incarnation (incarnation s));;
     emit (ObjecterSetClientIncarnation (incarnation s)));;
  when (mds_dump_cache_on_map (env s)) (emit DumpCache);;
  when (negb (oldstate =? state s)) (state_change oldstate);;
  peer_events oldmap oldstate.

(** The handler from "mark down any failed peers" to the label [out]. *)
Definition process_map (oldmap : MDSMap) (oldwhoami oldstate : Z)
  : M unit :=
  s ← get;
  for_each (mds_info oldmap) (fun p =>
    when (negb (existsb (fun q => fst q =? fst p) (mds_info (mdsmap s))))
      (emit (MessengerMarkDown (info_addr (snd p)))));;
  when (negb (state s =? oldstate)) (modify (with_last_state oldstate));;
  if state s =? STATE_STANDBY then
    modify (with_state STATE_STANDBY);;
    set_want_state STATE_STANDBY;;
    when (negb (standby_type s =? 0)) (request_state (standby_type s))
  else if (state s =? STATE_STANDBY_REPLAY)
          && negb (standby_type s =? STATE_NULL)
          && negb (standby_type s =? STATE_STANDBY_REPLAY) then
    set_want_state (standby_type s);;
    emit BeaconSend;;
    modify (with_state oldstate)
  else if whoami s =? MDS_RANK_NONE then
    rank_none_case
  else
    process_rank oldmap oldwhoami oldstate.

(** The handler from "see who i am" to the label [out]: the new identity,
    the rank transition check, the state transition check, the rest. *)
Definition identify_and_process (oldmap : MDSMap) (oldwhoami oldstate : Z)
  : M unit :=
  see_who_i_am;;
  s ← get;
  when (negb (whoami s =? oldwhoami) && negb (oldwhoami =? MDS_RANK_NONE))
    respawn;;
  when (negb (state_valid (whoami s) oldstate (state s))) respawn;;
  process_map oldmap oldwhoami oldstate.

Definition handle_mds_map (m : MMDSMap) : M unit :=
  note_source_epoch m;;
  s ← get;
  if m_epoch m <=? epoch (mdsmap s) then
    emit MsgPut
  else
    let oldmap := mdsmap s in
    let oldwhoami := whoami s in
    let oldstate := state s in
    modify (with_mdsmap (m_encoded m));;
    emit (MoncSubGot (epoch (m_encoded m)));;
    emit (BeaconNotifyMdsmap (epoch (m_encoded m)));;
    (if negb (compat_writeable (m_encoded m))
     then suicide false
     else identify_and_process oldmap oldwhoami oldstate);;
    emit MsgPut;;
    emit DeleteOldmap.

(** ** Commands from the monitor channel *)

(** What [_handle_command] leaves in [*run_later]. *)
Inductive run_later : Type := SuicideLater | RespawnLater.

Definition complete (c : run_later) : M unit :=
  match c with
  | SuicideLater => emit (Sleep 1);; suicide false
  | RespawnLater => emit (Sleep 1);; respawn
  end.

Fixpoint join_args (l : list string) : string :=
  match l with
  | [] => ""
  | a :: l' => " " +:+ a +:+ join_args l'
  end.

(** Returns the return code, [*outs] and [*run_later]. *)
Definition _handle_command (cmdmap : gmap string cmd_val)
  : M (Z * string * option run_later) :=
  s ← get;
  let prefix := default "" (cmd_getval_str cmdmap "prefix") in
  if bool_decide (prefix = "get_command_descriptions") then
    emit CommandDescriptions;; mret (0, "", None)
  else if bool_decide (prefix = "injectargs") then
    match default [] (cmd_getval_vec cmdmap "injected_args") with
    | [] => mret (- EINVAL, "ignoring empty injectargs", None)
    | a :: rest =>
        let args := a +:+ join_args rest in
        emit (ConfInjectargs args);;
        mret (0, conf_injectargs (env s) args, None)
    end
  else if bool_decide (prefix = "exit") then
    mret (0, "Exiting...", Some SuicideLater)
  else if bool_decide (prefix = "respawn") then
    mret (0, "Respawning...", Some RespawnLater)
  else if bool_decide (prefix = "session kill") then
    match cmd_getval_int cmdmap "session_id" with
    | None => c_assert false;; mret (0, "", None)
    | Some session_id =>
        if has_session (env s) session_id then
          emit (KillSession session_id);; mret (0, "", None)
        else
          mret (- ENOENT,
                "session '" +:+ pretty session_id +:+ "' not found", None)
    end
  else if bool_decide (prefix = "heap") then
    if negb (using_tcmalloc (env s)) then
      mret (- EOPNOTSUPP,
            "could not issue heap profiler command -- not using tcmalloc!",
            None)
    else emit HeapProfiler;; mret (0, "", None)
  else if bool_decide (prefix = "cpu_profiler") then
    emit CpuProfiler;; mret (0, "", None)
  else
    (* the message goes to an inner stream that shadows [ss] *)
    mret (- EINVAL, "", None).

(** [handle_command] for an [MCommand]: replies, then puts the message. *)
Definition handle_command (m : Message) (cmd : list string)
    (parsed : string + gmap string cmd_val) : M unit :=
  match get_connection m with
  | None => c_assert false
  | Some con =>
      match con_priv con with
      | None => c_assert false
      | Some allow_all =>
          res ← (if negb allow_all then mret (- EPERM, "", None)
                 else match cmd with
                      | [] => mret (0, "no command given", None)
                      | _ =>
                          match parsed with
                          | inl err => mret (- EINVAL, err, None)
                          | inr cmdmap => _handle_command cmdmap
                          end
                      end);
          let '(r, outs, run_after) := res in
          emit (SendReply r outs);;
          match run_after with
          | Some c => complete c
          | None => mret tt
          end;;
          emit MsgPut
      end
  end.

(** Legacy "mds tell", on a plain vector of arguments.  Reading
    [args[0]], [args[1]] or [args[2]] past the end of the vector is
    outside the vector; the model stops there.  The other commands
    (issue_caps, try_eval, fragment_dir, merge_dir, export_dir,
    cpu_profiler, heap and the unrecognized ones) only reach into the
    cache, the locker, the migrator or the profilers: they are one event. *)
Definition _handle_command_legacy (args : list string) : M Z :=
  s ← get;
  match args with
  | [] => c_assert false;; mret 0
  | a0 :: rest =>
      (if bool_decide (a0 = "injectargs") then
         match rest with
         | [] => mret tt
         | a1 :: _ =>
             emit LockUnlock;; emit (ConfInjectargs a1);; emit LockLock
         end
       else if bool_decide (a0 = "dumpcache") then
         match rest with
         | [] => emit DumpCache
         | a1 :: _ => emit (DumpCacheTo a1)
         end
       else if bool_decide (a0 = "exit") then suicide false
       else if bool_decide (a0 = "respawn") then respawn
       else if bool_decide (a0 = "session") then
         match rest with
         | [] => c_assert false
         | a1 :: rest' =>
             if bool_decide (a1 = "kill") then
               match rest' with
               | [] => c_assert false
               | a2 :: _ =>
                   when (has_session (env s) (strtol (env s) a2))
                     (emit (KillSession (strtol (env s) a2)))
               end
             else emit (CacheCommand args)
         end
       else emit (CacheCommand args));;
      mret 0
  end.

(** [handle_command] for an [MMonCommand]. *)
Definition handle_command_mon (cmd : list string) : M unit :=
  _handle_command_legacy cmd;;
  emit MsgPut.

(** ** The message dispatcher *)

(** Modelled from the spec: the macro [ALLOW_MESSAGES_FROM] is defined
    outside [MDS.cc].  It enforces the sender type against the allow-set
    given by the caller: a message whose connection's peer type has no bit
    in the set is released and the enclosing function returns [true].
    [filtered_out m peers] says that this happens. *)
Definition filtered_out (m : Message) (peers : Z) : bool :=
  match get_connection m with
  | Some con => Z.land (peer_type con) peers =? 0
  | None => false
  end.

Definition handle_core_message (m : Message) : M bool :=
  s ← get;
  match body m with
  | PMonMap =>
      if filtered_out m CEPH_ENTITY_TYPE_MON then emit MsgPut;; mret true
      else emit MsgPut;; mret true
  | PMDSMap mm =>
      if filtered_out m (Z.lor CEPH_ENTITY_TYPE_MON CEPH_ENTITY_TYPE_MDS)
      then emit MsgPut;; mret true
      else handle_mds_map mm;; mret true
  | PMonCommand cmd =>
      if filtered_out m CEPH_ENTITY_TYPE_MON then emit MsgPut;; mret true
      else handle_command_mon cmd;; mret true
  | PCommand cmd parsed =>
      handle_command m cmd parsed;; mret true
  | POSDMap =>
      if filtered_out m (Z.lor CEPH_ENTITY_TYPE_MON CEPH_ENTITY_TYPE_OSD)
      then emit MsgPut;; mret true
      else
        when (is_active s) (emit SnapserverCheckOsdMap);;
        emit ServerHandleOsdMap;;
        emit ObjecterMaybeRequestMap;;
        mret true
  | POther _ => mret false
  end.

(** Modelled from the spec: [handle_rank_message] belongs to the rank-level
    dispatcher, outside [MDS.cc]; it "returns whether accepted". *)
Definition handle_rank_message (m : Message) : M bool :=
  s ← get;
  emit HandleRankMessage;;
  mret (rank_accepts (env s) m).

Definition ms_dispatch (m : Message) : M bool :=
  s ← get;
  if stopping s then mret false
  else
    heartbeat_reset;;
    if want_state s =? STATE_DNE then
      emit MsgPut;; mret true
    else
      handle_core_message m ≫= λ handled_core : bool,
        if handled_core then mret true
        else handle_rank_message m.

(** ** The admin command surface *)

(** What the journal answers during one [flush journal]: the value each
    wait completes with, the return code of [trim_all], and the number of
    segments that are expiring. *)
Record journal_run : Type := mk_journal_run {
  mdlog_flushed : Z;
  mdlog_cleared : Z;
  trim_all : Z;
  expiring_segments : nat;
  expiry : Z;
  wrote_head : Z
}.

(** ["Error " << r << " (" << cpp_strerror(r) << ") " << what] *)
Definition error_text (s : MDS) (r : Z) (what : string) : string :=
  "Error " +:+ pretty r +:+ " (" +:+ cpp_strerror (env s) r +:+ ") "
  +:+ what.

(** [return r] under [Mutex::Locker l(mds_lock)]: the lock is given up
    when the function is left. *)
Definition unlock_and_return {A} (a : A) : M A := emit LockUnlock;; mret a.

(** Returns the return code together with the text left in [*ss].  The
    function takes the lock itself, with a [Mutex::Locker], and holds it
    but for the waits; a failed assertion does not leave the function. *)
Definition _command_flush_journal (j : journal_run) : M (Z * string) :=
  emit LockLock;;
  s ← get;
  if mdcache_readonly s then unlock_and_return (- EROFS, "")
  else if negb (is_active s) then unlock_and_return (0, "")
  else
    emit MdlogStartNewSegment;;
    emit MdlogFlush;;
    emit MdlogWaitForSafe;;
    emit LockUnlock;;
    emit LockLock;;
    if negb (mdlog_flushed j =? 0) then
      unlock_and_return
        (mdlog_flushed j,
         error_text s (mdlog_flushed j) "while flushing journal")
    else
      emit MdlogWaitForSafe;;
      emit LockUnlock;;
      emit LockLock;;
      if negb (mdlog_cleared j =? 0) then
        unlock_and_return
          (mdlog_cleared j,
           error_text s (mdlog_cleared j) "while flushing journal")
      else
        emit MdlogTrimAll;;
        if negb (trim_all j =? 0) then
          unlock_and_return
            (trim_all j, error_text s (trim_all j) "while trimming log")
        else
          emit (WaitForExpiry (expiring_segments j));;
          when (negb (Nat.eqb (expiring_segments j) 0))
            (emit LockUnlock;;
             emit LockLock;;
             c_assert (expiry j =? 0));;
          emit MdlogTrimExpiredSegments;;
          emit JournalerWriteHead;;
          emit LockUnlock;;
          emit LockLock;;
          if negb (wrote_head j =? 0) then
            unlock_and_return
              (wrote_head j,
               error_text s (wrote_head j) "while writing header")
          else unlock_and_return (0, "").

Definition command_flush_journal (j : journal_run) : M unit :=
  _command_flush_journal j ≫= λ res : Z * string,
    emit (DumpResult (snd res) (fst res)).

(** The hook's [asok_command]; [finish] is its common end. *)
Definition finish : M bool := emit FormatterFlush;; mret true.

Definition asok_command (command : string) (cmdmap : gmap string cmd_val)
    (j : journal_run) : M bool :=
  s ← get;
  if bool_decide (command = "status") then
    emit (Dump "status");; finish
  else if whoami s <? 0 then
    emit (Dump "error");; finish
  else if bool_decide (command = "dump_ops_in_flight")
          || bool_decide (command = "ops") then
    (if negb (tracking_enabled (env s))
     then emit (Output "op_tracker tracking is not enabled")
     else emit (OpTrackerDump "ops_in_flight"));;
    finish
  else if bool_decide (command = "dump_historic_ops") then
    (if negb (tracking_enabled (env s))
     then emit (Output "op_tracker tracking is not enabled")
     else emit (OpTrackerDump "historic_ops"));;
    finish
  else if bool_decide (command = "osdmap barrier") then
    match cmd_getval_int cmdmap "target_epoch" with
    | None => emit (Output "no target epoch given");; mret true
    | Some target_epoch =>
        emit LockLock;;
        set_osd_epoch_barrier (to_epoch_t target_epoch);;
        emit LockUnlock;;
        emit (ObjecterWaitForMap (to_epoch_t target_epoch));;
        finish
    end
  else if bool_decide (command = "session ls") then
    emit LockLock;;
    heartbeat_reset;;
    emit (Dump "sessions");;
    emit LockUnlock;;
    finish
  else if bool_decide (command = "session evict") then
    match cmd_getval_str cmdmap "client_id" with
    | None => c_assert false;; mret true
    | Some client_id =>
        emit LockLock;;
        when (has_session (env s) (strtol (env s) client_id))
          (emit (KillSession (strtol (env s) client_id)));;
        emit LockUnlock;;
        finish
    end
  else if bool_decide (command = "scrub_path") then
    emit (ScrubDentry (default "" (cmd_getval_str cmdmap "path")));;
    finish
  else if bool_decide (command = "flush_path") then
    emit (FlushDentry (default "" (cmd_getval_str cmdmap "path")));;
    emit (Dump "results");;
    finish
  else if bool_decide (command = "flush journal") then
    command_flush_journal j;;
    finish
  else if bool_decide (command = "get subtrees") then
    emit (Dump "subtrees");;
    finish
  else if bool_decide (command = "export dir") then
    match cmd_getval_str cmdmap "path" with
    | None => emit (Output "malformed path");; mret true
    | Some path =>
        match cmd_getval_int cmdmap "rank" with
        | None => emit (Output "malformed rank");; mret true
        | Some rank =>
            emit (ExportDirCommand path (to_mds_rank_t rank));;
            emit (Dump "results");;
            finish
        end
    end
  else if bool_decide (command = "dump cache") then
    match cmd_getval_str cmdmap "path" with
    | None => emit DumpCache
    | Some path => emit (DumpCacheTo path)
    end;;
    finish
  else if bool_decide (command = "force_readonly") then
    emit LockLock;;
    modify (with_mdcache_readonly true);;
    emit ForceReadonly;;
    emit LockUnlock;;
    finish
  else if bool_decide (command = "dirfrag split") then
    emit LockLock;; emit (DirfragCommand "split");; emit LockUnlock;; finish
  else if bool_decide (command = "dirfrag merge") then
    emit LockLock;; emit (DirfragCommand "merge");; emit LockUnlock;; finish
  else if bool_decide (command = "dirfrag ls") then
    emit LockLock;; emit (DirfragCommand "ls");; emit LockUnlock;; finish
  else finish.

(** ** Runs *)

(** The map messages of a list, handed to [handle_mds_map] one after the
    other for as long as the process goes on. *)
Fixpoint deliver (ms : list MMDSMap) : M unit :=
  match ms with
  | [] => mret tt
  | m :: ms' => handle_mds_map m;; deliver ms'
  end.

(** The epochs installed during a run, as reported to the monitor client
    ([monc->sub_got]) after each installation, oldest first. *)
Fixpoint installed_epochs (t : list event) : list Z :=
  match t with
  | [] => []
  | MoncSubGot e :: t' => e :: installed_epochs t'
  | _ :: t' => installed_epochs t'
  end.

(** The operations that enter the controller from outside. *)
Inductive operation : Type :=
| OpDispatch (m : Message)
| OpCoreMessage (m : Message)
| OpMdsMap (m : MMDSMap)
| OpSignal
| OpTick
| OpSuicide (fast : bool)
| OpDamaged
| OpRespawn
| OpAsok (command : string) (cmdmap : gmap string cmd_val) (j : journal_run)
| OpSetUpAdminSocket
| OpCleanUpAdminSocket.

Definition run_op (o : operation) : M unit :=
  match o with
  | OpDispatch m => ms_dispatch m;; mret tt
  | OpCoreMessage m => handle_core_message m;; mret tt
  | OpMdsMap m => handle_mds_map m
  | OpSignal => handle_signal
  | OpTick => tick
  | OpSuicide fast => suicide fast
  | OpDamaged => damaged
  | OpRespawn => respawn
  | OpAsok command cmdmap j => asok_command command cmdmap j;; mret tt
  | OpSetUpAdminSocket => set_up_admin_socket
  | OpCleanUpAdminSocket => clean_up_admin_socket
  end.

(** * What the theorems speak about *)

(** ** Properties of runs *)

(** [always R P m]: from every state, [m] ends (however it ends) in a
    state related by [R] to the one it started from, and every effect it
    issued satisfies [P]. *)
Definition always (R : MDS -> MDS -> Prop) (P : event -> Prop) {A}
    (m : M A) : Prop :=
  forall s, R s (final_state (m s)) /\ Forall P (trace (m s)).

(** [m] returns, leaves the state as it is and only issues effects. *)
Definition effects_only (m : M unit) : Prop :=
  forall s, exists t, m s = Ret tt s t.

(** [m] returns from every state, in a state related by [R] to the one
    it started from. *)
Definition runs (R : MDS -> MDS -> Prop) {A} (m : M A) : Prop :=
  forall s, exists a s' t, m s = Ret a s' t /\ R s s'.

(** Relations between the state before and the state after, and
    properties of effects, that the proofs follow along a run. *)
Definition map_kept (s s' : MDS) : Prop := mdsmap s' = mdsmap s.

Definition not_sub_got (e : event) : Prop := forall x, e <> MoncSubGot x.

Definition no_execv (e : event) : Prop := e <> Execv.

Definition rank_kept (s s' : MDS) : Prop := whoami s' = whoami s.

Definition latch_kept (s s' : MDS) : Prop :=
  stopping s = true -> stopping s' = true.

(** What the peer events and the fan-out leave alone. *)
Definition same_identity (s s' : MDS) : Prop :=
  state s' = state s /\ whoami s' = whoami s /\ env s' = env s
  /\ osd_epoch_barrier s' = osd_epoch_barrier s /\ mdsmap s' = mdsmap s.

(** The barrier has not gone down. *)
Definition barrier_grows (s s' : MDS) : Prop :=
  osd_epoch_barrier s <= osd_epoch_barrier s'.

(** The state after a sequence of operations, each started where the one
    before it ended. *)
Definition run_ops (ops : list operation) (s : MDS) : MDS :=
  foldl (fun s o => final_state (run_op o s)) s ops.

(** The entry points of the fan-out on a state change. *)
Definition entry_point (e : event) : bool :=
  match e with
  | RecoveryDone _ | ActiveStart | ReplayStart | ResolveStart
  | ReconnectStart | RejoinStart | ClientreplayStart | BootCreate
  | BootStart | StoppingStart => true
  | _ => false
  end.

(** ** States and tables that the code reaches *)

(** The table of peer epochs after "note source's map version". *)
Definition noted_source (m : MMDSMap) (s : MDS) : gmap Z Z :=
  if is_mds (m_source m) then
    let r := to_mds_rank_t (ent_num (m_source m)) in
    let cur := default 0 (peer_mdsmap_epoch s !! r) in
    if cur <? m_epoch m then <[r := m_epoch m]> (peer_mdsmap_epoch s)
    else <[r := cur]> (peer_mdsmap_epoch s)
  else peer_mdsmap_epoch s.

(** The state in which a new map has just been swapped in. *)
Definition swapped_in (m : MMDSMap) (s : MDS) : MDS :=
  with_mdsmap (m_encoded m)
    (with_peer_mdsmap_epoch (noted_source m s) s).

(** A map message is consistent when its epoch field is the epoch of the
    map it carries, as the constructor of [MMDSMap] makes it. *)
Definition consistent (m : MMDSMap) : Prop :=
  m_epoch m = epoch (m_encoded m).

(** The rank that "see who i am" computes for the daemon [gid] from a
    map: the rank the map assigns or, for a standby-replay or oneshot-replay
    daemon without one, the rank it stands by for. *)
Definition map_rank (mp : MDSMap) (gid : Z) : Z :=
  if (get_rank_gid mp gid =? MDS_RANK_NONE)
     && ((get_state_gid mp gid =? STATE_STANDBY_REPLAY)
         || (get_state_gid mp gid =? STATE_ONESHOT_REPLAY))
  then match find_info gid (mds_info mp) with
       | Some i => info_standby_for_rank i
       | None => MDS_RANK_NONE
       end
  else get_rank_gid mp gid.

(** The state after "see who i am". *)
Definition identified (s : MDS) : MDS :=
  with_whoami (map_rank (mdsmap s) (global_id (env s)))
    (with_incarnation (get_inc_gid (mdsmap s) (global_id (env s)))
       (with_state (get_state_gid (mdsmap s) (global_id (env s))) s)).

(** The transitions of the spec, "oldstate -> allowed newstates", read as
    a case list: replay and rejoin have their own sets, the other states of
    the sequence from reconnect up to (not including) active go to the next
    state, every other originating state may go anywhere. *)
Inductive allowed_transition : Z -> Z -> Prop :=
| from_replay new :
    new = STATE_RESOLVE \/ new = STATE_RECONNECT ->
    allowed_transition STATE_REPLAY new
| from_rejoin new :
    new = STATE_ACTIVE \/ new = STATE_CLIENTREPLAY \/ new = STATE_STOPPED ->
    allowed_transition STATE_REJOIN new
| from_sequence old new :
    STATE_RECONNECT <= old < STATE_ACTIVE ->
    old <> STATE_REJOIN ->
    new = old + 1 ->
    allowed_transition old new
| from_other old new :
    old <> STATE_REPLAY ->
    ~ (STATE_RECONNECT <= old < STATE_ACTIVE) ->
    allowed_transition old new.



(** The admin socket after [clean_up_admin_socket]. *)
Definition cleaned_socket (a : gmap string asok_entry)
  : gmap string asok_entry :=
  delete "force_readonly"
    (delete "flush journal"
       (delete "session ls"
          (delete "session evict"
             (delete "flush_path"
                (delete "scrub_path"
                   (delete "dump_historic_ops"
                      (delete "ops"
                         (delete "dump_ops_in_flight"
                            (delete "status" a))))))))).

(** The state after [clean_up_admin_socket]. *)
Definition cleaned (s : MDS) : MDS :=
  with_asok_hook None
    (with_live_hooks
       (match asok_hook s with
        | Some h => live_hooks s ∖ {[h]}
        | None => live_hooks s
        end)
       (with_admin_socket (cleaned_socket (admin_socket s)) s)).

(** The state after [suicide], and what [suicide] does on the way, in
    order. *)
Definition suicided (s : MDS) : MDS :=
  (if hb s then with_hb false else id)
    (cleaned
       ((if tick_event s then with_tick_event false else id)
          (with_want_state STATE_DNE (with_stopping true s)))).

Definition suicide_trace (fast : bool) (s : MDS) : list event :=
  [BeaconSetWantState STATE_DNE]
  ++ (if negb fast && negb (is_dne_gid (mdsmap s) (global_id (env s)))
      then [BeaconSendAndWait 1] else [])
  ++ [MdlogShutdown; FinisherStop; BeaconShutdown]
  ++ (if tick_event s then [TimerCancelEvent] else [])
  ++ [TimerCancelAllEvents; TimerShutdown; MdcacheShutdown]
  ++ (if objecter_initialized (env s) then [ObjecterShutdown] else [])
  ++ [MoncShutdown; OpTrackerOnShutdown; ProgressThreadShutdown;
      MessengerShutdown]
  ++ (if hb s then [HeartbeatRemoveWorker] else []).

(** The message [m] as it would have come from a peer of type [pt]. *)
Definition from_peer_type (pt : Z) (m : Message) : Message :=
  {| get_connection :=
       match get_connection m with
       | Some con => Some {| peer_type := pt; con_priv := con_priv con |}
       | None => None
       end;
     body := body m |}.

(** The core messages whose case in [handle_core_message] names an
    allow-set, with that set. *)
Definition allow_set (b : payload) : option Z :=
  match b with
  | PMonMap => Some CEPH_ENTITY_TYPE_MON
  | PMDSMap _ => Some (Z.lor CEPH_ENTITY_TYPE_MON CEPH_ENTITY_TYPE_MDS)
  | PMonCommand _ => Some CEPH_ENTITY_TYPE_MON
  | POSDMap => Some (Z.lor CEPH_ENTITY_TYPE_MON CEPH_ENTITY_TYPE_OSD)
  | PCommand _ _ => None
  | POther _ => None
  end.

(** The command strings that [set_up_admin_socket] registers: those that
    [clean_up_admin_socket] unregisters, and the others. *)
Definition unregistered_commands : list string :=
  ["status"; "dump_ops_in_flight"; "ops"; "dump_historic_ops";
   "scrub_path"; "flush_path"; "session evict"; "session ls";
   "flush journal"; "force_readonly"].

Definition leftover_commands : list string :=
  ["export dir"; "dump cache"; "osdmap barrier"; "get subtrees";
   "dirfrag split"; "dirfrag merge"; "dirfrag ls"].

Definition registered_commands : list string :=
  unregistered_commands ++ leftover_commands.

(** The admin socket after the seventeen registrations of
    [set_up_admin_socket] with the hook [h]. *)
Definition registered (h : nat) (a : gmap string asok_entry)
  : gmap string asok_entry :=
  <["dirfrag ls" := mk_asok_entry
      "dirfrag ls name=path,type=CephString,req=true" h
      "List fragments in directory"]>
  (<["dirfrag merge" := mk_asok_entry
      "dirfrag merge name=path,type=CephString,req=true name=frag,type=CephString,req=true"
      h "De-fragment directory by path"]>
  (<["dirfrag split" := mk_asok_entry
      "dirfrag split name=path,type=CephString,req=true name=frag,type=CephString,req=true name=bits,type=CephInt,req=true "
      h "Fragment directory by path"]>
  (<["get subtrees" := mk_asok_entry "get subtrees" h
      "Return the subtree map"]>
  (<["force_readonly" := mk_asok_entry "force_readonly" h
      "Force MDS to read-only mode"]>
  (<["flush journal" := mk_asok_entry "flush journal" h
      "Flush the journal to the backing store"]>
  (<["session ls" := mk_asok_entry "session ls" h
      "Enumerate connected CephFS clients"]>
  (<["osdmap barrier" := mk_asok_entry
      "osdmap barrier name=target_epoch,type=CephInt" h
      "Wait until the MDS has this OSD map epoch"]>
  (<["session evict" := mk_asok_entry
      "session evict name=client_id,type=CephString" h
      "Evict a CephFS client"]>
  (<["dump cache" := mk_asok_entry
      "dump cache name=path,type=CephString,req=false" h
      "dump metadata cache (optionally to a file)"]>
  (<["export dir" := mk_asok_entry
      "export dir name=path,type=CephString name=rank,type=CephInt" h
      "migrate a subtree to named MDS"]>
  (<["flush_path" := mk_asok_entry "flush_path name=path,type=CephString" h
      "flush an inode (and its dirfrags)"]>
  (<["scrub_path" := mk_asok_entry "scrub_path name=path,type=CephString" h
      "scrub an inode and output results"]>
  (<["dump_historic_ops" := mk_asok_entry "dump_historic_ops" h
      "show slowest recent ops"]>
  (<["ops" := mk_asok_entry "ops" h "show the ops currently in flight"]>
  (<["dump_ops_in_flight" := mk_asok_entry "dump_ops_in_flight" h
      "show the ops currently in flight"]>
  (<["status" := mk_asok_entry "status" h "high-level status of MDS"]>
     a)))))))))))))))).

(** The state after [set_up_admin_socket]. *)
Definition set_up (s : MDS) : MDS :=
  with_admin_socket (registered (fresh (live_hooks s)) (admin_socket s))
    (with_asok_hook (Some (fresh (live_hooks s)))
       (with_live_hooks ({[fresh (live_hooks s)]} ∪ live_hooks s) s)).

(** * Scenarios *)

(** The collaborators: the monitor gave the daemon the global id 4100, the
    objecter has the OSD map of epoch 30, unique names are enforced. *)
Definition sample_env : Env :=
  {| global_id := 4100; osd_epoch := 30; objecter_initialized := true;
     mds_enforce_unique_name := true; mds_dump_cache_on_map := false;
     mds_dump_cache_after_rejoin := false; tracking_enabled := true;
     using_tcmalloc := false; beacon_is_laggy := false; logger := true;
     mds_mon_shutdown_timeout := 5;
     rank_accepts := fun _ => true; has_session := fun _ => false;
     strtol := fun _ => 0; cpp_strerror := fun _ => "error";
     conf_injectargs := fun _ => "" |}.

(** A map of epoch [e] with the daemons [infos], which this daemon's
    feature set can write. *)
Definition sample_map (e : Z) (infos : list (Z * mds_info_t)) : MDSMap :=
  {| epoch := e; compat_writeable := true; mds_info := infos;
     tableserver := 0; is_resolving := false; is_rejoining := false;
     down_mds_set := []; up_mds_set := []; stopped_mds_set := [];
     have_inst := fun _ => false; inst_addr := fun _ => 0 |}.

(** A daemon named "alpha" that holds rank [w] in state [st] and wants
    [want], under the map [mp]. *)
Definition sample_mds (mp : MDSMap) (w st want : Z) : MDS :=
  {| stopping := false; mdsmap := mp; whoami := w; incarnation := 1;
     state := st; want_state := want; last_state := STATE_BOOT;
     standby_type := STATE_NULL; peer_mdsmap_epoch := {[ 1 := 3 ]};
     osd_epoch_barrier := 10; waiting_for_mdsmap := [];
     tick_event := true; hb := true; asok_hook := None;
     admin_socket := ∅; live_hooks := ∅; name := "alpha";
     objecter_client_incarnation := 1; mdcache_readonly := false;
     env := sample_env |}.

Definition info (gid : Z) (nm : string) (r st : Z) : Z * mds_info_t :=
  (gid, {| info_global_id := gid; info_name := nm; info_rank := r;
           info_inc := 1; info_state := st; info_addr := gid;
           info_standby_for_rank := MDS_RANK_NONE |}).

Definition map_msg (src : entity_name_t) (mp : MDSMap) : MMDSMap :=
  {| m_source := src; m_epoch := epoch mp; m_encoded := mp |}.

Definition mon0 : entity_name_t := mk_entity_name CEPH_ENTITY_TYPE_MON 0.
Definition mds1 : entity_name_t := mk_entity_name CEPH_ENTITY_TYPE_MDS 1.

(** Scenario for the rank check: the daemon holds rank 0 and is active;
    one map of epoch 11 gives it rank 1, another keeps the rank and makes
    it stopping. *)
Definition rank0_active : MDS :=
  sample_mds (sample_map 10 [info 4100 "alpha" 0 STATE_ACTIVE]) 0
    STATE_ACTIVE STATE_ACTIVE.
Definition msg_rank1 : MMDSMap :=
  map_msg mon0 (sample_map 11 [info 4100 "alpha" 1 STATE_ACTIVE]).
Definition msg_rank0_stopping : MMDSMap :=
  map_msg mon0 (sample_map 11 [info 4100 "alpha" 0 STATE_STOPPING]).

(** Scenario for the epoch check: the installed map of [rank0_active] has
    epoch 10, its peer table has epoch 3 for mds.1, and mds.1 sends its map
    of epoch 5. *)
Definition stale_msg : MMDSMap :=
  map_msg mds1 (sample_map 5 [info 4100 "alpha" 0 STATE_ACTIVE]).

(** Three maps from the monitor with epochs 12, 11 and 14. *)
Definition three_maps : list MMDSMap :=
  [ map_msg mon0 (sample_map 12 [info 4100 "alpha" 0 STATE_ACTIVE]);
    map_msg mon0 (sample_map 11 [info 4100 "alpha" 0 STATE_ACTIVE]);
    map_msg mon0 (sample_map 14 [info 4100 "alpha" 0 STATE_STOPPING]) ].

(** Scenario S4: the daemon holds rank 0 in state replay and the map of
    epoch 11 says active.  In the other map it goes on to resolve. *)
Definition rank0_replay : MDS :=
  sample_mds (sample_map 10 [info 4100 "alpha" 0 STATE_REPLAY]) 0
    STATE_REPLAY STATE_REPLAY.
Definition msg_active : MMDSMap :=
  map_msg mon0 (sample_map 11 [info 4100 "alpha" 0 STATE_ACTIVE]).
Definition msg_resolve : MMDSMap :=
  map_msg mon0 (sample_map 11 [info 4100 "alpha" 0 STATE_RESOLVE]).

(** Scenario S1: the daemon is creating at rank 0 and the map of epoch 11
    makes it active.  Its barrier is 10, once 40; the objecter has the OSD
    map of epoch 30.  The admin command asks for epoch 5. *)
Definition rank0_creating : MDS :=
  sample_mds (sample_map 10 [info 4100 "alpha" 0 STATE_CREATING]) 0
    STATE_CREATING STATE_CREATING.
Definition barrier_cmdmap : gmap string cmd_val :=
  {[ "target_epoch" := CmdInt 5 ]}.

(** A daemon after its [suicide], and a monitor message that reaches it. *)
Definition dead_mds : MDS := suicided rank0_active.
Definition from_mon (b : payload) : Message :=
  {| get_connection :=
       Some {| peer_type := CEPH_ENTITY_TYPE_MON; con_priv := None |};
     body := b |}.

(** A command message, and a legacy monitor command, that arrive on a
    connection whose peer is an OSD; the session attached to the
    connection holds capabilities that allow everything. *)
Definition osd_con : Connection :=
  {| peer_type := CEPH_ENTITY_TYPE_OSD; con_priv := Some true |}.
Definition exit_cmdmap : gmap string cmd_val :=
  {[ "prefix" := CmdStr "exit" ]}.
Definition command_from_osd : Message :=
  {| get_connection := Some osd_con;
     body := PCommand ["{prefix: exit}"] (inr exit_cmdmap) |}.
Definition mon_command_from_osd : Message :=
  {| get_connection := Some osd_con; body := PMonCommand ["exit"] |}.

(** A flush whose second wait fails with -5, one whose last wait fails
    with -28, and one in which every step succeeds. *)
Definition flush_fails_second : journal_run :=
  {| mdlog_flushed := 0; mdlog_cleared := -5; trim_all := 0;
     expiring_segments := 2; expiry := 0; wrote_head := 0 |}.
Definition flush_fails_head : journal_run :=
  {| mdlog_flushed := 0; mdlog_cleared := 0; trim_all := 0;
     expiring_segments := 2; expiry := 0; wrote_head := -28 |}.
Definition flush_ok : journal_run :=
  {| mdlog_flushed := 0; mdlog_cleared := 0; trim_all := 0;
     expiring_segments := 2; expiry := 0; wrote_head := 0 |}.

Definition rankless_standby_replay : MDS :=
  sample_mds (sample_map 10 [info 4100 "alpha" MDS_RANK_NONE STATE_STANDBY])
    MDS_RANK_NONE STATE_STANDBY STATE_STANDBY_REPLAY.

(** * More of the daemon *)

(** ** Connections and sessions

    The messenger's callbacks [ms_handle_reset], [ms_handle_remote_reset],
    [ms_verify_authorizer] and [ms_handle_accept] work on connections and
    sessions, which point at each other: they are kept in a store, under
    their addresses.  Of the controller they only read the stopping latch
    and the wanted state.  A callback that follows a pointer that is not in
    the store has no outcome ([None]). *)

(** What [ms_verify_authorizer] calls on a session's [auth_caps]. *)
Inductive caps_call : Type :=
| SetAllowAll
| ParseCaps (auth_cap_str : string).

(** A [Session]: [s->connection], [s->info.inst], what [is_closed()]
    answers, the calls made on [s->auth_caps] so far (oldest first) and
    [s->preopen_out_queue] (front first). *)
Record Session : Type := mk_Session {
  session_connection : option nat;
  session_inst_addr : Z;
  session_inst_name : Z * Z;
  session_is_closed : bool;
  session_auth_caps : list caps_call;
  preopen_out_queue : list nat
}.

(** A connection: the peer's type and address, and the session that
    [get_priv()] returns. *)
Record Con : Type := mk_Con {
  con_peer_type : Z;
  con_peer_addr : Z;
  con_get_priv : option nat
}.

(** The store, and [sessionmap] from entity names (type and number) to
    sessions. *)
Record Net : Type := mk_Net {
  connections : gmap nat Con;
  sessions : gmap nat Session;
  sessionmap : gmap (Z * Z) nat
}.

(** The calls on connections and sessions, in the order in which a
    callback makes them. *)
Inductive net_call : Type :=
| ConMarkDown (con : nat)
| ConSendMessage (con : nat) (msg : nat)
| SessionPut (session : nat)
| SessionGet (session : nat).

(** Modelled from the spec: [Connection::set_priv] and [get_priv] are
    outside [MDS.cc]; a connection has a "priv pointer", which [set_priv]
    writes and [get_priv] reads. *)
Definition set_priv (con : nat) (p : option nat) (net : Net) : Net :=
  mk_Net
    (alter (fun c => mk_Con (con_peer_type c) (con_peer_addr c) p) con
       (connections net))
    (sessions net) (sessionmap net).

(** An update of the session at [sid]. *)
Definition update_session (sid : nat) (f : Session -> Session) (net : Net)
  : Net :=
  mk_Net (connections net) (alter f sid (sessions net)) (sessionmap net).

Definition with_session_connection (c : option nat) (s : Session) : Session :=
  mk_Session c (session_inst_addr s) (session_inst_name s)
    (session_is_closed s) (session_auth_caps s) (preopen_out_queue s).

Definition with_preopen_out_queue (q : list nat) (s : Session) : Session :=
  mk_Session (session_connection s) (session_inst_addr s)
    (session_inst_name s) (session_is_closed s) (session_auth_caps s) q.

Definition with_session_inst (addr : Z) (n : Z * Z) (s : Session) : Session :=
  mk_Session (session_connection s) addr n (session_is_closed s)
    (session_auth_caps s) (preopen_out_queue s).

Definition with_auth_caps_call (c : caps_call) (s : Session) : Session :=
  mk_Session (session_connection s) (session_inst_addr s)
    (session_inst_name s) (session_is_closed s) (session_auth_caps s ++ [c])
    (preopen_out_queue s).

(** The outcome of a callback is its return value, the store and the calls
    made. *)

Definition ms_handle_reset (d : MDS) (con : nat) (net : Net)
  : option (bool * Net * list net_call) :=
  c ← connections net !! con;
  if negb (con_peer_type c =? CEPH_ENTITY_TYPE_CLIENT) then
    Some (false, net, [])
  else if stopping d then Some (false, net, [])
  else if want_state d =? STATE_DNE then Some (false, net, [])
  else
    match con_get_priv c with
    | Some sid =>
        session ← sessions net !! sid;
        if session_is_closed session then
          Some (false, set_priv con None net, [ConMarkDown con; SessionPut sid])
        else Some (false, net, [SessionPut sid])
    | None => Some (false, net, [ConMarkDown con])
    end.

Definition ms_handle_remote_reset (d : MDS) (con : nat) (net : Net)
  : option (unit * Net * list net_call) :=
  c ← connections net !! con;
  if negb (con_peer_type c =? CEPH_ENTITY_TYPE_CLIENT) then Some (tt, net, [])
  else if stopping d then Some (tt, net, [])
  else if want_state d =? STATE_DNE then Some (tt, net, [])
  else
    match con_get_priv c with
    | Some sid =>
        session ← sessions net !! sid;
        if session_is_closed session then
          Some (tt, set_priv con None net, [ConMarkDown con; SessionPut sid])
        else Some (tt, net, [SessionPut sid])
    | None => Some (tt, net, [])
    end.

(** What an authorize handler's [verify_authorizer] finds: whether the
    authorizer is valid, the peer's global id, and the [AuthCapsInfo]
    ([allow_all], and the capability string that [::decode] reads from
    [caps], [None] when it throws [buffer::error]). *)
Record verdict : Type := mk_verdict {
  v_is_valid : bool;
  v_global_id : Z;
  v_allow_all : bool;
  v_auth_cap_str : option string
}.

(** The two registries of authorize handlers, by protocol; a handler is
    what it makes of the authorizer data. *)
Record AuthRegistries : Type := mk_AuthRegistries {
  authorize_handler_cluster_registry : Z -> option (string -> verdict);
  authorize_handler_service_registry : Z -> option (string -> verdict)
}.

(** Returns the return value together with [is_valid], when it has been
    written.  [new_session] is the session that [new Session] makes. *)
Definition ms_verify_authorizer (d : MDS) (reg : AuthRegistries)
    (new_session : Session) (con : nat) (peer_type protocol : Z)
    (authorizer_data : string) (net : Net)
  : option ((bool * option bool) * Net * list net_call) :=
  if stopping d then Some ((false, None), net, [])
  else if want_state d =? STATE_DNE then Some ((false, None), net, [])
  else
    let authorize_handler :=
      if peer_type =? CEPH_ENTITY_TYPE_MDS
      then authorize_handler_cluster_registry reg protocol
      else authorize_handler_service_registry reg protocol in
    match authorize_handler with
    | None => Some ((true, Some false), net, [])
    | Some handler =>
        let v := handler authorizer_data in
        if v_is_valid v then
          c ← connections net !! con;
          let n := (con_peer_type c, v_global_id v) in
          '(sid, net1, calls) ←
            match sessionmap net !! n with
            | None =>
                let sid := fresh (dom (sessions net)) in
                let s := with_session_connection (Some con)
                           (with_session_inst (con_peer_addr c) n
                              new_session) in
                Some (sid,
                      set_priv con (Some sid)
                        (mk_Net (connections net)
                           (<[sid := s]> (sessions net)) (sessionmap net)),
                      [])
            | Some sid =>
                _ ← sessions net !! sid;
                Some (sid, set_priv con (Some sid) net, [SessionGet sid])
            end;
          let net2 :=
            if v_allow_all v
            then update_session sid (with_auth_caps_call SetAllowAll) net1
            else net1 in
          let net3 :=
            match v_auth_cap_str v with
            | Some str =>
                update_session sid (with_auth_caps_call (ParseCaps str)) net2
            | None => net2
            end in
          Some ((true, Some true), net3, calls)
        else Some ((true, Some false), net, [])
    end.

(** "send out any queued messages": the loop sends the front of the queue
    and pops it until the queue is empty.  Returns what is left of the
    queue and the calls. *)
Fixpoint send_preopen_out_queue (con : nat) (q : list nat)
  : list nat * list net_call :=
  match q with
  | [] => ([], [])
  | msg :: q' =>
      let '(rest, calls) := send_preopen_out_queue con q' in
      (rest, ConSendMessage con msg :: calls)
  end.

Definition ms_handle_accept (d : MDS) (con : nat) (net : Net)
  : option (unit * Net * list net_call) :=
  if stopping d then Some (tt, net, [])
  else
    c ← connections net !! con;
    match con_get_priv c with
    | Some sid =>
        s ← sessions net !! sid;
        if bool_decide (session_connection s ≠ Some con) then
          let '(rest, calls) :=
            send_preopen_out_queue con (preopen_out_queue s) in
          Some (tt,
                update_session sid
                  (fun s => with_preopen_out_queue rest
                              (with_session_connection (Some con) s)) net,
                calls ++ [SessionPut sid])
        else Some (tt, net, [SessionPut sid])
    | None => Some (tt, net, [])
    end.

(** ** The admin commands on directories

    What the commands see of the cache: a directory fragment with what
    [is_auth()] answers and how [dirfrag()] and [authority()] print; an
    inode with its number and its fragments; the inode that
    [cache_traverse] finds for a path; what [frag_t::parse] makes of a
    string; how an inode number and a fragment print. *)

(** A [frag_t]: its value and its bits. *)
Definition frag_t : Type := Z * Z.

(** [frag_t()] *)
Definition root_frag : frag_t := (0, 0).

Record CDir : Type := mk_CDir {
  is_auth : bool;
  dirfrag_text : string;
  authority_text : string
}.

Record CInode : Type := mk_CInode {
  ino : Z;
  get_dirfrag : frag_t -> option CDir
}.

Record cache_view : Type := mk_cache_view {
  cache_traverse : string -> option CInode;
  frag_parse : string -> option frag_t;
  hex : Z -> string;
  frag_text : frag_t -> string
}.

(** The calls into the cache and the migrator. *)
Inductive cache_call : Type :=
| SplitDir (dir : CDir) (bits : Z)
| MergeDir (inode : CInode) (fg : frag_t)
| MigratorExportDir (dir : CDir) (target : Z).

(** Returns the directory, or the text written to [ss] when the result is
    [NULL]. *)
Definition _command_dirfrag_get (v : cache_view)
    (cmdmap : gmap string cmd_val) : string + CDir :=
  match cmd_getval_str cmdmap "path" with
  | None => inl "missing path argument"
  | Some path =>
      match cmd_getval_str cmdmap "frag" with
      | None => inl "missing frag argument"
      | Some frag_str =>
          match cache_traverse v path with
          | None => inl ("directory '" +:+ path +:+ "' inode not in cache")
          | Some inode =>
              match frag_parse v frag_str with
              | None => inl ("frag " +:+ frag_str +:+ " failed to parse")
              | Some fg =>
                  match get_dirfrag inode fg with
                  | None =>
                      inl ("frag 0x" +:+ hex v (ino inode) +:+ "/"
                           +:+ frag_text v fg
                           +:+ " not in cache (use `dirfrag ls` to see if it should exist)")
                  | Some dir =>
                      if negb (is_auth dir) then
                        inl ("frag " +:+ dirfrag_text dir
                             +:+ " not auth (auth = " +:+ authority_text dir
                             +:+ ")")
                      else inr dir
                  end
              end
          end
      end
  end.

(** The two commands return their result, the text written to [ss] and
    the calls made. *)
Definition command_dirfrag_split (v : cache_view)
    (cmdmap : gmap string cmd_val) : bool * string * list cache_call :=
  match cmd_getval_int cmdmap "bits" with
  | None => (false, "missing bits argument", [])
  | Some bits =>
      if bits <=? 0 then (false, "must split by >0 bits", [])
      else
        match _command_dirfrag_get v cmdmap with
        | inl text => (false, text, [])
        | inr dir => (true, "", [SplitDir dir bits])
        end
  end.

Definition command_dirfrag_merge (v : cache_view)
    (cmdmap : gmap string cmd_val) : bool * string * list cache_call :=
  match cmd_getval_str cmdmap "path" with
  | None => (false, "missing path argument", [])
  | Some path =>
      match cmd_getval_str cmdmap "frag" with
      | None => (false, "missing frag argument", [])
      | Some frag_str =>
          match cache_traverse v path with
          | None =>
              (false, "directory '" +:+ path +:+ "' inode not in cache", [])
          | Some inode =>
              match frag_parse v frag_str with
              | None => (false, "frag " +:+ frag_str +:+ " failed to parse", [])
              | Some fg => (true, "", [MergeDir inode fg])
              end
          end
      end
  end.

(** [mdsmap->is_up] and [mdsmap->is_in] for a rank. *)
Record rank_view : Type := mk_rank_view {
  is_up : Z -> bool;
  is_in : Z -> bool
}.

(** Returns the return code and the calls made. *)
Definition _command_export_dir (d : MDS) (rv : rank_view) (v : cache_view)
    (path : string) (target : Z) : Z * list cache_call :=
  if (target =? whoami d) || negb (is_up rv target)
     || negb (is_in rv target)
  then (- ENOENT, [])
  else
    match cache_traverse v path with
    | None => (- ENOENT, [])
    | Some inode =>
        match get_dirfrag inode root_frag with
        | None => (- EINVAL, [])
        | Some dir =>
            if negb (is_auth dir) then (- EINVAL, [])
            else (0, [MigratorExportDir dir target])
        end
    end.

(** ** Configuration changes *)

Definition get_tracked_conf_keys : list string :=
  ["mds_op_complaint_time"; "mds_op_log_threshold";
   "mds_op_history_size"; "mds_op_history_duration";
   "clog_to_monitors"; "clog_to_syslog"; "clog_to_syslog_facility";
   "clog_to_syslog_level"].

(** The four values of [md_config_t] that [handle_conf_change] hands on. *)
Record md_config_t : Type := mk_md_config_t {
  mds_op_complaint_time : Z;
  mds_op_log_threshold : Z;
  mds_op_history_size : Z;
  mds_op_history_duration : Z
}.

Inductive conf_call : Type :=
| SetComplaintAndThreshold (time threshold : Z)
| SetHistorySizeAndDuration (size duration : Z)
| ClogUpdateConfig.

(** [parsed] says that [parse_log_client_options] returned 0. *)
Definition update_log_config (parsed : bool) : list conf_call :=
  if parsed then [ClogUpdateConfig] else [].

Definition handle_conf_change (conf : md_config_t) (changed : gset string)
    (parsed : bool) : list conf_call :=
  (if bool_decide ("mds_op_complaint_time" ∈ changed)
      || bool_decide ("mds_op_log_threshold" ∈ changed)
   then [SetComplaintAndThreshold (mds_op_complaint_time conf)
           (mds_op_log_threshold conf)]
   else [])
  ++ (if bool_decide ("mds_op_history_size" ∈ changed)
         || bool_decide ("mds_op_history_duration" ∈ changed)
      then [SetHistorySizeAndDuration (mds_op_history_size conf)
              (mds_op_history_duration conf)]
      else [])
  ++ (if bool_decide ("clog_to_monitors" ∈ changed)
         || bool_decide ("clog_to_syslog" ∈ changed)
         || bool_decide ("clog_to_syslog_level" ∈ changed)
         || bool_decide ("clog_to_syslog_facility" ∈ changed)
      then update_log_config parsed
      else []).

(** ** Start-up

    [init] talks to more of the daemon than the controller does later:
    its calls are the controller's effects and the calls of start-up. *)

Inductive call : Type :=
| Core (e : event)
| Conf (c : conf_call)
| ObjecterInit
| AddDispatcherTail (dispatcher : string)
| MoncSetMessenger
| MoncSetWantKeys (keys : Z)
| MoncInit
| FinisherStart
| MoncSetLogClient
| MoncAuthenticate
| MoncWaitAuthRotating (timeout : Z)
| ObjecterStart
| MoncSubWant (what : string)
| MoncRenewSubs
| ObjecterWaitForOsdMap
| TimerInit
| ConfSetValOrDie (key value : string)
| ConfApplyChanges
| BeaconInit (want_state standby_for_rank : Z) (standby_for_name : string)
| ProgressThreadCreate
| CreateLogger
| ConfAddObserver.

(** An outcome of start-up: [init] returns, or ends in [respawn], or stops
    at a failed assertion, or is still in one of its wait loops when what
    is known of the monitor and of the OSDs ends. *)
Inductive outcome (A : Type) : Type :=
| Done (a : A) (s : MDS) (t : list call)
| Gone (s : MDS) (t : list call)
| Failed (s : MDS) (t : list call)
| Waiting (s : MDS) (t : list call).
Arguments Done {A} a s t.
Arguments Gone {A} s t.
Arguments Failed {A} s t.
Arguments Waiting {A} s t.

(** The calls of an outcome, and the outcome that comes after the calls
    [t0]. *)
Definition calls {A} (r : outcome A) : list call :=
  match r with Done _ _ t | Gone _ t | Failed _ t | Waiting _ t => t end.

(** The state in which start-up ends, or stands. *)
Definition last_state_of {A} (r : outcome A) : MDS :=
  match r with Done _ s _ | Gone s _ | Failed s _ | Waiting s _ => s end.

Definition later {A} (t0 : list call) (r : outcome A) : outcome A :=
  match r with
  | Done a s t => Done a s (t0 ++ t)
  | Gone s t => Gone s (t0 ++ t)
  | Failed s t => Failed s (t0 ++ t)
  | Waiting s t => Waiting s (t0 ++ t)
  end.

(** Start-up as a computation on the controller's state, with its own
    sequencing. *)
Definition Boot (A : Type) : Type := MDS -> outcome A.

#[export] Instance Boot_ret : MRet Boot := fun A a s => Done a s [].

#[export] Instance Boot_bind : MBind Boot := fun A C f m s =>
  match m s with
  | Done a s1 t1 => later t1 (f a s1)
  | Gone s1 t1 => Gone s1 t1
  | Failed s1 t1 => Failed s1 t1
  | Waiting s1 t1 => Waiting s1 t1
  end.

(** A piece of the controller run during start-up. *)
Definition lift {A} (m : M A) : Boot A := fun s =>
  match m s with
  | Ret a s1 t1 => Done a s1 (Core <$> t1)
  | Respawned s1 t1 => Gone s1 (Core <$> t1)
  | Asserted s1 t1 => Failed s1 (Core <$> t1)
  end.

(** One call, and several; reading and writing the controller's state;
    a wait loop that has not ended. *)
Definition out (c : call) : Boot unit := fun s => Done tt s [c].

Definition outs (cs : list call) : Boot unit := fun s => Done tt s cs.

Definition get_mds : Boot MDS := fun s => Done s s [].

Definition set_mds (f : MDS -> MDS) : Boot unit := fun s => Done tt (f s) [].

Definition waiting {A} : Boot A := fun s => Waiting s [].

(** [standby_type = v] *)
Definition with_standby_type (v : Z) (s : MDS) : MDS :=
  mkMDS (stopping s) (mdsmap s) (whoami s) (incarnation s) (state s)
    (want_state s) (last_state s) v (peer_mdsmap_epoch s)
    (osd_epoch_barrier s) (waiting_for_mdsmap s) (tick_event s) (hb s)
    (asok_hook s) (admin_socket s) (live_hooks s) (name s)
    (objecter_client_incarnation s) (mdcache_readonly s) (env s).

(** What [init] learns of an OSD map: whether the features of the up OSDs
    include [CEPH_FEATURE_OSD_TMAP2OMAP]. *)
Record osd_view : Type := mk_osd_view {
  has_tmap2omap : bool
}.

(** What [init] meets: the result of [monc->authenticate()], the results
    of the successive [wait_auth_rotating], whether
    [parse_log_client_options] succeeds, the OSD maps seen one after the
    other, the configuration ([mds_standby_replay], [mds_standby_for_rank],
    [mds_standby_for_name]), the three standby constants of [MDSMap], and
    what the other threads do to the controller while [init] waits for the
    OSD map without the lock. *)
Record boot_run : Type := mk_boot_run {
  authenticate : Z;
  auth_rotating : list Z;
  log_options_parsed : bool;
  osd_maps : list osd_view;
  mds_standby_replay : bool;
  mds_standby_for_rank : Z;
  mds_standby_for_name : string;
  MDS_STANDBY_ANY : Z;
  MDS_STANDBY_NAME : Z;
  MDS_MATCHED_ACTIVE : Z;
  meanwhile : M unit
}.

(** [while (monc->wait_auth_rotating(30.0) < 0)] *)
Fixpoint wait_auth_rotating (results : list Z) : Boot unit :=
  match results with
  | [] => waiting
  | r :: results' =>
      out (MoncWaitAuthRotating 30);;
      if r <? 0 then wait_auth_rotating results' else mret tt
  end.

(** "verify that osds support tmap2omap" *)
Fixpoint wait_for_tmap2omap (views : list osd_view) : Boot unit :=
  match views with
  | [] => waiting
  | v :: views' =>
      out (Core ObjecterMaybeRequestMap);;
      out ObjecterWaitForOsdMap;;
      if has_tmap2omap v then mret tt
      else out (Core (Sleep 10));; wait_for_tmap2omap views'
  end.

(** The value of [standby_for_rank] that [init] hands to the beacon. *)
Definition choose_standby_for_rank (b : boot_run) (wanted_state : Z)
    (standby_type : Z) : Z :=
  let standby_for_rank := to_mds_rank_t (mds_standby_for_rank b) in
  if (wanted_state =? STATE_STANDBY_REPLAY) && (standby_for_rank =? -1) then
    if bool_decide (mds_standby_for_name b = "") then MDS_STANDBY_ANY b
    else MDS_STANDBY_NAME b
  else if (standby_type =? STATE_NULL)
          && negb (bool_decide (mds_standby_for_name b = "")) then
    MDS_MATCHED_ACTIVE b
  else standby_for_rank.

(** [init] from "starting beacon" on, with the lock held. *)
Definition start_beacon (wanted_state : Z) (b : boot_run) : Boot Z :=
  let wanted_state :=
    if (wanted_state =? STATE_BOOT) && mds_standby_replay b
    then STATE_STANDBY_REPLAY else wanted_state in
  set_mds (with_want_state wanted_state);;
  (if (wanted_state =? STATE_STANDBY_REPLAY)
      || (wanted_state =? STATE_ONESHOT_REPLAY) then
     out (ConfSetValOrDie "mds_standby_replay" "true");;
     out ConfApplyChanges;;
     (if (wanted_state =? STATE_ONESHOT_REPLAY)
         && (mds_standby_for_rank b =? -1)
         && bool_decide (mds_standby_for_name b = "")
      then lift (suicide false) else mret tt);;
     set_mds (with_want_state STATE_BOOT);;
     set_mds (with_standby_type wanted_state)
   else mret tt);;
  s ← get_mds;
  out (BeaconInit (want_state s)
         (choose_standby_for_rank b wanted_state (standby_type s))
         (mds_standby_for_name b));;
  set_mds (with_whoami MDS_RANK_NONE);;
  out (Core (MessengerSetMyname MDS_RANK_NONE));;
  lift reset_tick;;
  out ProgressThreadCreate;;
  out CreateLogger;;
  lift set_up_admin_socket;;
  out ConfAddObserver;;
  out (Core LockUnlock);;
  mret 0.

(** The calls of [init] from [timer.init()] on. *)
Definition late (c : call) : bool :=
  match c with
  | TimerInit | ConfSetValOrDie _ _ | ConfApplyChanges | BeaconInit _ _ _
  | ProgressThreadCreate | CreateLogger | ConfAddObserver => true
  | _ => false
  end.

(** [init] returns its return code.  The members [standby_for_rank] and
    [standby_for_name] are only handed to the beacon: they show in
    [BeaconInit]. *)
Definition init (wanted_state : Z) (b : boot_run) : Boot Z :=
  out ObjecterInit;;
  out (AddDispatcherTail "objecter");;
  out (AddDispatcherTail "beacon");;
  out (AddDispatcherTail "mds");;
  out MoncSetMessenger;;
  out (MoncSetWantKeys
         (Z.lor (Z.lor CEPH_ENTITY_TYPE_MON CEPH_ENTITY_TYPE_OSD)
            CEPH_ENTITY_TYPE_MDS));;
  out MoncInit;;
  out FinisherStart;;
  out MoncSetLogClient;;
  outs (Conf <$> update_log_config (log_options_parsed b));;
  out MoncAuthenticate;;
  if authenticate b <? 0 then
    out (Core LockLock);;
    lift (suicide false);;
    out (Core LockUnlock);;
    mret (authenticate b)
  else
    wait_auth_rotating (auth_rotating b);;
    out ObjecterStart;;
    out (Core LockLock);;
    s ← get_mds;
    if want_state s =? STATE_DNE then
      out (Core LockUnlock);; mret 0
    else
      out (MoncSubWant "mdsmap");;
      out MoncRenewSubs;;
      out (Core LockUnlock);;
      wait_for_tmap2omap (osd_maps b);;
      lift (meanwhile b);;
      out (Core LockLock);;
      s ← get_mds;
      (if want_state s =? STATE_DNE then lift (suicide false) else mret tt);;
      out TimerInit;;
      start_beacon wanted_state b.

(** The state that [init] wants once [mds_standby_replay] is taken into
    account, and whether it is one of the two replay states. *)
Definition effective_wanted_state (wanted_state : Z) (b : boot_run) : Z :=
  if (wanted_state =? STATE_BOOT) && mds_standby_replay b
  then STATE_STANDBY_REPLAY else wanted_state.

Definition replaying (wanted_state : Z) : bool :=
  (wanted_state =? STATE_STANDBY_REPLAY)
  || (wanted_state =? STATE_ONESHOT_REPLAY).

(** The calls of [init] from [timer.init()] to its return, when it gets
    there with the tick event [ticking] and ends wanting [want] with the
    standby type [standby]. *)
Definition late_calls (b : boot_run) (wanted want standby : Z)
    (ticking : bool) (between : list call) : list call :=
  TimerInit
  :: (if replaying wanted
      then ConfSetValOrDie "mds_standby_replay" "true" :: ConfApplyChanges
           :: between
      else [])
  ++ [BeaconInit want (choose_standby_for_rank b wanted standby)
        (mds_standby_for_name b);
      Core (MessengerSetMyname MDS_RANK_NONE)]
  ++ (if ticking then [Core TimerCancelEvent] else [])
  ++ [Core TimerAddEventAfter; ProgressThreadCreate; CreateLogger;
      ConfAddObserver; Core LockUnlock].

(** ** What the further theorems speak about *)

(** [steady R P m]: from every state [m] returns, in a state related by
    [R] to the one it started from, with effects that all satisfy [P]. *)
Definition steady (R : MDS -> MDS -> Prop) (P : event -> Prop) {A}
    (m : M A) : Prop :=
  forall s, exists a s' t, m s = Ret a s' t /\ R s s' /\ Forall P t.

(** The prefixes that [_handle_command] knows. *)
Definition known_prefixes : list string :=
  ["get_command_descriptions"; "injectargs"; "exit"; "respawn";
   "session kill"; "heap"; "cpu_profiler"].

(** The message came on a connection with a session, whose capabilities
    answer [allow_all] to [allow_all()]. *)
Definition with_session (allow_all : bool) (m : Message) : Prop :=
  exists con, get_connection m = Some con /\ con_priv con = Some allow_all.

(** [m->put()] among the effects. *)
Definition is_put (e : event) : bool :=
  match e with MsgPut => true | _ => false end.

(** How often a run releases the message. *)
Definition puts (t : list event) : nat := length (List.filter is_put t).

(** An effect other than [m->put()]. *)
Definition no_put (e : event) : Prop := e <> MsgPut.

(** The run does not release the message. *)
Definition put_none {A} (r : result A) : Prop := puts (trace r) = 0%nat.

(** The run releases the message at most once, and exactly once when it
    returns. *)
Definition put_once {A} (r : result A) : Prop :=
  (puts (trace r) <= 1)%nat /\ (returns r = true -> puts (trace r) = 1%nat).

(** How often [handle_core_message] releases the message [m] when it
    returns. *)
Definition released (m : Message) : nat :=
  match body m with
  | POSDMap =>
      if filtered_out m (Z.lor CEPH_ENTITY_TYPE_MON CEPH_ENTITY_TYPE_OSD)
      then 1%nat else 0%nat
  | POther _ => 0%nat
  | _ => 1%nat
  end.


(** What an admin command may change: the OSD epoch barrier and the
    read-only flag of the cache. *)
Definition admin_frame (s s' : MDS) : Prop :=
  exists b ro, s' = with_mdcache_readonly ro (with_osd_epoch_barrier b s).

(** [yields Q m]: whenever [m] returns, its value satisfies [Q]. *)
Definition yields {A} (Q : A -> Prop) (m : M A) : Prop :=
  forall s a s' t, m s = Ret a s' t -> Q a.

(** The epoch noted for the peer of rank [r]; 0 when there is none. *)
Definition peer_epoch (s : MDS) (r : Z) : Z :=
  default 0 (peer_mdsmap_epoch s !! r).

(** No peer's noted epoch is lower in [s'] than in [s]. *)
Definition peer_epochs_grow (s s' : MDS) : Prop :=
  forall r, peer_epoch s r <= peer_epoch s' r.

(** The installed map and what "see who i am" derives from it. *)
Definition identity_kept (s s' : MDS) : Prop :=
  mdsmap s' = mdsmap s /\ whoami s' = whoami s /\ state s' = state s
  /\ incarnation s' = incarnation s /\ last_state s' = last_state s.

(** The operations that hand a cluster map to [handle_mds_map]. *)
Definition delivers_map (o : operation) : bool :=
  match o with
  | OpMdsMap _ => true
  | OpDispatch m | OpCoreMessage m =>
      match body m with PMDSMap _ => true | _ => false end
  | _ => false
  end.

(** An effect other than the hand-over of a message to the rank. *)
Definition no_rank_dispatch (e : event) : Prop := e <> HandleRankMessage.

(** The calls of "mark down any failed peers": one [mark_down] for every
    daemon of the old map whose global id the new map does not have, in the
    order of the old map. *)
Definition removed_peers (oldinfo newinfo : list (Z * mds_info_t))
  : list event :=
  (fun p => MessengerMarkDown (info_addr (snd p)))
    <$> List.filter
          (fun p => negb (existsb (fun q => fst q =? fst p) newinfo)) oldinfo.

(** What the handler asks of the monitor when the map lists the daemon as
    standby. *)
Definition standby_request (s : MDS) : list event :=
  BeaconSetWantState STATE_STANDBY
  :: (if standby_type s =? 0 then []
      else [BeaconSetWantState (standby_type s); BeaconSend]).

(** What the fan-out on a state change guarantees about the entry points
    that depend on the state the daemon comes from. *)
Definition fan_out_guard (old : Z) (e : event) : Prop :=
  (e = StoppingStart -> old = STATE_ACTIVE)
  /\ (forall x, e = RecoveryDone x ->
        x = old /\ (x = STATE_CREATING \/ x = STATE_REJOIN)).

(** An effect that is none of the two guarded entry points. *)
Definition no_fan_out (e : event) : Prop :=
  e <> StoppingStart /\ forall x, e <> RecoveryDone x.

(** The lists of contexts that a run hands to [finish_contexts], in
    order. *)
Fixpoint finished (t : list event) : list (list Z) :=
  match t with
  | [] => []
  | FinishContexts ls :: t' => ls :: finished t'
  | _ :: t' => finished t'
  end.

(** The front of the waiters whose epoch is at most [e]. *)
Fixpoint due (e : Z) (w : list (Z * list Z)) : list (Z * list Z) :=
  match w with
  | [] => []
  | (k, ls) :: w' => if k <=? e then (k, ls) :: due e w' else []
  end.

(** What is left of the waiters once the front whose epoch is at most [e]
    is taken off. *)
Fixpoint not_due (e : Z) (w : list (Z * list Z)) : list (Z * list Z) :=
  match w with
  | [] => []
  | (k, ls) :: w' => if k <=? e then not_due e w' else w
  end.

(** The waiters and the installed map are as they were. *)
Definition waiters_kept (s s' : MDS) : Prop :=
  waiting_for_mdsmap s' = waiting_for_mdsmap s /\ mdsmap s' = mdsmap s.

(** An effect that neither notifies of a map change nor finishes
    contexts. *)
Definition calm (e : event) : Prop :=
  e <> NotifyMdsmapChanged /\ forall ls, e <> FinishContexts ls.

(** How [handle_mds_map] leaves the waiters: drained up to the epoch [e]
    at the end of the handler, or as they were. *)
Definition drained_or_kept (e : Z) (s : MDS) (r : result unit) : Prop :=
  (NotifyMdsmapChanged ∈ trace r
   /\ waiting_for_mdsmap (final_state r) = not_due e (waiting_for_mdsmap s)
   /\ finished (trace r) = snd <$> due e (waiting_for_mdsmap s))
  \/ (Forall calm (trace r)
      /\ waiting_for_mdsmap (final_state r) = waiting_for_mdsmap s).

(** The callbacks are live when the latch is clear and the daemon does not
    want to be gone. *)
Definition serving (d : MDS) : Prop :=
  stopping d = false /\ want_state d <> STATE_DNE.

(** The connection [con] is in the store with the session [sid] attached
    to it, which is [s]. *)
Definition attached (net : Net) (con : nat) (c : Con) (sid : nat)
    (s : Session) : Prop :=
  connections net !! con = Some c /\ con_get_priv c = Some sid
  /\ sessions net !! sid = Some s.

(** The calls on [auth_caps] that a verdict leads to. *)
Definition caps_calls (v : verdict) : list caps_call :=
  (if v_allow_all v then [SetAllowAll] else [])
  ++ match v_auth_cap_str v with Some str => [ParseCaps str] | None => [] end.

(** The session with [l] for the calls made on its [auth_caps]. *)
Definition with_auth_caps (l : list caps_call) (s : Session) : Session :=
  mk_Session (session_connection s) (session_inst_addr s)
    (session_inst_name s) (session_is_closed s) l (preopen_out_queue s).

(** The registry that [ms_verify_authorizer] asks for a peer type. *)
Definition registry_for (reg : AuthRegistries) (peer_type : Z)
  : Z -> option (string -> verdict) :=
  if peer_type =? CEPH_ENTITY_TYPE_MDS
  then authorize_handler_cluster_registry reg
  else authorize_handler_service_registry reg.

(** The fragment that the arguments "path" and "frag" of a command name,
    when the inode is in the cache and the fragment string parses. *)
Definition named_frag (v : cache_view) (cmdmap : gmap string cmd_val)
  : option (CInode * frag_t) :=
  path ← cmd_getval_str cmdmap "path";
  frag_str ← cmd_getval_str cmdmap "frag";
  inode ← cache_traverse v path;
  fg ← frag_parse v frag_str;
  Some (inode, fg).

(** The fragment that "dirfrag split" may split, with the number of bits:
    the bits are positive, the named fragment is in the cache and this
    daemon is its authority. *)
Definition splittable (v : cache_view) (cmdmap : gmap string cmd_val)
  : option (CDir * Z) :=
  bits ← cmd_getval_int cmdmap "bits";
  if bits <=? 0 then None
  else
    '(inode, fg) ← named_frag v cmdmap;
    dir ← get_dirfrag inode fg;
    if is_auth dir then Some (dir, bits) else None.

(** None of the calls of the outcome is one of the late calls of
    [init]. *)
Definition quiet {A} (r : outcome A) : Prop :=
  Forall (fun c => late c = false) (calls r).

(** What start-up may do to the identity: the rank is as it was or none,
    the rest is as it was. *)
Definition rank_reset (s s' : MDS) : Prop :=
  mdsmap s' = mdsmap s /\ state s' = state s
  /\ incarnation s' = incarnation s /\ last_state s' = last_state s
  /\ (whoami s' = whoami s \/ whoami s' = MDS_RANK_NONE).

(** [keeps R m]: wherever [m] ends or stands, the state is related by [R]
    to the one it started from. *)
Definition keeps (R : MDS -> MDS -> Prop) {A} (m : Boot A) : Prop :=
  forall s, R s (last_state_of (m s)).

(** ** Further scenarios *)

(** A "respawn" command, a command with an unknown prefix, and a command
    message on a connection whose session does not allow everything. *)
Definition respawn_cmdmap : gmap string cmd_val :=
  {[ "prefix" := CmdStr "respawn" ]}.
Definition unknown_cmdmap : gmap string cmd_val :=
  {[ "prefix" := CmdStr "status" ]}.
Definition restricted_command : Message :=
  {| get_connection :=
       Some {| peer_type := CEPH_ENTITY_TYPE_CLIENT; con_priv := Some false |};
     body := PCommand ["{prefix: exit}"] (inr exit_cmdmap) |}.

(** A message for the rank, of type 0x200. *)
Definition rank_message : Message := from_mon (POther 0x200).

(** A map of epoch 11 that this daemon's feature set cannot write. *)
Definition msg_incompatible : MMDSMap :=
  {| m_source := mon0; m_epoch := 11;
     m_encoded :=
       {| epoch := 11; compat_writeable := false;
          mds_info := [info 4100 "alpha" 0 STATE_ACTIVE];
          tableserver := 0; is_resolving := false; is_rejoining := false;
          down_mds_set := []; up_mds_set := []; stopped_mds_set := [];
          have_inst := fun _ => false; inst_addr := fun _ => 0 |} |}.

(** Scenario for the failed peers: the installed map lists a second daemon
    "beta" with global id 4200 at rank 1, and the map of epoch 11 of
    [msg_active] does not. *)
Definition with_peer_beta : MDS :=
  sample_mds
    (sample_map 10 [info 4100 "alpha" 0 STATE_ACTIVE;
                    info 4200 "beta" 1 STATE_ACTIVE]) 0
    STATE_ACTIVE STATE_ACTIVE.

(** A map of epoch 11 that lists the daemon as standby without a rank. *)
Definition msg_standby : MMDSMap :=
  map_msg mon0 (sample_map 11 [info 4100 "alpha" MDS_RANK_NONE STATE_STANDBY]).

(** The active daemon with two lists of waiters, for the epochs 11 and
    15. *)
Definition with_waiters : MDS :=
  with_waiting_for_mdsmap [(11, [1; 2]); (15, [3])] rank0_active.

(** Scenario for the messenger's callbacks: the client 4242 has the
    session at address 1, with two messages queued for it; the connection
    at address 7 has the session attached, the connection at address 8 has
    none.  The session does not point at a connection yet.  In
    [closed_net] the session is closed. *)
Definition client_session (closed : bool) : Session :=
  {| session_connection := None; session_inst_addr := 900;
     session_inst_name := (CEPH_ENTITY_TYPE_CLIENT, 4242);
     session_is_closed := closed; session_auth_caps := [];
     preopen_out_queue := [31%nat; 32%nat] |}.

Definition client_con (p : option nat) : Con :=
  {| con_peer_type := CEPH_ENTITY_TYPE_CLIENT; con_peer_addr := 900;
     con_get_priv := p |}.

Definition sample_net : Net :=
  {| connections :=
       {[ 7%nat := client_con (Some 1%nat); 8%nat := client_con None ]};
     sessions := {[ 1%nat := client_session false ]};
     sessionmap := {[ (CEPH_ENTITY_TYPE_CLIENT, 4242) := 1%nat ]} |}.

Definition closed_net : Net :=
  {| connections := {[ 7%nat := client_con (Some 1%nat) ]};
     sessions := {[ 1%nat := client_session true ]};
     sessionmap := {[ (CEPH_ENTITY_TYPE_CLIENT, 4242) := 1%nat ]} |}.

(** A service registry with one handler, for protocol 2, that accepts
    every authorizer as the client 4242 with all capabilities. *)
Definition accepting_handler (authorizer_data : string) : verdict :=
  {| v_is_valid := true; v_global_id := 4242; v_allow_all := true;
     v_auth_cap_str := Some "allow *" |}.

Definition sample_registries : AuthRegistries :=
  {| authorize_handler_cluster_registry := fun _ => None;
     authorize_handler_service_registry :=
       fun protocol => if protocol =? 2 then Some accepting_handler
                       else None |}.

(** Scenario for the directory commands: the cache holds the inode 0x1000
    for the path "/a", with its root fragment, for which this daemon is
    the authority; rank 1 is up and in. *)
Definition sample_dir : CDir :=
  {| is_auth := true; dirfrag_text := "0x1000.0*";
     authority_text := "0,-2" |}.

Definition sample_inode : CInode :=
  {| ino := 0x1000;
     get_dirfrag := fun fg => if bool_decide (fg = root_frag)
                              then Some sample_dir else None |}.

Definition sample_cache : cache_view :=
  {| cache_traverse := fun path => if bool_decide (path = "/a")
                                   then Some sample_inode else None;
     frag_parse := fun s => if bool_decide (s = "0/0") then Some root_frag
                            else None;
     hex := fun _ => "1000";
     frag_text := fun _ => "0/0" |}.

Definition split_cmdmap (bits : Z) : gmap string cmd_val :=
  {[ "path" := CmdStr "/a"; "frag" := CmdStr "0/0"; "bits" := CmdInt bits ]}.

Definition sample_ranks : rank_view :=
  {| is_up := fun r => r =? 1; is_in := fun r => r =? 1 |}.

(** Configuration values, as [handle_conf_change] receives them. *)
Definition sample_conf : md_config_t :=
  {| mds_op_complaint_time := 30; mds_op_log_threshold := 5;
     mds_op_history_size := 20; mds_op_history_duration := 600 |}.

(** Scenario for start-up: a daemon that holds no rank yet, has no tick
    scheduled and wants to boot.  The monitor authenticates it (or fails
    with -13), the rotating keys arrive at the second attempt and the
    second OSD map has the feature; nothing else touches the controller in
    the meantime, unless a signal arrives. *)
Definition booting_mds : MDS :=
  with_tick_event false
    (sample_mds (sample_map 0 []) MDS_RANK_NONE STATE_BOOT STATE_BOOT).

Definition sample_boot (r : Z) (replay : bool) (others : M unit) : boot_run :=
  {| authenticate := r; auth_rotating := [-1; 0];
     log_options_parsed := true;
     osd_maps := [mk_osd_view false; mk_osd_view true];
     mds_standby_replay := replay; mds_standby_for_rank := -1;
     mds_standby_for_name := "";
     MDS_STANDBY_ANY := -2; MDS_STANDBY_NAME := -3;
     MDS_MATCHED_ACTIVE := -4; meanwhile := others |}.

(** * Reasoning about runs *)

Lemma bind_unfold {A B} (m : M A) (f : A -> M B) s :
  (m ≫= f) s = match m s with
               | Ret a s1 t1 => after t1 (f a s1)
               | Respawned s1 t1 => Respawned s1 t1
               | Asserted s1 t1 => Asserted s1 t1
               end.
Proof. reflexivity. Qed.

Lemma final_state_after {A} t (r : result A) :
  final_state (after t r) = final_state r.
Proof. by destruct r. Qed.

Lemma trace_after {A} t (r : result A) : trace (after t r) = t ++ trace r.
Proof. by destruct r. Qed.

Lemma returns_after {A} t (r : result A) : returns (after t r) = returns r.
Proof. by destruct r. Qed.

Lemma after_nil {A} (r : result A) : after [] r = r.
Proof. by destruct r. Qed.

Lemma after_after {A} t1 t2 (r : result A) :
  after t1 (after t2 r) = after (t1 ++ t2) r.
Proof. destruct r; simpl; by rewrite app_assoc. Qed.

(** ** Properties kept along every path *)
Section Always.
Variable R : MDS -> MDS -> Prop.
Variable P : event -> Prop.
Hypothesis R_refl : forall s, R s s.
Hypothesis R_trans : forall a b c, R a b -> R b c -> R a c.

Local Abbreviation always := (always R P).

Lemma always_ret {A} (a : A) : always (mret a).
Proof using R_refl. intros s. split; [apply R_refl | constructor]. Qed.

Lemma always_get : always get.
Proof using R_refl. intros s. split; [apply R_refl | constructor]. Qed.

Lemma always_emit e : P e -> always (emit e).
Proof using R_refl.
  intros He s. split; [apply R_refl | by repeat constructor].
Qed.

Lemma always_modify f : (forall s, R s (f s)) -> always (modify f).
Proof. intros Hf s. split; [apply Hf | constructor]. Qed.

Lemma always_assert b : always (c_assert b).
Proof using R_refl.
  intros s. unfold c_assert.
  destruct b; (split; [apply R_refl | constructor]).
Qed.

Lemma always_respawn {A} : P Execv -> always (@respawn A).
Proof using R_refl.
  intros He s. split; [apply R_refl | by repeat constructor].
Qed.

Lemma always_bind {A B} (m : M A) (f : A -> M B) :
  always m -> (forall a, always (f a)) -> always (m ≫= f).
Proof using R_trans.
  intros Hm Hf s. rewrite bind_unfold. destruct (Hm s) as [H1 H2].
  destruct (m s) as [a s1 t1| |]; simpl in *; try done.
  destruct (Hf a s1) as [H3 H4].
  rewrite final_state_after, trace_after. split.
  - by eapply R_trans.
  - by apply Forall_app.
Qed.

Lemma always_when b m : always m -> always (when b m).
Proof using R_refl. intros Hm. destruct b; [done | apply always_ret]. Qed.

Lemma always_for_each {A} (l : list A) f :
  (forall x, always (f x)) -> always (for_each l f).
Proof using R_refl R_trans.
  intros Hf. induction l as [|x l IH]; simpl.
  - apply always_ret.
  - apply always_bind; [apply Hf | intros _; apply IH].
Qed.

Lemma always_drain_waiters e w :
  (forall w' s, R s (with_waiting_for_mdsmap w' s)) ->
  (forall ls, P (FinishContexts ls)) ->
  always (drain_waiters e w).
Proof using R_refl R_trans.
  intros Hw Hp. induction w as [|[k ls] w IH]; simpl.
  - apply always_ret.
  - destruct (k <=? e); [|apply always_ret].
    apply always_bind; [by apply always_modify |]. intros _.
    apply always_bind; [by apply always_emit |]. intros _. apply IH.
Qed.
End Always.

Create HintDb mds discriminated.
#[export] Hint Unfold
  set_want_state request_state heartbeat_reset set_osd_epoch_barrier
  register_command unregister_command new_hook delete_hook register_checked
  set_up_admin_socket clean_up_admin_socket suicide handle_signal damaged
  reset_tick check_ops_in_flight tick
  note_source_epoch see_who_i_am handle_mds_recovery handle_mds_failure
  rank_none_case state_change peer_events process_rank process_map
  identify_and_process handle_mds_map complete _handle_command
  handle_command _handle_command_legacy handle_command_mon
  handle_core_message handle_rank_message ms_dispatch
  unlock_and_return _command_flush_journal command_flush_journal finish
  asok_command run_op : mds.

(** One step of a proof of [always R P m], by the shape of [m]; [side]
    settles what [R] and [P] ask of a state update or an effect. *)
Ltac always_step side :=
  lazymatch goal with
  | |- always _ _ (mret _) => apply always_ret; side
  | |- always _ _ get => apply always_get; side
  | |- always _ _ (emit _) => apply always_emit; side
  | |- always _ _ (modify _) => apply always_modify; side
  | |- always _ _ (c_assert _) => apply always_assert; side
  | |- always _ _ respawn => apply always_respawn; side
  | |- always _ _ (when _ _) => apply always_when; [side|]
  | |- always _ _ (for_each _ _) =>
      apply always_for_each; [side|side|intros]
  | |- always _ _ (drain_waiters _ _) => apply always_drain_waiters; side
  | |- always _ _ (_ ≫= _) => apply always_bind; [side| |intros]
  | |- always _ _ (if ?b then _ else _) => destruct b
  | |- always _ _ (match ?x with _ => _ end) => destruct x
  | |- always _ _ _ => progress autounfold with mds
  end.

Ltac always_go side := repeat (always_step side).

(** ** Computations that only issue effects *)

Lemma effects_only_ret : effects_only (mret tt).
Proof. intros s. by exists []. Qed.

Lemma effects_only_emit e : effects_only (emit e).
Proof. intros s. by exists [e]. Qed.

Lemma effects_only_bind (m k : M unit) :
  effects_only m -> effects_only k -> effects_only (m;; k).
Proof.
  intros Hm Hk s. rewrite bind_unfold.
  destruct (Hm s) as [t1 ->]. destruct (Hk s) as [t2 ->].
  by exists (t1 ++ t2).
Qed.

Lemma effects_only_when b m : effects_only m -> effects_only (when b m).
Proof. intros Hm. destruct b; [done | apply effects_only_ret]. Qed.

Lemma effects_only_for_each {A} (l : list A) f :
  (forall x, effects_only (f x)) -> effects_only (for_each l f).
Proof.
  intros Hf. induction l as [|x l IH]; simpl.
  - apply effects_only_ret.
  - by apply effects_only_bind.
Qed.

Lemma effects_only_get (k : MDS -> M unit) :
  (forall s, effects_only (k s)) -> effects_only (get ≫= k).
Proof.
  intros Hk s. rewrite bind_unfold. simpl. rewrite after_nil. apply Hk.
Qed.

Ltac effects_step :=
  lazymatch goal with
  | |- effects_only (mret tt) => apply effects_only_ret
  | |- effects_only (emit _) => apply effects_only_emit
  | |- effects_only (when _ _) => apply effects_only_when
  | |- effects_only (for_each _ _) => apply effects_only_for_each; intros
  | |- effects_only (get ≫= _) => apply effects_only_get; intros
  | |- effects_only (_ ≫= _) => apply effects_only_bind
  | |- effects_only (if ?b then _ else _) => destruct b
  | |- effects_only _ => progress autounfold with mds
  end.

Lemma effects_only_handle_mds_recovery who :
  effects_only (handle_mds_recovery who).
Proof. repeat effects_step. Qed.

Lemma effects_only_handle_mds_failure who :
  effects_only (handle_mds_failure who).
Proof. repeat effects_step. Qed.

(** Running an effects-only computation in front of another. *)
Lemma bind_effects_only {B} (m : M unit) (k : unit -> M B) s :
  effects_only m -> exists t, (m ≫= k) s = after t (k tt s) /\ trace (m s) = t.
Proof.
  intros Hm. rewrite bind_unfold. destruct (Hm s) as [t ->]. by exists t.
Qed.

(** ** Running the first step of a sequence *)

Lemma bind_ret {A B} (a : A) (k : A -> M B) s : (mret a ≫= k) s = k a s.
Proof. rewrite bind_unfold. simpl. apply after_nil. Qed.

Lemma bind_get {B} (k : MDS -> M B) s : (get ≫= k) s = k s s.
Proof. rewrite bind_unfold. simpl. apply after_nil. Qed.

Lemma bind_modify {B} f (k : unit -> M B) s :
  (modify f ≫= k) s = k tt (f s).
Proof. rewrite bind_unfold. simpl. apply after_nil. Qed.

Lemma bind_emit {B} e (k : unit -> M B) s :
  (emit e ≫= k) s = after [e] (k tt s).
Proof. by rewrite bind_unfold. Qed.

Lemma bind_assert_true {B} (k : unit -> M B) s :
  (c_assert true ≫= k) s = k tt s.
Proof. rewrite bind_unfold. simpl. apply after_nil. Qed.

Lemma bind_when_false {B} m (k : unit -> M B) s :
  (when false m ≫= k) s = k tt s.
Proof. apply bind_ret. Qed.

Lemma bind_respawn {A B} (k : A -> M B) s :
  (respawn ≫= k) s = Respawned s [Execv].
Proof. by rewrite bind_unfold. Qed.

Lemma bind_assoc {A B C} (m : M A) (f : A -> M B) (g : B -> M C) s :
  ((m ≫= f) ≫= g) s = (m ≫= (fun a => f a ≫= g)) s.
Proof.
  rewrite !bind_unfold. destruct (m s) as [a s1 t1| |]; try done.
  rewrite bind_unfold. destruct (f a s1) as [b s2 t2| |]; simpl; try done.
  by rewrite after_after.
Qed.

Lemma bind_eq {A B} (m : M A) (f : A -> M B) s a s1 t1 :
  m s = Ret a s1 t1 -> (m ≫= f) s = after t1 (f a s1).
Proof. intros H. by rewrite bind_unfold, H. Qed.

(** * Installing maps: the epoch check *)


Lemma with_peer_mdsmap_epoch_same s :
  with_peer_mdsmap_epoch (peer_mdsmap_epoch s) s = s.
Proof. by destruct s. Qed.

Lemma note_source_epoch_eq m s :
  note_source_epoch m s
  = Ret tt (with_peer_mdsmap_epoch (noted_source m s) s) [].
Proof.
  unfold note_source_epoch, noted_source. rewrite bind_unfold. simpl.
  destruct (is_mds (m_source m)); simpl.
  - by destruct (_ <? _).
  - by rewrite with_peer_mdsmap_epoch_same.
Qed.

Lemma handle_mds_map_discard m s :
  m_epoch m <= epoch (mdsmap s) ->
  handle_mds_map m s
  = Ret tt (with_peer_mdsmap_epoch (noted_source m s) s) [MsgPut].
Proof.
  intros H. unfold handle_mds_map.
  rewrite bind_unfold, note_source_epoch_eq. simpl.
  rewrite bind_unfold. simpl.
  by destruct (Z.leb_spec (m_epoch m) (epoch (mdsmap s))); [|lia].
Qed.


Lemma handle_mds_map_install m s :
  epoch (mdsmap s) < m_epoch m ->
  handle_mds_map m s
  = after [MoncSubGot (epoch (m_encoded m));
           BeaconNotifyMdsmap (epoch (m_encoded m))]
      (((if negb (compat_writeable (m_encoded m))
         then suicide false
         else identify_and_process (mdsmap s) (whoami s) (state s));;
        emit MsgPut;; emit DeleteOldmap) (swapped_in m s)).
Proof.
  intros H. unfold handle_mds_map.
  rewrite bind_unfold, note_source_epoch_eq. simpl. rewrite after_nil.
  rewrite bind_get. simpl.
  destruct (Z.leb_spec (m_epoch m) (epoch (mdsmap s))); [lia|].
  rewrite bind_modify, !bind_emit, after_after. done.
Qed.


Ltac map_kept_side :=
  try solve [ intros; unfold map_kept, not_sub_got in *; simpl in *;
              first [ done | congruence ] ].

Lemma map_kept_suicide fast : always map_kept not_sub_got (suicide fast).
Proof. always_go map_kept_side. Qed.

Lemma map_kept_identify oldmap oldwhoami oldstate :
  always map_kept not_sub_got
    (identify_and_process oldmap oldwhoami oldstate).
Proof. always_go map_kept_side. Qed.

Lemma installed_epochs_app t1 t2 :
  installed_epochs (t1 ++ t2) = installed_epochs t1 ++ installed_epochs t2.
Proof.
  induction t1 as [|e t1 IH]; [done|].
  destruct e; simpl; by rewrite ?IH.
Qed.

Lemma installed_epochs_none t :
  Forall not_sub_got t -> installed_epochs t = [].
Proof.
  induction 1 as [|e t He _ IH]; [done|].
  destruct e; simpl; try done. by destruct (He e).
Qed.


(** One delivery installs nothing, or one map of a larger epoch. *)
Lemma handle_mds_map_step m s :
  consistent m ->
  let r := handle_mds_map m s in
  (installed_epochs (trace r) = []
   /\ epoch (mdsmap (final_state r)) = epoch (mdsmap s))
  \/ (installed_epochs (trace r) = [epoch (mdsmap (final_state r))]
      /\ epoch (mdsmap s) < epoch (mdsmap (final_state r))).
Proof.
  intros Hc r.
  destruct (Z.le_gt_cases (m_epoch m) (epoch (mdsmap s))) as [Hle|Hlt].
  - left. subst r. by rewrite handle_mds_map_discard.
  - right. subst r. rewrite handle_mds_map_install by lia.
    rewrite trace_after, final_state_after.
    set (rest := (_ ≫= _) : M unit).
    assert (Hrest : always map_kept not_sub_got rest).
    { subst rest. apply always_bind; [map_kept_side | |].
      - destruct (negb _);
          [apply map_kept_suicide | apply map_kept_identify].
      - intros _. always_go map_kept_side. }
    destruct (Hrest (swapped_in m s)) as [Hmap Htr].
    unfold map_kept in Hmap. rewrite Hmap. simpl.
    rewrite (installed_epochs_none _ Htr). split; [done|].
    rewrite <- Hc. lia.
Qed.

Lemma deliver_cons m ms s :
  deliver (m :: ms) s
  = match handle_mds_map m s with
    | Ret _ s1 t1 => after t1 (deliver ms s1)
    | Respawned s1 t1 => Respawned s1 t1
    | Asserted s1 t1 => Asserted s1 t1
    end.
Proof. simpl. rewrite bind_unfold. by destruct (handle_mds_map m s). Qed.

Lemma installed_epochs_increasing ms s :
  Forall consistent ms ->
  Sorted Z.lt (epoch (mdsmap s) :: installed_epochs (trace (deliver ms s))).
Proof.
  intros Hms. revert s.
  induction Hms as [|m ms Hm _ IH]; intros s.
  - simpl. by repeat constructor.
  - rewrite deliver_cons.
    pose proof (handle_mds_map_step m s Hm) as Hstep. simpl in Hstep.
    destruct (handle_mds_map m s) as [[] s1 t1|s1 t1|s1 t1]; simpl in *.
    + rewrite trace_after, installed_epochs_app.
      destruct Hstep as [[-> <-]|[-> Hlt]]; simpl; [apply IH|].
      constructor; [apply IH | by constructor].
    + destruct Hstep as [[-> _]|[-> Hlt]]; by repeat constructor.
    + destruct Hstep as [[-> _]|[-> Hlt]]; by repeat constructor.
Qed.


(** Claim C1, as the code has it.  A cluster-map message whose epoch is
    less than or equal to the installed map's epoch is released and leaves
    the whole controller state as it was, except the table of peer epochs
    ([peer_mdsmap_epoch]), which "note source's map version" updates before
    the epoch check (nothing at all changes when the sender is not an MDS);
    and across any sequence of deliveries of consistent messages, the
    installed epochs are strictly increasing, starting above the epoch
    installed at the beginning. *)
Theorem handle_mds_map_epochs (m : MMDSMap) (ms : list MMDSMap) (st : MDS) :
  (m_epoch m <= epoch (mdsmap st) ->
   handle_mds_map m st
   = Ret tt (with_peer_mdsmap_epoch (noted_source m st) st) [MsgPut]
   /\ (is_mds (m_source m) = false ->
       handle_mds_map m st = Ret tt st [MsgPut]))
  /\ (Forall consistent ms ->
      StronglySorted Z.lt
        (epoch (mdsmap st) :: installed_epochs (trace (deliver ms st)))).
Proof.
  split.
  - intros Hle. split.
    + by apply handle_mds_map_discard.
    + intros Hsrc. rewrite handle_mds_map_discard by done.
      unfold noted_source. rewrite Hsrc.
      by rewrite with_peer_mdsmap_epoch_same.
  - intros Hms. apply Sorted_StronglySorted; [intros x y z; lia|].
    by apply installed_epochs_increasing.
Qed.

Lemma handle_mds_map_epochs_witness :
  (handle_mds_map stale_msg rank0_active
   = Ret tt (with_peer_mdsmap_epoch (noted_source stale_msg rank0_active)
               rank0_active) [MsgPut]
   /\ (is_mds (m_source stale_msg) = false ->
       handle_mds_map stale_msg rank0_active = Ret tt rank0_active [MsgPut]))
  /\ StronglySorted Z.lt
       (epoch (mdsmap rank0_active)
        :: installed_epochs (trace (deliver three_maps rank0_active))).
Proof.
  split.
  - apply (handle_mds_map_epochs stale_msg three_maps rank0_active).
    vm_compute. discriminate.
  - apply (handle_mds_map_epochs stale_msg three_maps rank0_active).
    repeat constructor.
Defined.

(** The run of [three_maps] installs epochs 12 and 14 and drops 11. *)
Example three_maps_installed :
  installed_epochs (trace (deliver three_maps rank0_active)) = [12; 14].
Proof. vm_compute. reflexivity. Qed.

(** Claim C1 as stated fails: the stale map of mds.1 is discarded, and yet
    the controller's table of peer epochs has changed. *)
Lemma handle_mds_map_discard_changes_state :
  m_epoch stale_msg <= epoch (mdsmap rank0_active)
  /\ trace (handle_mds_map stale_msg rank0_active) = [MsgPut]
  /\ peer_mdsmap_epoch rank0_active !! 1 = Some 3
  /\ peer_mdsmap_epoch (final_state (handle_mds_map stale_msg rank0_active))
       !! 1 = Some 5
  /\ final_state (handle_mds_map stale_msg rank0_active) <> rank0_active.
Proof.
  assert (H5 : peer_mdsmap_epoch
                 (final_state (handle_mds_map stale_msg rank0_active))
                 !! 1 = Some 5) by (vm_compute; reflexivity).
  split; [vm_compute; discriminate|].
  split; [vm_compute; reflexivity|].
  split; [vm_compute; reflexivity|].
  split; [exact H5|].
  intros Heq. rewrite Heq in H5. vm_compute in H5. discriminate.
Qed.

(** * The rank transition check *)

Lemma see_who_i_am_eq s : see_who_i_am s = Ret tt (identified s) [].
Proof.
  unfold see_who_i_am, identified, map_rank.
  rewrite bind_get, !bind_modify, bind_get. simpl.
  unfold get_state_gid, get_rank_gid.
  destruct (find_info _ _) as [i|]; simpl.
  - by destruct (_ && _).
  - done.
Qed.

(** The outcome of the two checks that follow "see who i am". *)
Lemma identify_and_process_eq oldmap oldwhoami oldstate s :
  identify_and_process oldmap oldwhoami oldstate s
  = if negb (whoami (identified s) =? oldwhoami)
       && negb (oldwhoami =? MDS_RANK_NONE)
    then Respawned (identified s) [Execv]
    else if negb (state_valid (whoami (identified s)) oldstate
                    (state (identified s)))
    then Respawned (identified s) [Execv]
    else process_map oldmap oldwhoami oldstate (identified s).
Proof.
  unfold identify_and_process.
  rewrite (bind_eq _ _ _ _ _ _ (see_who_i_am_eq s)), after_nil.
  rewrite bind_get.
  destruct (negb (whoami _ =? _) && _).
  { unfold when. by rewrite bind_respawn. }
  rewrite bind_when_false.
  destruct (negb (state_valid _ _ _)).
  { unfold when. by rewrite bind_respawn. }
  by rewrite bind_when_false.
Qed.

Ltac rank_kept_side :=
  try solve [ intros; unfold rank_kept in *; simpl in *;
              first [ done | congruence ] ].

Lemma rank_kept_suicide fast :
  always rank_kept (fun _ => True) (suicide fast).
Proof. always_go rank_kept_side. Qed.

Lemma rank_kept_process_map oldmap oldwhoami oldstate :
  always rank_kept (fun _ => True) (process_map oldmap oldwhoami oldstate).
Proof. always_go rank_kept_side. Qed.

(** Claim C2.  When a map is installed and its rank for this daemon is
    computed (the map passes the compatibility check that precedes "see who
    i am"), a daemon that held a rank and finds a different one respawns:
    [execv] is the last thing it does.  And whenever [handle_mds_map]
    returns to its caller, a rank that was held is still the same. *)
Theorem rank_transition_respawns (m : MMDSMap) (st : MDS) :
  whoami st <> MDS_RANK_NONE ->
  (epoch (mdsmap st) < m_epoch m ->
   compat_writeable (m_encoded m) = true ->
   map_rank (m_encoded m) (global_id (env st)) <> whoami st ->
   handle_mds_map m st
   = Respawned (identified (swapped_in m st))
       [MoncSubGot (epoch (m_encoded m));
        BeaconNotifyMdsmap (epoch (m_encoded m)); Execv])
  /\ (returns (handle_mds_map m st) = true ->
      whoami (final_state (handle_mds_map m st)) = whoami st).
Proof.
  intros Hheld. split.
  - intros Hnew Hcompat Hrank.
    rewrite handle_mds_map_install by done. rewrite Hcompat. simpl.
    rewrite bind_unfold, identify_and_process_eq. simpl.
    destruct (Z.eqb_spec (map_rank (m_encoded m) (global_id (env st)))
                (whoami st)); [done|].
    destruct (Z.eqb_spec (whoami st) MDS_RANK_NONE); [done|]. done.
  - destruct (Z.le_gt_cases (m_epoch m) (epoch (mdsmap st))) as [Hle|Hlt].
    { by rewrite handle_mds_map_discard. }
    rewrite handle_mds_map_install by lia.
    rewrite returns_after, final_state_after.
    destruct (compat_writeable (m_encoded m)); simpl.
    + rewrite bind_unfold, identify_and_process_eq. simpl.
      destruct (Z.eqb_spec (map_rank (m_encoded m) (global_id (env st)))
                  (whoami st)) as [Heq|Hne]; simpl.
      2:{ destruct (Z.eqb_spec (whoami st) MDS_RANK_NONE); done. }
      destruct (negb (state_valid _ _ _)); [done|].
      destruct (rank_kept_process_map (mdsmap st) (whoami st) (state st)
                  (identified (swapped_in m st))) as [Hk _].
      destruct (process_map _ _ _ _) as [[] s1 t1| |]; simpl; try done.
      intros _. unfold rank_kept in Hk. simpl in Hk. by rewrite Hk.
    + rewrite bind_unfold.
      destruct (rank_kept_suicide false (swapped_in m st)) as [Hk _].
      destruct (suicide false _) as [[] s1 t1| |]; simpl; done.
Qed.

Lemma rank_transition_respawns_witness :
  handle_mds_map msg_rank1 rank0_active
  = Respawned (identified (swapped_in msg_rank1 rank0_active))
      [MoncSubGot 11; BeaconNotifyMdsmap 11; Execv]
  /\ whoami (final_state (handle_mds_map msg_rank0_stopping rank0_active))
     = 0.
Proof.
  split.
  - apply (rank_transition_respawns msg_rank1 rank0_active);
      vm_compute; congruence.
  - apply (rank_transition_respawns msg_rank0_stopping rank0_active);
      vm_compute; congruence.
Defined.

(** * The state transition check *)

Ltac unfold_states :=
  unfold STATE_NULL, STATE_DNE, STATE_STOPPED, STATE_BOOT, STATE_STANDBY,
    STATE_CREATING, STATE_STARTING, STATE_STANDBY_REPLAY,
    STATE_ONESHOT_REPLAY, STATE_REPLAY, STATE_RESOLVE, STATE_RECONNECT,
    STATE_REJOIN, STATE_CLIENTREPLAY, STATE_ACTIVE, STATE_STOPPING,
    STATE_DAMAGED, MDS_RANK_NONE, MDS_GID_NONE in *.

(** The code's [state_valid] is the case list of the spec. *)
Lemma state_valid_allowed w old new :
  w <> MDS_RANK_NONE -> new <> old ->
  state_valid w old new = true <-> allowed_transition old new.
Proof.
  intros Hw Hne. unfold state_valid.
  destruct (Z.eqb_spec w MDS_RANK_NONE); [done|].
  destruct (Z.eqb_spec new old); [done|]. simpl.
  destruct (Z.eqb_spec old STATE_REPLAY) as [->|Hrep].
  { destruct (Z.eqb_spec new STATE_RESOLVE) as [->|];
      [|destruct (Z.eqb_spec new STATE_RECONNECT) as [->|]]; simpl.
    - split; [intros _; constructor; by left | done].
    - split; [intros _; constructor; by right | done].
    - split; [done|]. inversion 1; subst; unfold_states; lia. }
  destruct (Z.eqb_spec old STATE_REJOIN) as [->|Hrej].
  { destruct (Z.eqb_spec new STATE_ACTIVE) as [->|];
      [|destruct (Z.eqb_spec new STATE_CLIENTREPLAY) as [->|];
        [|destruct (Z.eqb_spec new STATE_STOPPED) as [->|]]]; simpl.
    - split; [intros _; constructor; by left | done].
    - split; [intros _; constructor; right; by left | done].
    - split; [intros _; constructor; right; by right | done].
    - split; [done|]. inversion 1; subst; unfold_states; lia. }
  destruct (Z.leb_spec STATE_RECONNECT old);
    destruct (Z.ltb_spec old STATE_ACTIVE); simpl.
  - destruct (Z.eqb_spec new (old + 1)) as [->|]; simpl.
    + split; [intros _; by apply from_sequence | done].
    + split; [done|]. inversion 1; subst; unfold_states; lia.
  - split; [intros _; apply from_other; [done | lia] | done].
  - split; [intros _; apply from_other; [done | lia] | done].
  - split; [intros _; apply from_other; [done | lia] | done].
Qed.

Lemma always_trace R P {A} (m : M A) s :
  always R P m -> Forall P (trace (m s)).
Proof. intros H. apply H. Qed.

Ltac no_execv_side :=
  try solve [ intros; unfold no_execv in *; simpl in *;
              first [ done | congruence ] ].

Lemma no_execv_suicide fast :
  always (fun _ _ => True) no_execv (suicide fast).
Proof. always_go no_execv_side. Qed.

Lemma no_execv_process_rank oldmap oldwhoami oldstate :
  always (fun _ _ => True) no_execv (process_rank oldmap oldwhoami oldstate).
Proof. always_go no_execv_side. Qed.

(** A daemon that holds a rank does not respawn after the two checks. *)
Lemma process_map_no_execv oldmap oldwhoami oldstate s :
  whoami s <> MDS_RANK_NONE ->
  Forall no_execv (trace (process_map oldmap oldwhoami oldstate s)).
Proof.
  intros Hw. unfold process_map. rewrite bind_get.
  destruct (state s =? STATE_STANDBY);
    [|destruct ((state s =? STATE_STANDBY_REPLAY) && _ && _);
      [|destruct (Z.eqb_spec (whoami s) MDS_RANK_NONE); [done|]]].
  all: eapply (always_trace (fun _ _ => True)); always_go no_execv_side.
Qed.

(** Claim C3.  When the map that is installed leaves the daemon with a rank
    and in another state than before, [handle_mds_map] goes on exactly for
    the transitions of the case list: on every other transition it ends in
    [respawn] right after the map is swapped in, before any entry point of
    the new state has run; on an allowed one (the rank being one the rank
    check lets through) it does not respawn at all. *)
Theorem state_transition_check (m : MMDSMap) (st : MDS) :
  epoch (mdsmap st) < m_epoch m ->
  compat_writeable (m_encoded m) = true ->
  map_rank (m_encoded m) (global_id (env st)) <> MDS_RANK_NONE ->
  get_state_gid (m_encoded m) (global_id (env st)) <> state st ->
  (~ allowed_transition (state st)
       (get_state_gid (m_encoded m) (global_id (env st))) ->
   handle_mds_map m st
   = Respawned (identified (swapped_in m st))
       [MoncSubGot (epoch (m_encoded m));
        BeaconNotifyMdsmap (epoch (m_encoded m)); Execv]
   /\ Forall (fun e => entry_point e = false)
        (trace (handle_mds_map m st)))
  /\ (allowed_transition (state st)
        (get_state_gid (m_encoded m) (global_id (env st))) ->
      whoami st = MDS_RANK_NONE
      \/ map_rank (m_encoded m) (global_id (env st)) = whoami st ->
      Forall no_execv (trace (handle_mds_map m st))).
Proof.
  intros Hnew Hcompat Hrank Hstate.
  pose proof (state_valid_allowed _ _ _ Hrank Hstate) as Hvalid.
  rewrite handle_mds_map_install by done. rewrite Hcompat. simpl.
  rewrite bind_unfold, identify_and_process_eq. simpl in *.
  split.
  - intros Hbad.
    destruct (state_valid _ _ _); [by destruct Hbad; apply Hvalid|].
    simpl. destruct (negb _ && negb _); simpl; by repeat constructor.
  - intros Hok Hheld. apply Hvalid in Hok. rewrite Hok. simpl.
    assert (negb (map_rank (m_encoded m) (global_id (env st)) =? whoami st)
            && negb (whoami st =? MDS_RANK_NONE) = false) as ->.
    { destruct Hheld as [->| ->]; simpl.
      - apply andb_false_r.
      - by rewrite Z.eqb_refl. }
    pose proof (process_map_no_execv (mdsmap st) (whoami st) (state st)
                  (identified (swapped_in m st)) Hrank) as Hpm.
    destruct (process_map _ _ _ _) as [[] s1 t1| |]; simpl in *.
    + repeat constructor; try done.
      apply Forall_app. split; [done|]. by repeat constructor.
    + by repeat constructor.
    + by repeat constructor.
Qed.

Lemma state_transition_check_witness :
  (handle_mds_map msg_active rank0_replay
   = Respawned (identified (swapped_in msg_active rank0_replay))
       [MoncSubGot 11; BeaconNotifyMdsmap 11; Execv]
   /\ Forall (fun e => entry_point e = false)
        (trace (handle_mds_map msg_active rank0_replay)))
  /\ Forall no_execv (trace (handle_mds_map msg_resolve rank0_replay)).
Proof.
  split.
  - apply (state_transition_check msg_active rank0_replay);
      try (vm_compute; congruence).
    inversion 1; subst; vm_compute in *; intuition congruence.
  - apply (state_transition_check msg_resolve rank0_replay);
      try (vm_compute; congruence).
    + apply from_replay. by left.
    + by right.
Defined.

(** Scenario S4: replay to active respawns and [active_start] does not
    run; replay to resolve runs [resolve_start]. *)
Example replay_to_active_respawns :
  trace (handle_mds_map msg_active rank0_replay)
  = [MoncSubGot 11; BeaconNotifyMdsmap 11; Execv].
Proof. vm_compute. reflexivity. Qed.

Example replay_to_resolve_proceeds :
  trace (handle_mds_map msg_resolve rank0_replay)
  = [MoncSubGot 11; BeaconNotifyMdsmap 11; MessengerSetMyname 0;
     BeaconSetWantState STATE_RESOLVE; ResolveStart; TryRebalance;
     NotifyMdsmapChanged; MsgPut; DeleteOldmap].
Proof. vm_compute. reflexivity. Qed.

(** * The terminal shutdown *)

Lemma with_admin_socket_same s : with_admin_socket (admin_socket s) s = s.
Proof. by destruct s. Qed.

Lemma unregister_command_eq c s :
  unregister_command c s
  = Ret (if admin_socket s !! c is Some _ then 0 else - ENOENT)
      (with_admin_socket (delete c (admin_socket s)) s) [].
Proof.
  unfold unregister_command. rewrite bind_get.
  destruct (admin_socket s !! c) eqn:E.
  - by rewrite bind_modify.
  - by rewrite delete_id, with_admin_socket_same.
Qed.

Lemma clean_up_admin_socket_eq s :
  clean_up_admin_socket s = Ret tt (cleaned s) [].
Proof.
  unfold clean_up_admin_socket.
  do 10 (erewrite bind_eq by apply unregister_command_eq;
         rewrite after_nil; simpl admin_socket).
  rewrite bind_get. simpl asok_hook. unfold delete_hook, cleaned.
  destruct (asok_hook s); simpl.
  - rewrite bind_assoc, bind_get, !bind_modify. reflexivity.
  - rewrite bind_ret. unfold modify. simpl. by destruct s.
Qed.

Lemma suicide_eq fast s :
  stopping s = false ->
  suicide fast s = Ret tt (suicided s) (suicide_trace fast s).
Proof.
  intros Hs. unfold suicide, suicided, suicide_trace, set_want_state.
  rewrite bind_get, Hs. simpl negb at 1.
  rewrite bind_assert_true, bind_modify, bind_assoc, bind_modify, bind_emit.
  destruct (negb fast && _), (tick_event s), (objecter_initialized (env s)),
    (hb s); unfold when;
    repeat first [ rewrite bind_emit | rewrite bind_modify
                 | rewrite bind_ret | rewrite bind_assoc
                 | erewrite bind_eq by apply clean_up_admin_socket_eq
                 | rewrite after_nil | rewrite after_after ];
    reflexivity.
Qed.

Lemma suicide_asserts fast s :
  stopping s = true -> suicide fast s = Asserted s [].
Proof.
  intros Hs. unfold suicide. rewrite bind_get, Hs. by rewrite bind_unfold.
Qed.

(** Claim C5.  [suicide] is one-shot.  With the stopping latch clear it
    returns, having set the latch and wanted = dne, and a second [suicide]
    after it stops at the assertion.  With the latch set, [suicide] stops at
    its assertion before it does anything, [handle_signal] returns without
    calling it, [ms_dispatch] drops the message; and no operation on the
    controller clears the latch. *)
Theorem suicide_one_shot (fast again : bool) (o : operation) (m : Message)
    (st : MDS) :
  (stopping st = false ->
   suicide fast st = Ret tt (suicided st) (suicide_trace fast st)
   /\ stopping (suicided st) = true
   /\ want_state (suicided st) = STATE_DNE
   /\ (suicide fast;; suicide again) st
      = Asserted (suicided st) (suicide_trace fast st)
   /\ handle_signal st = suicide false st)
  /\ (stopping st = true ->
      suicide fast st = Asserted st []
      /\ handle_signal st = Ret tt st []
      /\ ms_dispatch m st = Ret false st []
      /\ stopping (final_state (run_op o st)) = true).
Proof.
  split; intros Hs.
  - assert (Hset : stopping (suicided st) = true).
    { unfold suicided. by destruct (hb st), (tick_event st). }
    split; [by apply suicide_eq|]. split; [done|].
    split; [unfold suicided; by destruct (hb st), (tick_event st)|].
    split.
    + erewrite bind_eq by by apply suicide_eq.
      rewrite suicide_asserts by done. simpl. by rewrite app_nil_r.
    + unfold handle_signal. by rewrite bind_get, Hs.
  - split; [by apply suicide_asserts|].
    split; [unfold handle_signal; by rewrite bind_get, Hs|].
    split; [unfold ms_dispatch; by rewrite bind_get, Hs|].
    assert (H : always latch_kept (fun _ => True) (run_op o)).
    { destruct o;
        always_go ltac:(try solve [intros; unfold latch_kept in *;
                                    simpl in *; eauto]). }
    by apply H.
Qed.

Lemma suicide_one_shot_witness :
  (suicide true rank0_active
   = Ret tt (suicided rank0_active) (suicide_trace true rank0_active)
   /\ stopping (suicided rank0_active) = true
   /\ want_state (suicided rank0_active) = STATE_DNE
   /\ (suicide true;; suicide false) rank0_active
      = Asserted (suicided rank0_active) (suicide_trace true rank0_active)
   /\ handle_signal rank0_active = suicide false rank0_active)
  /\ (suicide true dead_mds = Asserted dead_mds []
      /\ handle_signal dead_mds = Ret tt dead_mds []
      /\ ms_dispatch (from_mon PMonMap) dead_mds = Ret false dead_mds []
      /\ stopping (final_state (run_op OpSetUpAdminSocket dead_mds)) = true).
Proof.
  split.
  - by apply (suicide_one_shot true false OpSignal (from_mon PMonMap)
                rank0_active).
  - by apply (suicide_one_shot true false OpSetUpAdminSocket
                (from_mon PMonMap) dead_mds).
Defined.

(** What a non-fast [suicide] of an active daemon does, in order. *)
Example suicide_shutdown_order :
  trace (suicide false rank0_active)
  = [BeaconSetWantState STATE_DNE; BeaconSendAndWait 1; MdlogShutdown;
     FinisherStop; BeaconShutdown; TimerCancelEvent; TimerCancelAllEvents;
     TimerShutdown; MdcacheShutdown; ObjecterShutdown; MoncShutdown;
     OpTrackerOnShutdown; ProgressThreadShutdown; MessengerShutdown;
     HeartbeatRemoveWorker].
Proof. vm_compute. reflexivity. Qed.

(** * The message dispatcher *)

(** Claim C6, as the code has it.  [ms_dispatch] looks at the stopping
    latch first: when it is set the message is dropped by returning
    [false], with no heartbeat reset and without releasing the message.
    Otherwise the heartbeat is reset before anything else, and a message
    that arrives while wanted = dne is released and [true] returned, with
    neither a core handler nor the rank-level dispatcher run. *)
Theorem ms_dispatch_gate (m : Message) (st : MDS) :
  (stopping st = true -> ms_dispatch m st = Ret false st [])
  /\ (stopping st = false ->
      exists t, trace (ms_dispatch m st) = HeartbeatReset :: t)
  /\ (stopping st = false -> want_state st = STATE_DNE ->
      ms_dispatch m st = Ret true st [HeartbeatReset; MsgPut]).
Proof.
  unfold ms_dispatch, heartbeat_reset. rewrite bind_get.
  split; [by intros ->|]. split.
  - intros ->. rewrite bind_emit, trace_after. by eexists.
  - intros -> ->. by rewrite bind_emit.
Qed.

Lemma ms_dispatch_gate_witness :
  ms_dispatch (from_mon PMonMap) dead_mds = Ret false dead_mds []
  /\ (exists t, trace (ms_dispatch (from_mon PMonMap) rank0_active)
                = HeartbeatReset :: t)
  /\ ms_dispatch (from_mon PMonMap)
       (with_want_state STATE_DNE rank0_active)
     = Ret true (with_want_state STATE_DNE rank0_active)
         [HeartbeatReset; MsgPut].
Proof.
  split; [|split].
  - by apply (ms_dispatch_gate (from_mon PMonMap) dead_mds).
  - by apply (ms_dispatch_gate (from_mon PMonMap) rank0_active).
  - by apply (ms_dispatch_gate (from_mon PMonMap)
                (with_want_state STATE_DNE rank0_active)).
Defined.

(** Claim C6 as stated fails: a daemon that has run [suicide] has the
    latch set and wanted = dne; a message dispatched to it causes no
    heartbeat reset and is not released. *)
Lemma ms_dispatch_stopping_skips_heartbeat :
  stopping dead_mds = true
  /\ want_state dead_mds = STATE_DNE
  /\ ms_dispatch (from_mon PMonMap) dead_mds = Ret false dead_mds []
  /\ (HeartbeatReset ∉ trace (ms_dispatch (from_mon PMonMap) dead_mds))
  /\ (MsgPut ∉ trace (ms_dispatch (from_mon PMonMap) dead_mds)).
Proof.
  assert (H : ms_dispatch (from_mon PMonMap) dead_mds = Ret false dead_mds [])
    by (vm_compute; reflexivity).
  rewrite H. simpl. repeat split; try done; by apply not_elem_of_nil.
Qed.

(** Claim C7, as the code has it.  For a monitor map, a cluster membership
    map, a generic monitor command and an object-store map,
    [handle_core_message] checks the sender's entity type against the
    allow-set of the case before it handles the message: a message from a
    peer outside the set is released and nothing else happens.  A command
    message (MSG_COMMAND) has no allow-set: it goes to [handle_command]
    whatever the type of its sender, and what happens does not depend on
    that type. *)
Theorem core_message_allow_sets (m : Message) (peers pt : Z) (st : MDS) :
  (allow_set (body m) = Some peers ->
   filtered_out m peers = true ->
   handle_core_message m st = Ret true st [MsgPut])
  /\ (forall cmd parsed, body m = PCommand cmd parsed ->
      handle_core_message m st
      = (handle_command m cmd parsed;; mret true) st
      /\ handle_core_message (from_peer_type pt m) st
         = handle_core_message m st).
Proof.
  split.
  - intros Hset Hout. unfold handle_core_message. rewrite bind_get.
    destruct (body m); simpl in Hset; try done;
      injection Hset as <-; by rewrite Hout.
  - intros cmd parsed Hb. unfold handle_core_message.
    rewrite !bind_get. simpl. rewrite Hb. split; [done|].
    unfold handle_command. simpl. by destruct (get_connection m).
Qed.

Lemma core_message_allow_sets_witness :
  handle_core_message mon_command_from_osd rank0_active
  = Ret true rank0_active [MsgPut]
  /\ handle_core_message
       (from_peer_type CEPH_ENTITY_TYPE_CLIENT command_from_osd) rank0_active
     = handle_core_message command_from_osd rank0_active.
Proof.
  split.
  - by apply (core_message_allow_sets mon_command_from_osd
                CEPH_ENTITY_TYPE_MON 0 rank0_active).
  - by eapply (core_message_allow_sets command_from_osd 0
                 CEPH_ENTITY_TYPE_CLIENT rank0_active).
Defined.

(** Claim C7 as stated fails for the command message: sent by an OSD, the
    legacy monitor command "exit" is filtered out, while the command
    message "exit" is handled (a reply is sent and the daemon shuts
    down). *)
Lemma command_message_not_filtered :
  handle_core_message mon_command_from_osd rank0_active
  = Ret true rank0_active [MsgPut]
  /\ returns (handle_core_message command_from_osd rank0_active) = true
  /\ take 3 (trace (handle_core_message command_from_osd rank0_active))
     = [SendReply 0 "Exiting..."; Sleep 1; BeaconSetWantState STATE_DNE]
  /\ stopping (final_state
                 (handle_core_message command_from_osd rank0_active))
     = true.
Proof. vm_compute. repeat split; reflexivity. Qed.

(** * The journal flush *)

(** Claim C8.  [_command_flush_journal] returns -EROFS whenever the cache
    is read-only; otherwise, when the daemon is not active, it returns 0
    and does no more than take the lock and give it up; otherwise every
    wait (and [trim_all]) that completes with a non-zero value [r] makes it
    return [r] together with the text "Error r (...) while ...", made of
    the value, of what [cpp_strerror] says of it and of the step that
    failed; the wait on the expiry of the segments is asserted to give 0;
    and it returns 0 with no text when every step succeeds. *)
Theorem flush_journal_results (j : journal_run) (st : MDS) :
  (mdcache_readonly st = true ->
   _command_flush_journal j st
   = Ret (- EROFS, "") st [LockLock; LockUnlock])
  /\ (mdcache_readonly st = false -> is_active st = false ->
      _command_flush_journal j st = Ret (0, "") st [LockLock; LockUnlock])
  /\ (mdcache_readonly st = false -> is_active st = true ->
      (mdlog_flushed j <> 0 ->
       exists t, _command_flush_journal j st
                 = Ret (mdlog_flushed j,
                        "Error " +:+ pretty (mdlog_flushed j) +:+ " ("
                        +:+ cpp_strerror (env st) (mdlog_flushed j)
                        +:+ ") while flushing journal") st t)
      /\ (mdlog_flushed j = 0 -> mdlog_cleared j <> 0 ->
          exists t, _command_flush_journal j st
                    = Ret (mdlog_cleared j,
                           "Error " +:+ pretty (mdlog_cleared j) +:+ " ("
                           +:+ cpp_strerror (env st) (mdlog_cleared j)
                           +:+ ") while flushing journal") st t)
      /\ (mdlog_flushed j = 0 -> mdlog_cleared j = 0 -> trim_all j <> 0 ->
          exists t, _command_flush_journal j st
                    = Ret (trim_all j,
                           "Error " +:+ pretty (trim_all j) +:+ " ("
                           +:+ cpp_strerror (env st) (trim_all j)
                           +:+ ") while trimming log") st t)
      /\ (mdlog_flushed j = 0 -> mdlog_cleared j = 0 -> trim_all j = 0 ->
          expiring_segments j <> 0%nat -> expiry j <> 0 ->
          exists t, _command_flush_journal j st = Asserted st t)
      /\ (mdlog_flushed j = 0 -> mdlog_cleared j = 0 -> trim_all j = 0 ->
          expiring_segments j = 0%nat \/ expiry j = 0 ->
          (wrote_head j <> 0 ->
           exists t, _command_flush_journal j st
                     = Ret (wrote_head j,
                            "Error " +:+ pretty (wrote_head j) +:+ " ("
                            +:+ cpp_strerror (env st) (wrote_head j)
                            +:+ ") while writing header") st t)
          /\ (wrote_head j = 0 ->
              exists t, _command_flush_journal j st = Ret (0, "") st t))).
Proof.
  unfold _command_flush_journal, unlock_and_return.
  rewrite bind_emit, bind_get.
  split; [by intros ->|]. split; [by intros -> ->|].
  intros -> ->. cbn [negb]. rewrite !bind_emit, !after_after.
  split; [|split; [|split; [|split]]].
  - intros H. destruct (Z.eqb_spec (mdlog_flushed j) 0); [done|].
    by eexists.
  - intros H0 H. destruct (Z.eqb_spec (mdlog_flushed j) 0); [|done].
    cbn [negb]. rewrite !bind_emit, !after_after.
    destruct (Z.eqb_spec (mdlog_cleared j) 0); [done|]. by eexists.
  - intros H0 H1 H2.
    destruct (Z.eqb_spec (mdlog_flushed j) 0); [|done].
    cbn [negb]. rewrite !bind_emit, !after_after.
    destruct (Z.eqb_spec (mdlog_cleared j) 0); [|done].
    cbn [negb]. rewrite !bind_emit, !after_after.
    destruct (Z.eqb_spec (trim_all j) 0); [done|]. by eexists.
  - intros H0 H1 H2 Hn He.
    destruct (Z.eqb_spec (mdlog_flushed j) 0); [|done].
    cbn [negb]. rewrite !bind_emit, !after_after.
    destruct (Z.eqb_spec (mdlog_cleared j) 0); [|done].
    cbn [negb]. rewrite !bind_emit, !after_after.
    destruct (Z.eqb_spec (trim_all j) 0); [|done].
    cbn [negb]. rewrite !bind_emit, !after_after.
    destruct (Nat.eqb_spec (expiring_segments j) 0); [done|].
    destruct (Z.eqb_spec (expiry j) 0); [done|].
    unfold when. cbn [negb].
    rewrite bind_assoc, bind_emit, bind_assoc, bind_emit.
    rewrite bind_unfold. simpl. by eexists.
  - intros H0 H1 H2 Hexp.
    destruct (Z.eqb_spec (mdlog_flushed j) 0); [|done].
    cbn [negb]. rewrite !bind_emit, !after_after.
    destruct (Z.eqb_spec (mdlog_cleared j) 0); [|done].
    cbn [negb]. rewrite !bind_emit, !after_after.
    destruct (Z.eqb_spec (trim_all j) 0); [|done].
    cbn [negb]. rewrite !bind_emit, !after_after.
    assert (Hw : exists t,
      forall B (k : unit -> M B),
        (when (negb (expiring_segments j =? 0)%nat)
           (emit LockUnlock;; emit LockLock;; c_assert (expiry j =? 0))
         ≫= k) st = after t (k tt st)).
    { destruct (Nat.eqb_spec (expiring_segments j) 0) as [|Hn].
      - exists []. intros. by rewrite bind_when_false, after_nil.
      - destruct Hexp as [|He]; [done|]. rewrite He.
        exists [LockUnlock; LockLock]. intros. unfold when. cbn [negb].
        rewrite bind_assoc, bind_emit, bind_assoc, bind_emit.
        change (0 =? 0) with true.
        by rewrite bind_assert_true, after_after. }
    destruct Hw as [t Hw]. rewrite Hw.
    rewrite !bind_emit, !after_after.
    split; intros H.
    + destruct (Z.eqb_spec (wrote_head j) 0); [done|]. by eexists.
    + destruct (Z.eqb_spec (wrote_head j) 0); [|done]. by eexists.
Qed.

Lemma flush_journal_results_witness :
  (exists t, _command_flush_journal flush_fails_second rank0_active
             = Ret (-5, "Error -5 (error) while flushing journal")
                 rank0_active t)
  /\ (exists t, _command_flush_journal flush_fails_head rank0_active
                = Ret (-28, "Error -28 (error) while writing header")
                    rank0_active t)
  /\ _command_flush_journal flush_ok
       (with_mdcache_readonly true rank0_active)
     = Ret (- EROFS, "") (with_mdcache_readonly true rank0_active)
         [LockLock; LockUnlock]
  /\ _command_flush_journal flush_ok rank0_replay
     = Ret (0, "") rank0_replay [LockLock; LockUnlock].
Proof.
  split; [|split; [|split]].
  - by apply (flush_journal_results flush_fails_second rank0_active).
  - apply (flush_journal_results flush_fails_head rank0_active);
      try done. by right.
  - by apply (flush_journal_results flush_ok
                (with_mdcache_readonly true rank0_active)).
  - by apply (flush_journal_results flush_ok rank0_replay).
Defined.

(** The whole of a flush that succeeds. *)
Example flush_ok_run :
  _command_flush_journal flush_ok rank0_active
  = Ret (0, "") rank0_active
      [LockLock; MdlogStartNewSegment; MdlogFlush; MdlogWaitForSafe;
       LockUnlock; LockLock; MdlogWaitForSafe; LockUnlock; LockLock;
       MdlogTrimAll; WaitForExpiry 2; LockUnlock; LockLock;
       MdlogTrimExpiredSegments; JournalerWriteHead; LockUnlock; LockLock;
       LockUnlock].
Proof. vm_compute. reflexivity. Qed.

(** * The rank-none cases *)



Lemma mark_down_removed (oldinfo newinfo : list (Z * mds_info_t)) s :
  exists t,
    for_each oldinfo (fun p =>
      when (negb (existsb (fun q => fst q =? fst p) newinfo))
        (emit (MessengerMarkDown (info_addr (snd p))))) s = Ret tt s t
    /\ Forall no_execv t.
Proof.
  set (loop := for_each _ _).
  assert (He : effects_only loop) by (subst loop; repeat effects_step).
  assert (Ha : always (fun _ _ => True) no_execv loop)
    by (subst loop; always_go no_execv_side).
  destruct (He s) as [t Ht]. exists t. split; [done|].
  pose proof (always_trace _ _ loop s Ha) as Htr. by rewrite Ht in Htr.
Qed.







(** * The OSD epoch barrier *)

Section Runs.
Variable R : MDS -> MDS -> Prop.
Hypothesis R_refl : forall s, R s s.
Hypothesis R_trans : forall a b c, R a b -> R b c -> R a c.

Local Abbreviation runs := (runs R).

Lemma runs_ret {A} (a : A) : runs (mret a).
Proof using R_refl. intros s. by exists a, s, []. Qed.

Lemma runs_get : runs get.
Proof using R_refl. intros s. by exists s, s, []. Qed.

Lemma runs_emit e : runs (emit e).
Proof using R_refl. intros s. by exists tt, s, [e]. Qed.

Lemma runs_modify f : (forall s, R s (f s)) -> runs (modify f).
Proof. intros Hf s. by exists tt, (f s), []. Qed.

Lemma runs_bind {A B} (m : M A) (f : A -> M B) :
  runs m -> (forall a, runs (f a)) -> runs (m ≫= f).
Proof using R_trans.
  intros Hm Hf s. destruct (Hm s) as (a & s1 & t1 & Hms & H1).
  destruct (Hf a s1) as (b & s2 & t2 & Hfs & H2).
  exists b, s2, (t1 ++ t2). split; [|by eapply R_trans].
  by rewrite (bind_eq _ _ _ _ _ _ Hms), Hfs.
Qed.

Lemma runs_when b m : runs m -> runs (when b m).
Proof using R_refl. intros Hm. destruct b; [done | apply runs_ret]. Qed.

Lemma runs_for_each {A} (l : list A) f :
  (forall x, runs (f x)) -> runs (for_each l f).
Proof using R_refl R_trans.
  intros Hf. induction l as [|x l IH]; simpl.
  - apply runs_ret.
  - by apply runs_bind.
Qed.

Lemma runs_drain_waiters e w :
  (forall w' s, R s (with_waiting_for_mdsmap w' s)) ->
  runs (drain_waiters e w).
Proof using R_refl R_trans.
  intros Hw. induction w as [|[k ls] w IH]; simpl.
  - apply runs_ret.
  - destruct (k <=? e); [|apply runs_ret].
    apply runs_bind; [by apply runs_modify |]. intros _.
    apply runs_bind; [apply runs_emit | done].
Qed.

(** The first step of a sequence, when it is known to return. *)
Lemma runs_step {A B} (m : M A) (k : A -> M B) s :
  runs m ->
  exists a s1 t1, R s s1 /\ (m ≫= k) s = after t1 (k a s1).
Proof.
  intros Hm. destruct (Hm s) as (a & s1 & t1 & Hms & H1).
  exists a, s1, t1. split; [done|]. by apply bind_eq.
Qed.
End Runs.

Ltac runs_step_tac side :=
  lazymatch goal with
  | |- runs _ (mret _) => apply runs_ret; side
  | |- runs _ get => apply runs_get; side
  | |- runs _ (emit _) => apply runs_emit; side
  | |- runs _ (modify _) => apply runs_modify; side
  | |- runs _ (when _ _) => apply runs_when; [side|]
  | |- runs _ (for_each _ _) => apply runs_for_each; [side|side|intros]
  | |- runs _ (drain_waiters _ _) => apply runs_drain_waiters; side
  | |- runs _ (_ ≫= _) => apply runs_bind; [side| |intros]
  | |- runs _ (if ?b then _ else _) => destruct b
  | |- runs _ (handle_mds_recovery _) => unfold handle_mds_recovery
  | |- runs _ (handle_mds_failure _) => unfold handle_mds_failure
  | |- runs _ (set_want_state _) => unfold set_want_state
  end.

Ltac same_identity_side :=
  try solve [ intros; unfold same_identity in *; simpl in *;
              first [ done | intuition congruence ] ].

Ltac runs_go := repeat (runs_step_tac same_identity_side).

(** The end of the handler for a daemon that holds a rank: it returns,
    with the barrier raised to the objecter's map epoch when the daemon is
    active and where it was otherwise. *)
Lemma peer_events_barrier oldmap oldstate s :
  exists s' t,
    peer_events oldmap oldstate s = Ret tt s' t
    /\ state s' = state s
    /\ env s' = env s
    /\ osd_epoch_barrier s'
       = (if is_active s
          then Z.max (osd_epoch_barrier s) (osd_epoch (env s))
          else osd_epoch_barrier s)
    /\ last t = Some NotifyMdsmapChanged.
Proof.
  unfold peer_events. rewrite bind_get. cbv zeta.
  do 8 (match goal with
        | |- context [(?m ≫= ?k) ?s0] =>
            let Hr := fresh "Hr" in
            let He := fresh "He" in
            destruct (runs_step same_identity m k s0)
              as (? & ? & ? & Hr & He);
              [runs_go | rewrite He; clear He]
        end).
  unfold set_osd_epoch_barrier.
  repeat match goal with H : same_identity _ _ |- _ =>
    destruct H as (? & ? & ? & ? & ?) end.
  destruct (is_active s); unfold when.
  - rewrite bind_modify, !after_after. eexists _, _. split; [done|].
    simpl. repeat split; try congruence. by rewrite last_snoc.
  - rewrite bind_ret, !after_after. eexists _, _. split; [done|].
    simpl. repeat split; try congruence. by rewrite last_snoc.
Qed.

Lemma state_change_active oldstate s :
  state s = STATE_ACTIVE -> oldstate <> STATE_STANDBY_REPLAY ->
  exists t,
    state_change oldstate s = Ret tt (with_want_state STATE_ACTIVE s) t
    /\ ActiveStart ∈ t.
Proof.
  intros Hs Ho. unfold state_change, set_want_state.
  rewrite bind_get, bind_assoc, bind_modify, bind_emit.
  destruct (Z.eqb_spec oldstate STATE_STANDBY_REPLAY); [done|].
  unfold is_active. rewrite Hs. change (STATE_ACTIVE =? STATE_ACTIVE) with true.
  cbn [orb andb].
  destruct (_ || _ || _); unfold when.
  - rewrite !bind_emit, ?after_after. eexists. split; [done|].
    simpl. set_solver.
  - rewrite bind_ret, ?after_after. eexists. split; [done|].
    simpl. set_solver.
Qed.

Lemma process_rank_active oldmap oldwhoami oldstate s :
  state s = STATE_ACTIVE -> oldstate <> STATE_STANDBY_REPLAY ->
  exists s' t,
    process_rank oldmap oldwhoami oldstate s = Ret tt s' t
    /\ state s' = STATE_ACTIVE
    /\ osd_epoch_barrier s'
       = Z.max (osd_epoch_barrier s) (osd_epoch (env s))
    /\ (oldstate <> STATE_ACTIVE -> ActiveStart ∈ t).
Proof.
  intros Hs Ho. unfold process_rank. rewrite bind_get.
  do 3 (match goal with
        | |- context [(?m ≫= ?k) ?s0] =>
            let Hr := fresh "Hr" in
            let He := fresh "He" in
            destruct (runs_step same_identity m k s0)
              as (? & ? & ? & Hr & He);
              [runs_go | rewrite He; clear He]
        end).
  repeat match goal with H : same_identity _ _ |- _ =>
    destruct H as (? & ? & ? & ? & ?) end.
  match goal with |- context [peer_events _ _] =>
    match goal with |- context [(when _ _ ≫= _) ?s3] => rename s3 into s3' end
  end.
  assert (Hs3 : state s3' = STATE_ACTIVE) by congruence.
  assert (He3 : env s3' = env s) by congruence.
  assert (Hb3 : osd_epoch_barrier s3' = osd_epoch_barrier s) by congruence.
  destruct (Z.eqb_spec oldstate (state s)) as [Heq|Hne]; cbn [negb].
  - rewrite bind_when_false.
    destruct (peer_events_barrier oldmap oldstate s3')
      as (s' & t & -> & Hst & _ & Hb & _).
    unfold is_active in Hb. rewrite Hs3 in Hb.
    change (STATE_ACTIVE =? STATE_ACTIVE) with true in Hb.
    rewrite !after_after. eexists _, _. split; [done|].
    repeat split; [congruence | congruence | congruence].
  - unfold when.
    destruct (state_change_active oldstate s3' Hs3 Ho) as (t0 & Hsc & Hin).
    rewrite (bind_eq _ _ _ _ _ _ Hsc).
    destruct (peer_events_barrier oldmap oldstate
                (with_want_state STATE_ACTIVE s3'))
      as (s' & t & -> & Hst & _ & Hb & _).
    simpl in Hst, Hb. unfold is_active in Hb. simpl in Hb. rewrite Hs3 in Hb.
    change (STATE_ACTIVE =? STATE_ACTIVE) with true in Hb.
    rewrite !after_after. eexists _, _. split; [done|].
    repeat split; [congruence | congruence |].
    intros _. set_solver.
Qed.

Lemma process_map_active oldmap oldwhoami oldstate s :
  state s = STATE_ACTIVE -> whoami s <> MDS_RANK_NONE ->
  oldstate <> STATE_STANDBY_REPLAY ->
  exists s' t,
    process_map oldmap oldwhoami oldstate s = Ret tt s' t
    /\ state s' = STATE_ACTIVE
    /\ osd_epoch_barrier s'
       = Z.max (osd_epoch_barrier s) (osd_epoch (env s))
    /\ (oldstate <> STATE_ACTIVE -> ActiveStart ∈ t).
Proof.
  intros Hs Hw Ho. unfold process_map. rewrite bind_get.
  destruct (mark_down_removed (mds_info oldmap) (mds_info (mdsmap s)) s)
    as (t0 & Ht0 & _).
  rewrite (bind_eq _ _ _ _ _ _ Ht0).
  rewrite Hs. change (STATE_ACTIVE =? STATE_STANDBY) with false.
  change (STATE_ACTIVE =? STATE_STANDBY_REPLAY) with false.
  cbn [andb]. destruct (Z.eqb_spec (whoami s) MDS_RANK_NONE); [done|].
  set (s1 := if negb (STATE_ACTIVE =? oldstate)
             then with_last_state oldstate s else s).
  assert (H1 : state s1 = STATE_ACTIVE /\ env s1 = env s
               /\ osd_epoch_barrier s1 = osd_epoch_barrier s)
    by (subst s1; by destruct (negb _)).
  destruct H1 as (H1 & H1e & H1b).
  destruct (process_rank_active oldmap oldwhoami oldstate s1 H1 Ho)
    as (s' & t & Hpr & Hst & Hb & Hin).
  exists s', (t0 ++ t). rewrite <- H1e, <- H1b.
  split; [|repeat split; try done; intros; set_solver].
  subst s1. destruct (negb (STATE_ACTIVE =? oldstate)); unfold when.
  - by rewrite bind_modify, Hpr.
  - by rewrite bind_ret, Hpr.
Qed.

Lemma always_final R P {A} (m : M A) s :
  always R P m -> R s (final_state (m s)).
Proof. intros H. apply H. Qed.

Lemma same_identity_state_change oldstate :
  always same_identity (fun _ => True) (state_change oldstate).
Proof. always_go same_identity_side. Qed.

Ltac barrier_side :=
  try solve [ intros; unfold barrier_grows in *; simpl in *; lia ].

(** No operation lowers the barrier. *)
Lemma run_op_barrier o : always barrier_grows (fun _ => True) (run_op o).
Proof. destruct o; always_go barrier_side. Qed.

Lemma run_ops_barrier ops s :
  osd_epoch_barrier s <= osd_epoch_barrier (run_ops ops s).
Proof.
  revert s. induction ops as [|o ops IH]; intros s; simpl; [lia|].
  etrans; [|apply IH].
  apply (always_final _ _ _ s (run_op_barrier o)).
Qed.

(** Claim C4.  The OSD epoch barrier never decreases.  No operation on the
    controller leaves it lower than it found it, so no sequence of
    operations does; in particular the two that write it do not, whatever
    the target epoch and whatever the map.  [osdmap barrier] on a daemon
    that holds a rank leaves the barrier at the higher of its old value
    and the target epoch (as an [epoch_t]); a map that makes or keeps the
    daemon active leaves it at the higher of its old value and the
    objecter's OSD map epoch. *)
Theorem osd_epoch_barrier_never_decreases (o : operation)
    (ops : list operation) (cmdmap : gmap string cmd_val)
    (target_epoch : Z) (j : journal_run) (m : MMDSMap) (st : MDS) :
  osd_epoch_barrier st <= osd_epoch_barrier (final_state (run_op o st))
  /\ osd_epoch_barrier st <= osd_epoch_barrier (run_ops ops st)
  /\ osd_epoch_barrier st
     <= osd_epoch_barrier
          (final_state (asok_command "osdmap barrier" cmdmap j st))
  /\ osd_epoch_barrier st
     <= osd_epoch_barrier (final_state (handle_mds_map m st))
  /\ ((whoami st <? 0) = false ->
      cmd_getval_int cmdmap "target_epoch" = Some target_epoch ->
      exists t,
        asok_command "osdmap barrier" cmdmap j st
        = Ret true
            (with_osd_epoch_barrier
               (Z.max (osd_epoch_barrier st) (to_epoch_t target_epoch)) st)
            t)
  /\ (epoch (mdsmap st) < m_epoch m ->
      compat_writeable (m_encoded m) = true ->
      whoami st = MDS_RANK_NONE
      \/ map_rank (m_encoded m) (global_id (env st)) = whoami st ->
      map_rank (m_encoded m) (global_id (env st)) <> MDS_RANK_NONE ->
      get_state_gid (m_encoded m) (global_id (env st)) = STATE_ACTIVE ->
      state_valid (map_rank (m_encoded m) (global_id (env st))) (state st)
        STATE_ACTIVE = true ->
      state st <> STATE_STANDBY_REPLAY ->
      exists s' t,
        handle_mds_map m st = Ret tt s' t
        /\ state s' = STATE_ACTIVE
        /\ osd_epoch_barrier s'
           = Z.max (osd_epoch_barrier st) (osd_epoch (env st))).
Proof.
  split; [|split; [|split; [|split; [|split]]]].
  - apply (always_final _ _ _ st (run_op_barrier o)).
  - apply run_ops_barrier.
  - assert (H : always barrier_grows (fun _ => True)
                  (asok_command "osdmap barrier" cmdmap j))
      by always_go barrier_side.
    apply H.
  - apply (always_final _ _ _ st (run_op_barrier (OpMdsMap m))).
  - intros Hw Ht. unfold asok_command. rewrite bind_get, Hw, Ht.
    rewrite !bool_decide_eq_false_2 by done.
    rewrite bool_decide_eq_true_2 by done. cbn [orb].
    unfold set_osd_epoch_barrier, finish.
    rewrite bind_emit, bind_modify, !bind_emit, !after_after.
    eexists. split.
  - intros Hnew Hcompat Hheld Hrank Hstate Hvalid Hsr.
    rewrite handle_mds_map_install by done. rewrite Hcompat. cbn [negb].
    rewrite bind_unfold, identify_and_process_eq.
    set (s2 := identified (swapped_in m st)).
    assert (Hs2w : whoami s2 = map_rank (m_encoded m) (global_id (env st)))
      by done.
    assert (Hs2s : state s2 = STATE_ACTIVE) by done.
    assert (Hs2e : env s2 = env st) by done.
    assert (Hs2b : osd_epoch_barrier s2 = osd_epoch_barrier st) by done.
    rewrite Hs2w, Hs2s, Hvalid.
    assert (negb (map_rank (m_encoded m) (global_id (env st)) =? whoami st)
            && negb (whoami st =? MDS_RANK_NONE) = false) as ->.
    { destruct Hheld as [->| ->]; simpl.
      - apply andb_false_r.
      - by rewrite Z.eqb_refl. }
    cbn [negb].
    destruct (process_map_active (mdsmap st) (whoami st) (state st) s2)
      as (s' & t & -> & Hst & Hb & _); [done | by rewrite Hs2w | done |].
    rewrite !bind_emit. simpl. eexists _, _. split; [done|].
    rewrite Hb, Hs2e, Hs2b. done.
Qed.

Lemma osd_epoch_barrier_never_decreases_witness :
  (exists t,
     asok_command "osdmap barrier" barrier_cmdmap flush_ok rank0_active
     = Ret true rank0_active t)
  /\ (exists s' t,
        handle_mds_map msg_active rank0_creating = Ret tt s' t
        /\ state s' = STATE_ACTIVE
        /\ osd_epoch_barrier s' = 30)
  /\ (exists s' t,
        handle_mds_map msg_active (with_osd_epoch_barrier 40 rank0_active)
        = Ret tt s' t
        /\ state s' = STATE_ACTIVE
        /\ osd_epoch_barrier s' = 40).
Proof.
  split; [|split].
  - apply (proj1 (proj2 (proj2 (proj2 (proj2
             (osd_epoch_barrier_never_decreases OpTick [] barrier_cmdmap 5
                flush_ok msg_active rank0_active))))));
      reflexivity.
  - apply (proj2 (proj2 (proj2 (proj2 (proj2
             (osd_epoch_barrier_never_decreases OpTick [] barrier_cmdmap 5
                flush_ok msg_active rank0_creating))))));
      try (vm_compute; congruence).
    by right.
  - apply (proj2 (proj2 (proj2 (proj2 (proj2
             (osd_epoch_barrier_never_decreases OpTick [] barrier_cmdmap 5
                flush_ok msg_active
                (with_osd_epoch_barrier 40 rank0_active)))))));
      try (vm_compute; congruence).
    by right.
Defined.

(** Scenario S1: from creating to active, [active_start] runs and the
    barrier goes from 10 to the objecter's epoch 30. *)
Example boot_to_active :
  trace (handle_mds_map msg_active rank0_creating)
  = [MoncSubGot 11; BeaconNotifyMdsmap 11; MessengerSetMyname 0;
     BeaconSetWantState STATE_ACTIVE; RecoveryDone STATE_CREATING;
     ActiveStart; TryRebalance; NotifyMdsmapChanged; MsgPut; DeleteOldmap]
  /\ osd_epoch_barrier (final_state (handle_mds_map msg_active rank0_creating))
     = 30.
Proof. vm_compute. split; reflexivity. Qed.

(** A target epoch of 5 leaves a barrier of 10 where it is, and a map that
    keeps the daemon active leaves a barrier of 40 above the objecter's
    epoch 30. *)
Example barrier_stays_above :
  osd_epoch_barrier rank0_active = 10
  /\ osd_epoch_barrier
       (final_state (asok_command "osdmap barrier" barrier_cmdmap flush_ok
                       rank0_active)) = 10
  /\ osd_epoch_barrier
       (final_state (handle_mds_map msg_active
                       (with_osd_epoch_barrier 40 rank0_active))) = 40.
Proof. vm_compute. repeat split; reflexivity. Qed.

(** * The admin socket *)

Lemma register_checked_eq c d h hp s :
  admin_socket s !! c = None ->
  register_checked c d h hp s
  = Ret tt (with_admin_socket (<[c := mk_asok_entry d h hp]> (admin_socket s))
              s) [].
Proof.
  intros Hc. unfold register_checked, register_command.
  rewrite bind_assoc, bind_get, Hc, bind_assoc, bind_modify, bind_ret.
  reflexivity.
Qed.

Lemma new_hook_eq s :
  new_hook s
  = Ret (fresh (live_hooks s))
      (with_live_hooks ({[fresh (live_hooks s)]} ∪ live_hooks s) s) [].
Proof. unfold new_hook. by rewrite bind_get, bind_modify. Qed.

Lemma registered_commands_free (a : gmap string asok_entry) :
  (forall c, c ∈ registered_commands -> a !! c = None) ->
  Forall (fun c => a !! c = None) registered_commands.
Proof. intros H. by apply Forall_forall. Qed.

Lemma register_checked_next c d h hp a s :
  a !! c = None ->
  register_checked c d h hp (with_admin_socket a s)
  = Ret tt (with_admin_socket (<[c := mk_asok_entry d h hp]> a) s) [].
Proof. intros Hc. by rewrite register_checked_eq. Qed.

Ltac free_command := rewrite ?lookup_insert_ne by done; assumption.

Lemma set_up_admin_socket_eq s :
  (forall c, c ∈ registered_commands -> admin_socket s !! c = None) ->
  set_up_admin_socket s = Ret tt (set_up s) [].
Proof.
  intros Hfree. apply registered_commands_free in Hfree.
  unfold registered_commands, unregistered_commands, leftover_commands
    in Hfree. simpl app in Hfree.
  repeat match goal with
         | H : Forall _ (_ :: _) |- _ => apply Forall_cons in H as [? H]
         end.
  clear Hfree.
  unfold set_up_admin_socket.
  rewrite (bind_eq _ _ _ _ _ _ (new_hook_eq s)), after_nil, bind_modify.
  set (s0 := with_asok_hook _ _).
  change s0 with (with_admin_socket (admin_socket s) s0).
  do 16 (erewrite bind_eq by (apply register_checked_next; free_command);
         rewrite after_nil).
  rewrite register_checked_next by free_command.
  reflexivity.
Qed.

Lemma elem_of_list_cases {A} (P : A -> Prop) (l : list A) :
  Forall P l -> forall x, x ∈ l -> P x.
Proof. intros H x Hx. rewrite Forall_forall in H. by apply H. Qed.

(** Claim C10.  On an admin socket on which none of the commands of
    [set_up_admin_socket] is taken, [set_up_admin_socket] followed by
    [clean_up_admin_socket] returns and leaves the ten commands that
    [clean_up_admin_socket] names unregistered, every other command of the
    socket as it was, and the seven remaining commands of
    [set_up_admin_socket] registered with the hook that has been deleted
    in between; the controller's own pointer to the hook is null. *)
Theorem admin_socket_leftovers (st : MDS) :
  (forall c, c ∈ registered_commands -> admin_socket st !! c = None) ->
  (set_up_admin_socket;; clean_up_admin_socket) st
  = Ret tt (cleaned (set_up st)) []
  /\ (forall c, c ∈ unregistered_commands ->
      admin_socket (cleaned (set_up st)) !! c = None)
  /\ (forall c, c ∈ leftover_commands ->
      exists e, admin_socket (cleaned (set_up st)) !! c = Some e
                /\ registered (fresh (live_hooks st)) ∅ !! c = Some e
                /\ asok_hook_of e = fresh (live_hooks st))
  /\ (forall c, c ∉ registered_commands ->
      admin_socket (cleaned (set_up st)) !! c = admin_socket st !! c)
  /\ asok_hook (cleaned (set_up st)) = None
  /\ fresh (live_hooks st) ∉ live_hooks (cleaned (set_up st)).
Proof.
  intros Hfree. split; [|split; [|split; [|split; [|split]]]].
  - rewrite (bind_eq _ _ _ _ _ _ (set_up_admin_socket_eq st Hfree)).
    by rewrite clean_up_admin_socket_eq.
  - apply elem_of_list_cases. unfold cleaned, set_up, cleaned_socket.
    cbn [admin_socket with_admin_socket with_asok_hook with_live_hooks].
    repeat constructor;
      by rewrite ?lookup_delete_ne by done; rewrite lookup_delete_eq.
  - apply elem_of_list_cases. unfold cleaned, set_up, cleaned_socket.
    cbn [admin_socket with_admin_socket with_asok_hook with_live_hooks].
    unfold registered.
    repeat constructor;
      (eexists; rewrite !lookup_delete_ne by done;
       rewrite ?lookup_insert_ne by done; rewrite !lookup_insert_eq;
       by repeat split).
  - intros c Hc. unfold cleaned, set_up, cleaned_socket, registered.
    cbn [admin_socket with_admin_socket with_asok_hook with_live_hooks].
    assert (Hne : forall c', c' ∈ registered_commands -> c' <> c)
      by (by intros c' Hc' ->).
    rewrite !lookup_delete_ne
      by (apply Hne; by apply (bool_decide_unpack _)).
    by rewrite !lookup_insert_ne
      by (apply Hne; by apply (bool_decide_unpack _)).
  - done.
  - unfold cleaned, set_up. simpl.
    intros [_ Hn]%elem_of_difference. apply Hn. by apply elem_of_singleton.
Qed.

Lemma admin_socket_leftovers_witness :
  (set_up_admin_socket;; clean_up_admin_socket) rank0_active
  = Ret tt (cleaned (set_up rank0_active)) []
  /\ (forall c, c ∈ unregistered_commands ->
      admin_socket (cleaned (set_up rank0_active)) !! c = None)
  /\ (forall c, c ∈ leftover_commands ->
      exists e, admin_socket (cleaned (set_up rank0_active)) !! c = Some e
                /\ registered (fresh (live_hooks rank0_active)) ∅ !! c
                   = Some e
                /\ asok_hook_of e = fresh (live_hooks rank0_active))
  /\ (forall c, c ∉ registered_commands ->
      admin_socket (cleaned (set_up rank0_active)) !! c
      = admin_socket rank0_active !! c)
  /\ asok_hook (cleaned (set_up rank0_active)) = None
  /\ fresh (live_hooks rank0_active)
     ∉ live_hooks (cleaned (set_up rank0_active)).
Proof.
  apply (admin_socket_leftovers rank0_active).
  intros c _. apply lookup_empty.
Defined.

(** On a fresh socket: which of the seventeen commands are registered
    after the two calls, in the order of [registered_commands]. *)
Example leftover_lookups :
  (fun c =>
     bool_decide
       (is_Some
          (admin_socket
             (final_state
                ((set_up_admin_socket;; clean_up_admin_socket) rank0_active))
             !! c))) <$> registered_commands
  = [false; false; false; false; false; false; false; false; false; false;
     true; true; true; true; true; true; true].
Proof. vm_compute. reflexivity. Qed.

(** * More of the daemon: proofs *)

(** * Running a computation on a state, step by step *)

Lemma bind_when_true {B} m (k : unit -> M B) s :
  (when true m ≫= k) s = (m ≫= k) s.
Proof. reflexivity. Qed.

Lemma bind_assert_false {B} (k : unit -> M B) s :
  (c_assert false ≫= k) s = Asserted s [].
Proof. by rewrite bind_unfold. Qed.

Lemma run_emit e s : emit e s = Ret tt s [e].
Proof. reflexivity. Qed.

Lemma run_modify f s : modify f s = Ret tt (f s) [].
Proof. reflexivity. Qed.

Lemma run_ret {A} (a : A) s : (mret a : M A) s = Ret a s [].
Proof. reflexivity. Qed.

Lemma run_respawn {A} s : @respawn A s = Respawned s [Execv].
Proof. reflexivity. Qed.

Lemma run_when_false m s : when false m s = Ret tt s [].
Proof. reflexivity. Qed.

Lemma run_when_true m s : when true m s = m s.
Proof. reflexivity. Qed.

(** Running a computation whose first effects are known. *)
Lemma bind_eq_after {A B} (m m' : M A) (k : A -> M B) s t :
  m s = after t (m' s) -> (m ≫= k) s = after t ((m' ≫= k) s).
Proof.
  intros H. rewrite !bind_unfold, H.
  destruct (m' s) as [a s1 t1| |]; simpl; try done.
  by rewrite after_after.
Qed.

Lemma after_ret {A} t (a : A) s t' : after t (Ret a s t') = Ret a s (t ++ t').
Proof. reflexivity. Qed.

Lemma after_respawned {A} t s t' :
  after t (@Respawned A s t') = Respawned s (t ++ t').
Proof. reflexivity. Qed.

Lemma after_asserted {A} t s t' :
  after t (@Asserted A s t') = Asserted s (t ++ t').
Proof. reflexivity. Qed.

Ltac fields :=
  cbn [stopping mdsmap whoami incarnation state want_state last_state
       standby_type peer_mdsmap_epoch osd_epoch_barrier waiting_for_mdsmap
       tick_event hb asok_hook admin_socket live_hooks name
       objecter_client_incarnation mdcache_readonly env
       with_stopping with_mdsmap with_whoami with_incarnation with_state
       with_want_state with_last_state with_peer_mdsmap_epoch
       with_osd_epoch_barrier with_waiting_for_mdsmap with_tick_event
       with_hb with_asok_hook with_admin_socket with_live_hooks
       with_objecter_client_incarnation with_mdcache_readonly
       negb andb orb].

Ltac mstep :=
  first
    [ rewrite bind_assoc
    | rewrite bind_get
    | rewrite bind_modify
    | rewrite bind_emit
    | rewrite bind_ret
    | rewrite bind_assert_true
    | rewrite bind_assert_false
    | rewrite bind_when_false
    | rewrite bind_when_true
    | rewrite bind_respawn
    | rewrite after_nil
    | rewrite after_after
    | rewrite run_when_false
    | rewrite run_when_true
    | rewrite run_emit
    | rewrite run_modify
    | rewrite run_ret
    | rewrite run_respawn
    | rewrite after_ret
    | rewrite after_respawned
    | rewrite after_asserted
    | progress fields ].

(** Decides the comparisons between constants in the goal. *)
Ltac eval_tests :=
  repeat match goal with
         | |- context [?a =? ?b] =>
             let v := eval vm_compute in (a =? b) in
             lazymatch v with
             | true => change (a =? b) with true
             | false => change (a =? b) with false
             end
         end;
  cbn [negb andb orb].

Ltac mrun := repeat mstep; rewrite <- ?app_assoc; cbn [app].

(** * Following a property along a run, one definition at a time *)

Ltac unfold_head m :=
  lazymatch m with
  | ?f _ _ _ _ _ => unfold f
  | ?f _ _ _ _ => unfold f
  | ?f _ _ _ => unfold f
  | ?f _ _ => unfold f
  | ?f _ => unfold f
  | ?f => unfold f
  end.

(** Like [always_step], with the lemmas [known] tried first and the
    definitions unfolded one at a time. *)
Ltac always_walk_step known side :=
  first
    [ known
    | lazymatch goal with
      | |- always _ _ (mret _) => apply always_ret; side
      | |- always _ _ get => apply always_get; side
      | |- always _ _ (emit _) => apply always_emit; side
      | |- always _ _ (modify _) => apply always_modify; side
      | |- always _ _ (c_assert _) => apply always_assert; side
      | |- always _ _ respawn => apply always_respawn; side
      | |- always _ _ (when _ _) => apply always_when; [side|]
      | |- always _ _ (for_each _ _) =>
          apply always_for_each; [side|side|intros]
      | |- always _ _ (drain_waiters _ _) => apply always_drain_waiters; side
      | |- always _ _ (_ ≫= _) => apply always_bind; [side| |intros]
      | |- always _ _ (if ?b then _ else _) => destruct b
      | |- always _ _ (match ?x with _ => _ end) => destruct x
      | |- always _ _ ?m => unfold_head m
      end ].

Ltac always_walk known side := repeat (always_walk_step known side).

Section Steady.
Variable R : MDS -> MDS -> Prop.
Variable P : event -> Prop.
Hypothesis R_refl : forall s, R s s.
Hypothesis R_trans : forall a b c, R a b -> R b c -> R a c.

Local Abbreviation steady := (steady R P).

Lemma steady_ret {A} (a : A) : steady (mret a).
Proof using R_refl. intros s. exists a, s, []. by repeat split. Qed.

Lemma steady_get : steady get.
Proof using R_refl. intros s. exists s, s, []. by repeat split. Qed.

Lemma steady_emit e : P e -> steady (emit e).
Proof using R_refl.
  intros He s. exists tt, s, [e]. repeat split; [done|]. by repeat constructor.
Qed.

Lemma steady_modify f : (forall s, R s (f s)) -> steady (modify f).
Proof. intros Hf s. exists tt, (f s), []. by repeat split. Qed.

Lemma steady_bind {A B} (m : M A) (f : A -> M B) :
  steady m -> (forall a, steady (f a)) -> steady (m ≫= f).
Proof using R_trans.
  intros Hm Hf s. destruct (Hm s) as (a & s1 & t1 & Hms & H1 & Hp1).
  destruct (Hf a s1) as (b & s2 & t2 & Hfs & H2 & Hp2).
  exists b, s2, (t1 ++ t2). split; [|split].
  - by rewrite (bind_eq _ _ _ _ _ _ Hms), Hfs.
  - by eapply R_trans.
  - by apply Forall_app.
Qed.

Lemma steady_when b m : steady m -> steady (when b m).
Proof using R_refl. intros Hm. destruct b; [done | apply steady_ret]. Qed.

Lemma steady_for_each {A} (l : list A) f :
  (forall x, steady (f x)) -> steady (for_each l f).
Proof using R_refl R_trans.
  intros Hf. induction l as [|x l IH]; simpl.
  - apply steady_ret.
  - by apply steady_bind.
Qed.

(** The first step of a sequence, when it is steady. *)
Lemma steady_step {A B} (m : M A) (k : A -> M B) s :
  steady m ->
  exists a s1 t1,
    R s s1 /\ Forall P t1 /\ (m ≫= k) s = after t1 (k a s1).
Proof.
  intros Hm. destruct (Hm s) as (a & s1 & t1 & Hms & H1 & Hp).
  exists a, s1, t1. split; [done|]. split; [done|]. by apply bind_eq.
Qed.
End Steady.

Ltac steady_walk_step side :=
  lazymatch goal with
  | |- steady _ _ (mret _) => apply steady_ret; side
  | |- steady _ _ get => apply steady_get; side
  | |- steady _ _ (emit _) => apply steady_emit; side
  | |- steady _ _ (modify _) => apply steady_modify; side
  | |- steady _ _ (when _ _) => apply steady_when; [side|]
  | |- steady _ _ (for_each _ _) => apply steady_for_each; [side|side|intros]
  | |- steady _ _ (_ ≫= _) => apply steady_bind; [side| |intros]
  | |- steady _ _ (if ?b then _ else _) => destruct b
  | |- steady _ _ (handle_mds_recovery _) => unfold handle_mds_recovery
  | |- steady _ _ (handle_mds_failure _) => unfold handle_mds_failure
  | |- steady _ _ (set_want_state _) => unfold set_want_state
  | |- steady _ _ (request_state _) => unfold request_state
  | |- steady _ _ (set_osd_epoch_barrier _) => unfold set_osd_epoch_barrier
  end.

Ltac steady_walk side := repeat (steady_walk_step side).

(** Takes the first step of the sequence in the goal, which is steady for
    [R] and [P]. *)
Ltac take_step R P side :=
  lazymatch goal with
  | |- context [(?m ≫= ?k) ?s0] =>
      let Hr := fresh "Hr" in
      let Hp := fresh "Hp" in
      let He := fresh "He" in
      destruct (steady_step R P m k s0) as (? & ? & ? & Hr & Hp & He);
      [steady_walk side | rewrite He; clear He]
  end.

(** Property X1.  [tick] always returns: it resets the heartbeat, schedules
    the next tick without cancelling anything, and leaves the state as it
    was but for the tick event.  With a laggy beacon it does nothing else;
    the journal is trimmed exactly when the beacon is not laggy and the
    daemon is active or stopping. *)
Theorem tick_reschedules (s : MDS) :
  exists t,
    tick s
    = Ret tt (with_tick_event true s)
        (HeartbeatReset :: TimerAddEventAfter :: t)
    /\ (TimerCancelEvent ∉ t)
    /\ (beacon_is_laggy (env s) = true -> t = [])
    /\ (MdlogTrim ∈ t
        <-> beacon_is_laggy (env s) = false
            /\ (state s = STATE_ACTIVE \/ state s = STATE_STOPPING)).
Proof.
  destruct s as [f1 f2 f3 f4 st f6 f7 f8 f9 f10 f11 f12 f13 f14 f15 f16
                   f17 f18 f19 e].
  unfold tick, reset_tick, check_ops_in_flight, is_active, is_stopping,
    is_clientreplay, is_reconnect, heartbeat_reset.
  mrun.
  destruct (beacon_is_laggy e).
  { mrun. eexists. split; [reflexivity|]. split; [apply not_elem_of_nil|].
    split; [done|]. rewrite elem_of_nil. split; [done|]. by intros []. }
  destruct (logger e).
  all: destruct (Z.eqb_spec st STATE_ACTIVE) as [->|Ha];
   [|destruct (Z.eqb_spec st STATE_STOPPING) as [->|Hs];
     [|destruct (Z.eqb_spec st STATE_CLIENTREPLAY) as [->|Hc];
       [|destruct (Z.eqb_spec st STATE_RECONNECT) as [->|Hr]]]]; mrun.
  all: eexists; (split; [reflexivity|]).
  all: split;
    [intros H; rewrite ?elem_of_cons, ?elem_of_nil in H;
     intuition discriminate|].
  all: split; [done|].
  all: rewrite ?elem_of_cons, ?elem_of_nil.
  all: split;
    [ intros H; intuition (try discriminate; try done)
    | intros [_ H]; intuition (try discriminate; try done) ].
Qed.

Lemma tick_reschedules_witness :
  exists t,
    tick rank0_active
    = Ret tt (with_tick_event true rank0_active)
        (HeartbeatReset :: TimerAddEventAfter :: t)
    /\ MdlogTrim ∈ t.
Proof.
  destruct (tick_reschedules rank0_active) as (t & Ht & _ & _ & Htrim).
  exists t. split; [exact Ht|]. apply Htrim. split; [reflexivity|].
  left. reflexivity.
Defined.

Lemma _handle_command_unknown cmdmap s :
  default "" (cmd_getval_str cmdmap "prefix") ∉ known_prefixes ->
  _handle_command cmdmap s = Ret (- EINVAL, "", None) s [].
Proof.
  intros H. unfold known_prefixes in H.
  rewrite !not_elem_of_cons in H. destruct H as (H1&H2&H3&H4&H5&H6&H7&_).
  unfold _handle_command. rewrite bind_get.
  repeat (case_bool_decide; [done|]). reflexivity.
Qed.

(** Property X2.  [handle_command] answers every command it does not run
    with one reply and releases the message, leaving the controller as it
    was: -EPERM when the session does not allow everything, 0 with "no
    command given" for an empty command, -EINVAL with the parser's text
    when the command does not parse, and -EINVAL for a prefix that
    [_handle_command] does not know. *)
Theorem handle_command_errors (m : Message) (cmd : list string)
    (parsed : string + gmap string cmd_val) (s : MDS) :
  (with_session false m ->
   handle_command m cmd parsed s
   = Ret tt s [SendReply (- EPERM) ""; MsgPut])
  /\ (with_session true m -> cmd = [] ->
      handle_command m cmd parsed s
      = Ret tt s [SendReply 0 "no command given"; MsgPut])
  /\ (with_session true m -> cmd <> [] ->
      forall err, parsed = inl err ->
      handle_command m cmd parsed s
      = Ret tt s [SendReply (- EINVAL) err; MsgPut])
  /\ (with_session true m -> cmd <> [] ->
      forall cmdmap, parsed = inr cmdmap ->
      default "" (cmd_getval_str cmdmap "prefix") ∉ known_prefixes ->
      handle_command m cmd parsed s
      = Ret tt s [SendReply (- EINVAL) ""; MsgPut]).
Proof.
  unfold handle_command, with_session.
  repeat split.
  - intros (con & -> & ->). by mrun.
  - intros (con & -> & ->) ->. by mrun.
  - intros (con & -> & ->) Hc err ->. destruct cmd; [done|]. by mrun.
  - intros (con & -> & ->) Hc cmdmap -> Hp. destruct cmd; [done|]. cbn [negb].
    erewrite bind_eq by by apply _handle_command_unknown.
    by mrun.
Qed.

Lemma handle_command_errors_witness :
  handle_command restricted_command ["{prefix: exit}"] (inr exit_cmdmap)
    rank0_active
  = Ret tt rank0_active [SendReply (- EPERM) ""; MsgPut]
  /\ handle_command command_from_osd ["{"] (inl "parse error") rank0_active
     = Ret tt rank0_active [SendReply (- EINVAL) "parse error"; MsgPut]
  /\ handle_command command_from_osd ["{prefix: status}"]
       (inr unknown_cmdmap) rank0_active
     = Ret tt rank0_active [SendReply (- EINVAL) ""; MsgPut].
Proof.
  split; [|split].
  - apply (handle_command_errors restricted_command ["{prefix: exit}"]
             (inr exit_cmdmap) rank0_active).
    by eexists.
  - apply (handle_command_errors command_from_osd ["{"] (inl "parse error")
             rank0_active); first [by eexists | done].
  - eapply (proj2 (proj2 (proj2
              (handle_command_errors command_from_osd ["{prefix: status}"]
                 (inr unknown_cmdmap) rank0_active))));
      try first [by eexists | done].
    vm_compute. intros H.
    repeat (apply elem_of_cons in H as [H|H]; [discriminate|]).
    by apply elem_of_nil in H.
Defined.

(** Property X3.  For "exit" and "respawn" the reply is sent, and a second
    slept, before the daemon acts: "exit" then runs [suicide] and still
    releases the message; "respawn" ends in [execv] and never releases
    it. *)
Theorem handle_command_replies_first (m : Message) (cmd : list string)
    (cmdmap : gmap string cmd_val) (s : MDS) :
  with_session true m -> cmd <> [] ->
  (cmd_getval_str cmdmap "prefix" = Some "exit" -> stopping s = false ->
   handle_command m cmd (inr cmdmap) s
   = Ret tt (suicided s)
       ([SendReply 0 "Exiting..."; Sleep 1] ++ suicide_trace false s
        ++ [MsgPut]))
  /\ (cmd_getval_str cmdmap "prefix" = Some "respawn" ->
      handle_command m cmd (inr cmdmap) s
      = Respawned s [SendReply 0 "Respawning..."; Sleep 1; Execv]).
Proof.
  intros (con & Hc & Hp) Hcmd. unfold handle_command. rewrite Hc, Hp.
  destruct cmd; [done|]. cbn [negb]. unfold _handle_command.
  split.
  - intros Hpre Hs. rewrite Hpre. mrun. cbn [default from_option id].
    repeat case_bool_decide; try discriminate; try congruence. mrun.
    unfold complete. mrun.
    rewrite (bind_eq _ _ _ _ _ _ (suicide_eq false s Hs)). by mrun.
  - intros Hpre. rewrite Hpre. mrun. cbn [default from_option id].
    repeat case_bool_decide; try discriminate; try congruence. mrun.
    unfold complete. by mrun.
Qed.

Lemma handle_command_replies_first_witness :
  handle_command command_from_osd ["{prefix: exit}"] (inr exit_cmdmap)
    rank0_active
  = Ret tt (suicided rank0_active)
      ([SendReply 0 "Exiting..."; Sleep 1]
       ++ suicide_trace false rank0_active ++ [MsgPut])
  /\ handle_command command_from_osd ["{prefix: respawn}"]
       (inr respawn_cmdmap) rank0_active
     = Respawned rank0_active
         [SendReply 0 "Respawning..."; Sleep 1; Execv].
Proof.
  split.
  - apply (handle_command_replies_first command_from_osd ["{prefix: exit}"]
             exit_cmdmap rank0_active); first [by eexists | done].
  - apply (handle_command_replies_first command_from_osd
             ["{prefix: respawn}"] respawn_cmdmap rank0_active);
      first [by eexists | done].
Defined.

Lemma puts_app t1 t2 : puts (t1 ++ t2) = (puts t1 + puts t2)%nat.
Proof. unfold puts. by rewrite List.filter_app, length_app. Qed.

Lemma puts_no_put t : Forall no_put t -> puts t = 0%nat.
Proof.
  induction 1 as [|e t He _ IH]; [done|].
  unfold puts in *. simpl. by destruct e.
Qed.

Lemma always_put_none {A} (m : M A) s :
  always (fun _ _ => True) no_put m -> put_none (m s).
Proof. intros H. apply puts_no_put, H. Qed.

Lemma put_none_bind {A B} (m : M A) (k : A -> M B) s :
  put_none (m s) -> (forall a s', put_none (k a s')) ->
  put_none ((m ≫= k) s).
Proof.
  unfold put_none. intros Hm Hk. rewrite bind_unfold.
  destruct (m s) as [a s1 t1| |]; simpl in *; try done.
  rewrite trace_after, puts_app, Hm. apply Hk.
Qed.

Lemma put_once_bind {A B} (m : M A) (k : A -> M B) s :
  put_none (m s) -> (forall a s', put_once (k a s')) ->
  put_once ((m ≫= k) s).
Proof.
  unfold put_none, put_once. intros Hm Hk. rewrite bind_unfold.
  destruct (m s) as [a s1 t1| |]; simpl in *; try (split; [lia | done]).
  rewrite trace_after, returns_after, puts_app, Hm. apply Hk.
Qed.

Lemma put_once_asserted {A} s : put_once (@Asserted A s []).
Proof. split; [cbv; lia | done]. Qed.

Lemma put_once_emit s : put_once (emit MsgPut s).
Proof. by split. Qed.

Lemma put_once_out (m : M unit) s :
  put_none (m s) -> put_once ((m;; emit MsgPut;; emit DeleteOldmap) s).
Proof. intros Hm. apply put_once_bind; [done|]. intros. by split. Qed.

Ltac no_put_side :=
  try solve [ intros; unfold no_put in *; simpl in *;
              first [ done | congruence ] ].

Lemma no_put_suicide fast : always (fun _ _ => True) no_put (suicide fast).
Proof. always_go no_put_side. Qed.

Lemma no_put_identify oldmap oldwhoami oldstate :
  always (fun _ _ => True) no_put
    (identify_and_process oldmap oldwhoami oldstate).
Proof. always_go no_put_side. Qed.

Lemma no_put_legacy args :
  always (fun _ _ => True) no_put (_handle_command_legacy args).
Proof. always_go no_put_side. Qed.

Lemma no_put_command cmdmap :
  always (fun _ _ => True) no_put (_handle_command cmdmap).
Proof. always_go no_put_side. Qed.

Lemma no_put_complete c : always (fun _ _ => True) no_put (complete c).
Proof. always_go no_put_side. Qed.

Ltac count_puts :=
  unfold put_once, put_none, puts;
  cbn [trace returns List.filter is_put length app];
  first [ split; [lia | done] | lia | done ].

Lemma put_once_handle_mds_map mm s : put_once (handle_mds_map mm s).
Proof.
  destruct (Z.le_gt_cases (m_epoch mm) (epoch (mdsmap s))) as [Hle|Hlt].
  { rewrite handle_mds_map_discard by done. by split. }
  rewrite handle_mds_map_install by lia.
  unfold put_once. rewrite trace_after, returns_after, puts_app.
  change (puts [_; _]) with 0%nat. cbn [Nat.add].
  apply put_once_out.
  destruct (negb _); apply always_put_none;
    [apply no_put_suicide | apply no_put_identify].
Qed.

Lemma put_once_handle_command m cmd parsed s :
  put_once (handle_command m cmd parsed s).
Proof.
  unfold handle_command.
  destruct (get_connection m) as [con|]; [|apply put_once_asserted].
  destruct (con_priv con) as [allow_all|]; [|apply put_once_asserted].
  apply put_once_bind.
  - destruct (negb allow_all); [done|]. destruct cmd; [done|].
    destruct parsed; [done|]. apply always_put_none, no_put_command.
  - intros [[r outs] run_after] s'.
    apply put_once_bind; [done|]. intros _ s2.
    apply put_once_bind; [|intros; apply put_once_emit].
    destruct run_after; [|done]. apply always_put_none, no_put_complete.
Qed.

(** Property X4.  [handle_core_message] releases a message at most once,
    whatever happens; when it returns it has released it exactly once,
    except for an OSD map that it handled and a message that is not a core
    message, which it leaves alone. *)
Theorem core_message_released_once (m : Message) (s : MDS) :
  (puts (trace (handle_core_message m s)) <= 1)%nat
  /\ (returns (handle_core_message m s) = true ->
      puts (trace (handle_core_message m s)) = released m).
Proof.
  unfold handle_core_message, released. rewrite bind_get.
  destruct (body m) as [|mm|cmd|cmd parsed| |ty].
  - destruct (filtered_out _ _); count_puts.
  - destruct (filtered_out _ _); [count_puts|].
    pose proof (put_once_handle_mds_map mm s) as [H1 H2].
    rewrite bind_unfold.
    destruct (handle_mds_map mm s) as [[] s1 t1| |]; simpl in *;
      rewrite ?app_nil_r; auto.
  - destruct (filtered_out _ _); [count_puts|].
    assert (H : put_once (handle_command_mon cmd s)).
    { apply put_once_bind; [|intros; apply put_once_emit].
      apply always_put_none, no_put_legacy. }
    destruct H as [H1 H2]. rewrite bind_unfold.
    destruct (handle_command_mon cmd s) as [[] s1 t1| |]; simpl in *;
      rewrite ?app_nil_r; auto.
  - pose proof (put_once_handle_command m cmd parsed s) as [H1 H2].
    rewrite bind_unfold.
    destruct (handle_command m cmd parsed s) as [[] s1 t1| |]; simpl in *;
      rewrite ?app_nil_r; auto.
  - destruct (filtered_out _ _); [count_puts|].
    destruct (is_active s); mrun; count_puts.
  - unfold mret, M_ret. count_puts.
Qed.

Lemma core_message_released_once_witness :
  puts (trace (handle_core_message (from_mon POSDMap) rank0_active)) = 0%nat
  /\ puts (trace (handle_core_message command_from_osd rank0_active))
     = 1%nat.
Proof.
  split.
  - apply (core_message_released_once (from_mon POSDMap) rank0_active).
    reflexivity.
  - apply (core_message_released_once command_from_osd rank0_active).
    reflexivity.
Defined.


Lemma admin_frame_refl s : admin_frame s s.
Proof. exists (osd_epoch_barrier s), (mdcache_readonly s). by destruct s. Qed.

Lemma admin_frame_trans a b c :
  admin_frame a b -> admin_frame b c -> admin_frame a c.
Proof. intros (b1 & r1 & ->) (b2 & r2 & ->). by exists b2, r2. Qed.

Lemma yields_bind {A B} (Q : B -> Prop) (m : M A) (k : A -> M B) :
  (forall a, yields Q (k a)) -> yields Q (m ≫= k).
Proof.
  intros Hk s b s' t. rewrite bind_unfold.
  destruct (m s) as [a s1 t1| |]; try done.
  destruct (k a s1) as [b' s2 t2| |] eqn:E; simpl; try done.
  intros [= <- <- <-]. by eapply Hk.
Qed.

Lemma yields_ret {A} (Q : A -> Prop) (a : A) : Q a -> yields Q (mret a).
Proof. intros H s a' s' t [= <- <- <-]. done. Qed.

Ltac yields_step :=
  lazymatch goal with
  | |- yields _ (mret _) => by apply yields_ret
  | |- yields _ finish => unfold finish
  | |- yields _ (_ ≫= _) => apply yields_bind; intros
  | |- yields _ (if ?b then _ else _) => destruct b
  | |- yields _ (match ?x with _ => _ end) => destruct x
  end.

Lemma admin_frame_barrier b s : admin_frame s (with_osd_epoch_barrier b s).
Proof. exists b, (mdcache_readonly s). by destruct s. Qed.

Lemma admin_frame_readonly ro s : admin_frame s (with_mdcache_readonly ro s).
Proof. exists (osd_epoch_barrier s), ro. by destruct s. Qed.

Ltac admin_side :=
  try solve
    [ exact I
    | exact admin_frame_refl
    | exact admin_frame_trans
    | intros; apply admin_frame_barrier
    | intros; apply admin_frame_readonly ].

(** Property X6.  An admin socket command changes nothing of the controller
    but the OSD epoch barrier and the read-only flag of the cache, never
    reaches [execv], and returns true whenever it returns.  A command other
    than "status" on a daemon without a rank only dumps "error". *)
Theorem asok_command_frame (command : string) (cmdmap : gmap string cmd_val)
    (j : journal_run) (s : MDS) :
  admin_frame s (final_state (asok_command command cmdmap j s))
  /\ Forall no_execv (trace (asok_command command cmdmap j s))
  /\ (forall b s' t, asok_command command cmdmap j s = Ret b s' t -> b = true)
  /\ (command <> "status" -> whoami s < 0 ->
      asok_command command cmdmap j s
      = Ret true s [Dump "error"; FormatterFlush]).
Proof.
  split; [|split; [|split]].
  - assert (H : always admin_frame (fun _ => True)
                  (asok_command command cmdmap j)).
    { always_go admin_side. }
    apply H.
  - assert (H : always (fun _ _ => True) no_execv
                  (asok_command command cmdmap j)).
    { always_go no_execv_side. }
    apply H.
  - intros b s' t. revert s b s' t.
    change (yields (fun b => b = true) (asok_command command cmdmap j)).
    unfold asok_command. repeat yields_step.
  - intros Hc Hw. unfold asok_command. rewrite bind_get.
    rewrite bool_decide_eq_false_2 by done.
    destruct (Z.ltb_spec (whoami s) 0); [|lia]. unfold finish. by mrun.
Qed.

Lemma asok_command_frame_witness :
  asok_command "flush journal" ∅ flush_ok rankless_standby_replay
  = Ret true rankless_standby_replay [Dump "error"; FormatterFlush].
Proof.
  apply (asok_command_frame "flush journal" ∅ flush_ok
           rankless_standby_replay); [done | reflexivity].
Defined.

Lemma cleaned_socket_lookup (a : gmap string asok_entry) c :
  cleaned_socket a !! c
  = if bool_decide (c ∈ unregistered_commands) then None else a !! c.
Proof.
  unfold cleaned_socket. case_bool_decide as Hc.
  - revert c Hc. apply elem_of_list_cases.
    repeat constructor;
      by rewrite ?lookup_delete_ne by done; rewrite lookup_delete_eq.
  - assert (Hne : forall c', c' ∈ unregistered_commands -> c' <> c)
      by (by intros c' Hc' ->).
    by rewrite !lookup_delete_ne
      by (apply Hne; by apply (bool_decide_unpack _)).
Qed.

Lemma cleaned_socket_idemp (a : gmap string asok_entry) :
  cleaned_socket (cleaned_socket a) = cleaned_socket a.
Proof.
  apply map_eq. intros c. rewrite !cleaned_socket_lookup.
  by case_bool_decide.
Qed.

Lemma cleaned_socket_id (a : gmap string asok_entry) :
  (forall c, c ∈ unregistered_commands -> a !! c = None) ->
  cleaned_socket a = a.
Proof.
  intros H. apply map_eq. intros c. rewrite cleaned_socket_lookup.
  case_bool_decide; [by rewrite H | done].
Qed.

(** Property X7.  [clean_up_admin_socket] is idempotent, and on a controller
    without a hook whose ten commands are not registered it changes
    nothing. *)
Theorem clean_up_admin_socket_idempotent (s : MDS) :
  (clean_up_admin_socket;; clean_up_admin_socket) s = clean_up_admin_socket s
  /\ ((forall c, c ∈ unregistered_commands -> admin_socket s !! c = None) ->
      asok_hook s = None ->
      clean_up_admin_socket s = Ret tt s []).
Proof.
  split.
  - rewrite (bind_eq _ _ _ _ _ _ (clean_up_admin_socket_eq s)).
    rewrite !clean_up_admin_socket_eq. cbn [after app]. f_equal.
    unfold cleaned at 1 3.
    cbn [asok_hook admin_socket live_hooks cleaned with_asok_hook
         with_live_hooks with_admin_socket].
    rewrite cleaned_socket_idemp. reflexivity.
  - intros Hfree Hhook. rewrite clean_up_admin_socket_eq. f_equal.
    unfold cleaned. rewrite Hhook, cleaned_socket_id by done.
    destruct s; simpl in *; by subst.
Qed.

Lemma clean_up_admin_socket_idempotent_witness :
  clean_up_admin_socket rank0_active = Ret tt rank0_active [].
Proof.
  apply (clean_up_admin_socket_idempotent rank0_active); [|reflexivity].
  intros c _. apply lookup_empty.
Defined.

Lemma register_step {B} c d h hp a s (k : unit -> M B) :
  (register_checked c d h hp ≫= k) (with_admin_socket a s)
  = match a !! c with
    | Some _ => Asserted (with_admin_socket a s) []
    | None => k tt (with_admin_socket (<[c := mk_asok_entry d h hp]> a) s)
    end.
Proof.
  destruct (a !! c) eqn:E.
  - unfold register_checked, register_command.
    rewrite !bind_assoc, bind_get. cbn [admin_socket with_admin_socket].
    rewrite E. mrun. change (- EEXIST =? 0) with false. by mrun.
  - rewrite (bind_eq _ _ _ _ _ _ (register_checked_next c d h hp a s E)).
    by mrun.
Qed.

Lemma register_last c d h hp a s :
  register_checked c d h hp (with_admin_socket a s)
  = match a !! c with
    | Some _ => Asserted (with_admin_socket a s) []
    | None => Ret tt (with_admin_socket (<[c := mk_asok_entry d h hp]> a) s) []
    end.
Proof.
  destruct (a !! c) eqn:E.
  - unfold register_checked, register_command.
    rewrite !bind_assoc, bind_get. cbn [admin_socket with_admin_socket].
    rewrite E. mrun. change (- EEXIST =? 0) with false. unfold c_assert. done.
  - by rewrite register_checked_next.
Qed.

Lemma set_up_admin_socket_returns s :
  returns (set_up_admin_socket s) = true
  <-> forall c, c ∈ registered_commands -> admin_socket s !! c = None.
Proof.
  split; [|intros H; by rewrite set_up_admin_socket_eq].
  unfold set_up_admin_socket.
  rewrite (bind_eq _ _ _ _ _ _ (new_hook_eq s)), after_nil, bind_modify.
  set (s0 := with_asok_hook _ _).
  change s0 with (with_admin_socket (admin_socket s) s0).
  do 16 (rewrite register_step; rewrite ?lookup_insert_ne by done;
         lazymatch goal with
         | |- context [match admin_socket s !! ?c with _ => _ end] =>
             destruct (admin_socket s !! c) eqn:?; [done|]
         end).
  rewrite register_last. rewrite ?lookup_insert_ne by done.
  lazymatch goal with
  | |- context [match admin_socket s !! ?c with _ => _ end] =>
      destruct (admin_socket s !! c) eqn:?; [done|]
  end.
  intros _. apply elem_of_list_cases. by repeat constructor.
Qed.

(** Property X8.  [set_up_admin_socket] passes its assertions exactly when
    none of its seventeen commands is registered.  So it cannot be run
    twice, and not even a [clean_up_admin_socket] in between makes a
    second run possible. *)
Theorem set_up_admin_socket_once (st : MDS) :
  (returns (set_up_admin_socket st) = true
   <-> forall c, c ∈ registered_commands -> admin_socket st !! c = None)
  /\ ((forall c, c ∈ registered_commands -> admin_socket st !! c = None) ->
      returns ((set_up_admin_socket;; set_up_admin_socket) st) = false
      /\ returns ((set_up_admin_socket;; clean_up_admin_socket;;
                   set_up_admin_socket) st) = false).
Proof.
  split; [apply set_up_admin_socket_returns|].
  intros Hfree. split.
  - rewrite (bind_eq _ _ _ _ _ _ (set_up_admin_socket_eq st Hfree)), after_nil.
    apply not_true_is_false. rewrite set_up_admin_socket_returns.
    intros H. specialize (H "status"). 
    assert (Hin : "status" ∈ registered_commands)
      by (by apply (bool_decide_unpack _)).
    specialize (H Hin). unfold set_up, registered in H.
    cbn [admin_socket with_admin_socket] in H.
    rewrite !lookup_insert_ne in H by done. by rewrite lookup_insert_eq in H.
  - rewrite (bind_eq _ _ _ _ _ _ (set_up_admin_socket_eq st Hfree)), after_nil.
    rewrite (bind_eq _ _ _ _ _ _ (clean_up_admin_socket_eq _)), after_nil.
    apply not_true_is_false. rewrite set_up_admin_socket_returns.
    intros H. specialize (H "export dir").
    assert (Hin : "export dir" ∈ registered_commands)
      by (by apply (bool_decide_unpack _)).
    specialize (H Hin). unfold cleaned in H.
    cbn [admin_socket with_admin_socket with_asok_hook with_live_hooks] in H.
    rewrite cleaned_socket_lookup in H.
    rewrite bool_decide_eq_false_2 in H
      by (intros Hx; by apply (bool_decide_pack _) in Hx).
    unfold set_up, registered in H. cbn [admin_socket with_admin_socket] in H.
    rewrite !lookup_insert_ne in H by done. by rewrite lookup_insert_eq in H.
Qed.

Lemma set_up_admin_socket_once_witness :
  returns (set_up_admin_socket rank0_active) = true
  /\ returns ((set_up_admin_socket;; set_up_admin_socket) rank0_active)
     = false
  /\ returns ((set_up_admin_socket;; clean_up_admin_socket;;
               set_up_admin_socket) rank0_active) = false.
Proof.
  split.
  - apply (set_up_admin_socket_once rank0_active).
    intros c _. apply lookup_empty.
  - apply (set_up_admin_socket_once rank0_active).
    intros c _. apply lookup_empty.
Defined.

(** ** A map that the daemon cannot write *)

(** Property X9.  A newer map that the daemon's feature set cannot write is
    installed and then makes the daemon [suicide]: the handler returns with
    the latch set, rank, state and incarnation as they were, and the
    message released; with the latch already set it stops at the assertion
    of [suicide], the map installed and the message not released. *)
Theorem incompatible_map_suicide (m : MMDSMap) (st : MDS) :
  epoch (mdsmap st) < m_epoch m ->
  compat_writeable (m_encoded m) = false ->
  (stopping st = false ->
   handle_mds_map m st
   = Ret tt (suicided (swapped_in m st))
       ([MoncSubGot (epoch (m_encoded m));
         BeaconNotifyMdsmap (epoch (m_encoded m))]
        ++ suicide_trace false (swapped_in m st) ++ [MsgPut; DeleteOldmap])
   /\ whoami (suicided (swapped_in m st)) = whoami st
   /\ state (suicided (swapped_in m st)) = state st
   /\ incarnation (suicided (swapped_in m st)) = incarnation st)
  /\ (stopping st = true ->
      handle_mds_map m st
      = Asserted (swapped_in m st)
          [MoncSubGot (epoch (m_encoded m));
           BeaconNotifyMdsmap (epoch (m_encoded m))]).
Proof.
  intros Hnew Hcompat. rewrite handle_mds_map_install by done.
  rewrite Hcompat. cbn [negb]. split; intros Hs.
  - rewrite (bind_eq _ _ _ _ _ _ (suicide_eq false (swapped_in m st) Hs)).
    mrun. split; [done|].
    unfold suicided. by destruct (hb _), (tick_event _).
  - rewrite bind_unfold, suicide_asserts by done. reflexivity.
Qed.

Lemma incompatible_map_suicide_witness :
  returns (handle_mds_map msg_incompatible rank0_active) = true
  /\ stopping (final_state (handle_mds_map msg_incompatible rank0_active))
     = true
  /\ handle_mds_map msg_incompatible dead_mds
     = Asserted (swapped_in msg_incompatible dead_mds)
         [MoncSubGot 11; BeaconNotifyMdsmap 11].
Proof.
  split; [|split].
  - destruct (incompatible_map_suicide msg_incompatible rank0_active)
      as [H _]; [vm_compute; congruence | reflexivity |].
    destruct (H eq_refl) as [-> _]. reflexivity.
  - destruct (incompatible_map_suicide msg_incompatible rank0_active)
      as [H _]; [vm_compute; congruence | reflexivity |].
    destruct (H eq_refl) as [-> _]. reflexivity.
  - apply (incompatible_map_suicide msg_incompatible dead_mds);
      [vm_compute; congruence | reflexivity | reflexivity].
Defined.

(** ** The epochs noted for the peers *)

Lemma peer_epochs_grow_refl s : peer_epochs_grow s s.
Proof. intros r. lia. Qed.

Lemma peer_epochs_grow_trans a b c :
  peer_epochs_grow a b -> peer_epochs_grow b c -> peer_epochs_grow a c.
Proof. intros H1 H2 r. specialize (H1 r). specialize (H2 r). lia. Qed.

Lemma peer_epoch_noted m s r :
  peer_epoch (with_peer_mdsmap_epoch (noted_source m s) s) r
  = if is_mds (m_source m)
       && (r =? to_mds_rank_t (ent_num (m_source m)))
    then Z.max (peer_epoch s r) (m_epoch m)
    else peer_epoch s r.
Proof.
  unfold peer_epoch, noted_source.
  cbn [peer_mdsmap_epoch with_peer_mdsmap_epoch].
  destruct (is_mds (m_source m)); [|done]. cbn [andb].
  set (r0 := to_mds_rank_t _).
  destruct (Z.eqb_spec r r0) as [->|Hne].
  - destruct (Z.ltb_spec (default 0 (peer_mdsmap_epoch s !! r0)) (m_epoch m));
      rewrite lookup_insert_eq; simpl; lia.
  - destruct (_ <? _); by rewrite lookup_insert_ne.
Qed.

Lemma peer_epochs_note_source m :
  always peer_epochs_grow (fun _ => True) (note_source_epoch m).
Proof.
  intros s. rewrite note_source_epoch_eq. split; [|constructor].
  intros r. cbn [final_state]. rewrite peer_epoch_noted.
  destruct (_ && _); lia.
Qed.

Ltac peer_side :=
  try solve [ exact I
            | exact peer_epochs_grow_refl
            | exact peer_epochs_grow_trans
            | intros; exact I
            | intros; intros ?; unfold peer_epoch; simpl; lia ].

Ltac peer_known :=
  idtac;
  lazymatch goal with
  | |- always _ _ (note_source_epoch _) => apply peer_epochs_note_source
  end.

(** Property X10.  No operation on the controller lowers the epoch noted for
    a peer; [handle_mds_map] raises the one of the sending daemon to the
    message's epoch when that is higher, and touches no other. *)
Theorem peer_epochs_never_decrease (o : operation) (m : MMDSMap) (s : MDS)
    (r : Z) :
  peer_epoch s r <= peer_epoch (final_state (run_op o s)) r
  /\ peer_epoch (final_state (handle_mds_map m s)) r
     = if is_mds (m_source m)
          && (r =? to_mds_rank_t (ent_num (m_source m)))
       then Z.max (peer_epoch s r) (m_epoch m)
       else peer_epoch s r.
Proof.
  split.
  - assert (H : always peer_epochs_grow (fun _ => True) (run_op o)).
    { destruct o; always_walk peer_known peer_side. }
    apply H.
  - rewrite <- peer_epoch_noted.
    assert (H : always (fun a b => peer_mdsmap_epoch b = peer_mdsmap_epoch a)
                  (fun _ => True)
                  (s ← get;
                   if m_epoch m <=? epoch (mdsmap s) then emit MsgPut
                   else
                     let oldmap := mdsmap s in
                     let oldwhoami := whoami s in
                     let oldstate := state s in
                     modify (with_mdsmap (m_encoded m));;
                     emit (MoncSubGot (epoch (m_encoded m)));;
                     emit (BeaconNotifyMdsmap (epoch (m_encoded m)));;
                     (if negb (compat_writeable (m_encoded m))
                      then suicide false
                      else identify_and_process oldmap oldwhoami oldstate);;
                     emit MsgPut;; emit DeleteOldmap)).
    { always_go ltac:(try solve [ exact I | done | intros; congruence ]). }
    unfold handle_mds_map.
    rewrite (bind_eq _ _ _ _ _ _ (note_source_epoch_eq m s)), after_nil.
    specialize (H (with_peer_mdsmap_epoch (noted_source m s) s)).
    destruct H as [H _]. unfold peer_epoch.
    apply (f_equal (fun p : gmap Z Z => default 0 (p !! r))). exact H.
Qed.

(** ** Who writes the identity *)

Ltac identity_side :=
  try solve [ exact I
            | intros; exact I
            | intros; unfold identity_kept in *; simpl in *;
              first [ done | intuition congruence ] ].

(** ** Messages for the rank *)

(** Property X12.  On a live daemon [ms_dispatch] hands a message that is
    not a core message to the rank, after a heartbeat reset, and returns
    the rank's answer with the controller unchanged; a core message never
    reaches the rank and is reported as handled whenever the dispatcher
    returns. *)
Theorem rank_messages_forwarded (m : Message) (s : MDS) :
  stopping s = false -> want_state s <> STATE_DNE ->
  (forall ty, body m = POther ty ->
     ms_dispatch m s
     = Ret (rank_accepts (env s) m) s [HeartbeatReset; HandleRankMessage])
  /\ ((forall ty, body m <> POther ty) ->
      Forall no_rank_dispatch (trace (ms_dispatch m s))
      /\ forall b s' t, ms_dispatch m s = Ret b s' t -> b = true).
Proof.
  intros Hs Hw. unfold ms_dispatch, heartbeat_reset. rewrite bind_get, Hs.
  destruct (Z.eqb_spec (want_state s) STATE_DNE); [done|]. mrun.
  split.
  - intros ty Hb. unfold handle_core_message. rewrite bind_assoc, bind_get, Hb.
    cbn iota. unfold handle_rank_message. by mrun.
  - intros Hb.
    assert (Hc : always (fun _ _ => True) no_rank_dispatch
                   (handle_core_message m)).
    { always_walk fail ltac:(try solve [exact I | intros; exact I | done]). }
    assert (Hv : forall b s1 t1, handle_core_message m s = Ret b s1 t1 ->
                                 b = true).
    { unfold handle_core_message. rewrite bind_get.
      destruct (body m) eqn:E; try (by destruct (Hb type)).
      all: intros b s1 t1; try destruct (filtered_out _ _);
        rewrite ?bind_unfold;
        repeat match goal with
               | |- context [match ?x with Ret _ _ _ => _ | _ => _ end] =>
                   destruct x as [[] ? ?| |]
               end; cbn; try done; by intros [= <- _ _]. }
    destruct (Hc s) as [_ Htr]. rewrite bind_unfold.
    destruct (handle_core_message m s) as [b s1 t1| |] eqn:E; cbn in *.
    + rewrite (Hv b s1 t1 eq_refl). cbn. rewrite app_nil_r. split.
      * by repeat constructor.
      * by intros b' s' t' [= <- _ _].
    + split; [by repeat constructor | done].
    + split; [by repeat constructor | done].
Qed.

Lemma rank_messages_forwarded_witness :
  ms_dispatch rank_message rank0_active
  = Ret true rank0_active [HeartbeatReset; HandleRankMessage]
  /\ Forall no_rank_dispatch (trace (ms_dispatch (from_mon PMonMap)
                                       rank0_active)).
Proof.
  split.
  - assert (Hw : want_state rank0_active <> STATE_DNE)
      by (vm_compute; congruence).
    exact (proj1 (rank_messages_forwarded rank_message rank0_active eq_refl
                    Hw) 0x200 eq_refl).
  - apply (rank_messages_forwarded (from_mon PMonMap) rank0_active);
      [reflexivity | vm_compute; congruence | done].
Defined.

Lemma mark_down_trace (oldinfo newinfo : list (Z * mds_info_t)) s :
  for_each oldinfo (fun p =>
    when (negb (existsb (fun q => fst q =? fst p) newinfo))
      (emit (MessengerMarkDown (info_addr (snd p))))) s
  = Ret tt s (removed_peers oldinfo newinfo).
Proof.
  unfold removed_peers. induction oldinfo as [|p l IH]; [done|].
  cbn [for_each List.filter]. rewrite bind_unfold.
  destruct (negb (existsb _ newinfo)); cbn [when].
  - rewrite run_emit, IH. reflexivity.
  - rewrite run_ret, IH. reflexivity.
Qed.

Lemma existsb_find_info gid (l : list (Z * mds_info_t)) :
  existsb (fun q => fst q =? gid) l = false <-> find_info gid l = None.
Proof.
  induction l as [|[g i] l IH]; [done|]. simpl.
  destruct (g =? gid); simpl; [split; done | apply IH].
Qed.

Lemma removed_peers_elem gid i oldinfo newinfo :
  (gid, i) ∈ oldinfo -> find_info gid newinfo = None ->
  MessengerMarkDown (info_addr i) ∈ removed_peers oldinfo newinfo.
Proof.
  intros Hin Hnone. unfold removed_peers.
  apply (list_elem_of_fmap_2
           (fun p => MessengerMarkDown (info_addr (snd p))) _ (gid, i)).
  apply list_elem_of_In, List.filter_In. split; [by apply list_elem_of_In|].
  simpl. apply existsb_find_info in Hnone. by rewrite Hnone.
Qed.

(** [process_map] begins with the mark-downs. *)
Lemma process_map_marks oldmap oldwhoami oldstate s :
  process_map oldmap oldwhoami oldstate s
  = after (removed_peers (mds_info oldmap) (mds_info (mdsmap s)))
      ((when (negb (state s =? oldstate)) (modify (with_last_state oldstate));;
        if state s =? STATE_STANDBY then
          modify (with_state STATE_STANDBY);;
          set_want_state STATE_STANDBY;;
          when (negb (standby_type s =? 0)) (request_state (standby_type s))
        else if (state s =? STATE_STANDBY_REPLAY)
                && negb (standby_type s =? STATE_NULL)
                && negb (standby_type s =? STATE_STANDBY_REPLAY) then
          set_want_state (standby_type s);;
          emit BeaconSend;;
          modify (with_state oldstate)
        else if whoami s =? MDS_RANK_NONE then rank_none_case
        else process_rank oldmap oldwhoami oldstate) s).
Proof.
  unfold process_map. rewrite bind_get.
  by rewrite (bind_eq _ _ _ _ _ _ (mark_down_trace _ _ s)).
Qed.

(** A map that passes the two checks reaches [process_map]. *)
Lemma handle_mds_map_processed m st :
  epoch (mdsmap st) < m_epoch m ->
  compat_writeable (m_encoded m) = true ->
  whoami st = MDS_RANK_NONE
  \/ map_rank (m_encoded m) (global_id (env st)) = whoami st ->
  state_valid (map_rank (m_encoded m) (global_id (env st))) (state st)
    (get_state_gid (m_encoded m) (global_id (env st))) = true ->
  handle_mds_map m st
  = after [MoncSubGot (epoch (m_encoded m));
           BeaconNotifyMdsmap (epoch (m_encoded m))]
      ((process_map (mdsmap st) (whoami st) (state st);;
        emit MsgPut;; emit DeleteOldmap) (identified (swapped_in m st))).
Proof.
  intros Hnew Hcompat Hheld Hvalid.
  rewrite handle_mds_map_install by done. rewrite Hcompat. cbn [negb].
  f_equal. rewrite !bind_unfold, identify_and_process_eq.
  set (s2 := identified (swapped_in m st)).
  assert (Hs2w : whoami s2 = map_rank (m_encoded m) (global_id (env st)))
    by done.
  assert (Hs2s : state s2 = get_state_gid (m_encoded m) (global_id (env st)))
    by done.
  rewrite Hs2w, Hs2s, Hvalid.
  assert (negb (map_rank (m_encoded m) (global_id (env st)) =? whoami st)
          && negb (whoami st =? MDS_RANK_NONE) = false) as ->.
  { destruct Hheld as [->| ->]; simpl.
    - apply andb_false_r.
    - by rewrite Z.eqb_refl. }
  reflexivity.
Qed.

(** Property X13.  When a newer, compatible map passes the checks on rank
    and state, the handler marks down the address of every daemon of the
    old map that the new map no longer has, in the order of the old map,
    right after it has told the monitor client and the beacon. *)
Theorem failed_peers_marked_down (m : MMDSMap) (st : MDS) :
  epoch (mdsmap st) < m_epoch m ->
  compat_writeable (m_encoded m) = true ->
  whoami st = MDS_RANK_NONE
  \/ map_rank (m_encoded m) (global_id (env st)) = whoami st ->
  state_valid (map_rank (m_encoded m) (global_id (env st))) (state st)
    (get_state_gid (m_encoded m) (global_id (env st))) = true ->
  (exists rest,
     trace (handle_mds_map m st)
     = [MoncSubGot (epoch (m_encoded m));
        BeaconNotifyMdsmap (epoch (m_encoded m))]
       ++ removed_peers (mds_info (mdsmap st)) (mds_info (m_encoded m))
       ++ rest)
  /\ (forall gid i,
        (gid, i) ∈ mds_info (mdsmap st) ->
        find_info gid (mds_info (m_encoded m)) = None ->
        MessengerMarkDown (info_addr i) ∈ trace (handle_mds_map m st)).
Proof.
  intros Hnew Hcompat Hheld Hvalid.
  assert (H : exists rest,
     trace (handle_mds_map m st)
     = [MoncSubGot (epoch (m_encoded m));
        BeaconNotifyMdsmap (epoch (m_encoded m))]
       ++ removed_peers (mds_info (mdsmap st)) (mds_info (m_encoded m))
       ++ rest).
  { rewrite handle_mds_map_processed by done.
    rewrite trace_after, (bind_eq_after _ _ _ _ _ (process_map_marks _ _ _ _)).
    rewrite bind_unfold.
    match goal with |- context [after _ ?r] => destruct r as [[] s1 t1| |] end;
      cbn [after trace]; rewrite ?trace_after;
      change (mdsmap (identified (swapped_in m st))) with (m_encoded m);
      rewrite <- ?app_assoc; by eexists. }
  split; [done|]. intros gid i Hin Hnone. destruct H as [rest ->].
  apply elem_of_app. right. apply elem_of_app. left.
  by apply (removed_peers_elem gid).
Qed.

Lemma failed_peers_marked_down_witness :
  MessengerMarkDown 4200 ∈ trace (handle_mds_map msg_active with_peer_beta).
Proof.
  assert (H1 : epoch (mdsmap with_peer_beta) < m_epoch msg_active)
    by (vm_compute; reflexivity).
  assert (H2 : whoami with_peer_beta = MDS_RANK_NONE
               \/ map_rank (m_encoded msg_active)
                    (global_id (env with_peer_beta))
                  = whoami with_peer_beta)
    by (right; reflexivity).
  apply (proj2 (failed_peers_marked_down msg_active with_peer_beta H1
                  eq_refl H2 eq_refl) 4200
           (snd (info 4200 "beta" 1 STATE_ACTIVE))).
  - apply list_elem_of_In. vm_compute. right. left. reflexivity.
  - reflexivity.
Defined.

(** Property X14.  A rankless daemon that a newer map lists as standby
    without a rank becomes standby and stays rankless; it asks for standby,
    and then for its standby type when it has one; the waiters are not
    touched. *)
Theorem standby_listing (m : MMDSMap) (st : MDS) :
  epoch (mdsmap st) < m_epoch m ->
  compat_writeable (m_encoded m) = true ->
  whoami st = MDS_RANK_NONE ->
  get_rank_gid (m_encoded m) (global_id (env st)) = MDS_RANK_NONE ->
  get_state_gid (m_encoded m) (global_id (env st)) = STATE_STANDBY ->
  exists s',
    handle_mds_map m st
    = Ret tt s'
        ([MoncSubGot (epoch (m_encoded m));
          BeaconNotifyMdsmap (epoch (m_encoded m))]
         ++ removed_peers (mds_info (mdsmap st)) (mds_info (m_encoded m))
         ++ standby_request st ++ [MsgPut; DeleteOldmap])
    /\ state s' = STATE_STANDBY
    /\ whoami s' = MDS_RANK_NONE
    /\ want_state s'
       = (if standby_type st =? 0 then STATE_STANDBY else standby_type st)
    /\ stopping s' = stopping st
    /\ waiting_for_mdsmap s' = waiting_for_mdsmap st.
Proof.
  intros Hnew Hcompat Hold Hrank Hstate.
  assert (Hmr : map_rank (m_encoded m) (global_id (env st)) = MDS_RANK_NONE).
  { unfold map_rank. by rewrite Hrank, Hstate. }
  rewrite handle_mds_map_processed; [|done|done|by left|by rewrite Hmr].
  rewrite (bind_eq_after _ _ _ _ _ (process_map_marks _ _ _ _)).
  set (s2 := identified (swapped_in m st)).
  assert (Hs2s : state s2 = STATE_STANDBY) by done.
  assert (Hs2w : whoami s2 = MDS_RANK_NONE) by done.
  assert (Hs2t : standby_type s2 = standby_type st) by done.
  assert (Hs2m : mds_info (mdsmap s2) = mds_info (m_encoded m)) by done.
  rewrite Hs2s, Hs2t, Hs2m.
  change (STATE_STANDBY =? STATE_STANDBY) with true. cbv iota.
  unfold standby_request, set_want_state, request_state, set_want_state.
  destruct (negb (STATE_STANDBY =? state st));
    destruct (standby_type st =? 0); mrun;
    (eexists; split; [reflexivity|]); by repeat split.
Qed.

Lemma standby_listing_witness :
  exists s',
    handle_mds_map msg_standby rankless_standby_replay
    = Ret tt s'
        [MoncSubGot 11; BeaconNotifyMdsmap 11; BeaconSetWantState STATE_STANDBY;
         MsgPut; DeleteOldmap]
    /\ state s' = STATE_STANDBY
    /\ want_state s' = STATE_STANDBY.
Proof.
  assert (H1 : epoch (mdsmap rankless_standby_replay) < m_epoch msg_standby)
    by (vm_compute; reflexivity).
  destruct (standby_listing msg_standby rankless_standby_replay H1 eq_refl
              eq_refl eq_refl eq_refl)
    as (s' & Hrun & Hstate & _ & Hwant & _).
  exists s'. split; [exact Hrun|]. split; [exact Hstate | exact Hwant].
Defined.

Lemma no_fan_out_guard old t :
  Forall no_fan_out t -> Forall (fan_out_guard old) t.
Proof.
  intros H. eapply Forall_impl; [exact H|]. intros e [H1 H2]. split; [done|].
  intros x Hx. by destruct (H2 x).
Qed.

Lemma Forall_trace_bind {A B} (P : event -> Prop) (m : M A) (k : A -> M B) s :
  Forall P (trace (m s)) -> (forall a s', Forall P (trace (k a s'))) ->
  Forall P (trace ((m ≫= k) s)).
Proof.
  intros Hm Hk. rewrite bind_unfold.
  destruct (m s) as [a s1 t1| |]; simpl in *; try done.
  rewrite trace_after. apply Forall_app. split; [done | apply Hk].
Qed.

Ltac quiet_side :=
  try solve [ exact I | intros; exact I
            | intros; unfold no_fan_out; split; [done | intros; done]
            | done ].

Lemma no_fan_out_suicide fast :
  always (fun _ _ => True) no_fan_out (suicide fast).
Proof. always_walk fail quiet_side. Qed.

Lemma no_fan_out_rank_none_case :
  always (fun _ _ => True) no_fan_out rank_none_case.
Proof. always_walk fail quiet_side. Qed.

Lemma no_fan_out_peer_events oldmap oldstate :
  always (fun _ _ => True) no_fan_out (peer_events oldmap oldstate).
Proof. always_walk fail quiet_side. Qed.

Lemma no_fan_out_removed_peers oldinfo newinfo :
  Forall no_fan_out (removed_peers oldinfo newinfo).
Proof.
  unfold removed_peers. apply Forall_fmap, Forall_forall. intros p _.
  split; [done | intros; done].
Qed.

Ltac quiet_trace :=
  solve [ apply no_fan_out_guard;
          repeat (constructor; [split; [done | intros; done]|]);
          constructor ].

Lemma state_change_guard old s w :
  w <> MDS_RANK_NONE -> state_valid w old (state s) = true ->
  state s <> old ->
  Forall (fan_out_guard old) (trace (state_change old s)).
Proof.
  intros Hw Hvalid Hne. unfold state_change, set_want_state.
  rewrite bind_get, bind_assoc, bind_modify, bind_emit, trace_after.
  apply Forall_app. split; [quiet_trace|].
  unfold is_active, is_clientreplay, is_any_replay, is_replay, is_resolve,
    is_reconnect, is_rejoin, is_creating, is_starting, is_stopping.
  cbn [state with_want_state].
  unfold state_valid in Hvalid.
  destruct (Z.eqb_spec w MDS_RANK_NONE); [done|].
  destruct (Z.eqb_spec (state s) old); [done|]. cbn [negb andb] in Hvalid.
  generalize dependent (state s). intros st Hvalid Hne _.
  destruct (Z.eqb_spec old STATE_STANDBY_REPLAY) as [->|Hsr].
  { destruct (st =? STATE_REPLAY); cbn; constructor. }
  assert (Hrec : forall new,
    new = STATE_ACTIVE \/ new = STATE_CLIENTREPLAY -> st = new ->
    forall (k : unit -> M unit),
    (forall s', Forall (fan_out_guard old) (trace (k tt s'))) ->
    Forall (fan_out_guard old)
      (trace ((when ((old =? STATE_CREATING) || (old =? STATE_REJOIN)
                     || (old =? STATE_RECONNECT))
                 (emit (RecoveryDone old)) ≫= k)
                (with_want_state st s)))).
  { intros new Hnew -> k Hk.
    destruct (Z.eqb_spec old STATE_CREATING) as [->|]; [|
      destruct (Z.eqb_spec old STATE_REJOIN) as [->|]; [|
        destruct (Z.eqb_spec old STATE_RECONNECT) as [->|]]];
      eval_tests; mrun; rewrite ?trace_after; try apply Hk.
    - apply Forall_app. split; [|apply Hk].
      apply Forall_cons. split; [|constructor].
      split; [done|]. intros x [= <-]. auto.
    - apply Forall_app. split; [|apply Hk].
      apply Forall_cons. split; [|constructor].
      split; [done|]. intros x [= <-]. auto.
    - exfalso. destruct Hnew as [-> | ->]; by vm_compute in Hvalid. }
  destruct (Z.eqb_spec st STATE_ACTIVE) as [Heq|Ha].
  { cbn [orb andb]. apply (Hrec STATE_ACTIVE); [by left | done |].
    intros s'. rewrite ?Heq. eval_tests. mrun. cbn [trace]. quiet_trace. }
  cbn [orb].
  destruct (Z.eqb_spec st STATE_CLIENTREPLAY) as [Heq|Hc].
  { cbn [orb andb]. apply (Hrec STATE_CLIENTREPLAY); [by right | done |].
    intros s'. rewrite ?Heq. eval_tests. mrun. cbn [trace]. quiet_trace. }
  clear Hrec. cbn [andb]. rewrite bind_when_false.
  repeat match goal with
         | |- context [?a =? ?b] =>
             let H := fresh in
             destruct (Z.eqb_spec a b) as [H|H];
             [try rewrite H; eval_tests|]; cbn [negb andb orb]
         end; mrun; cbn [trace]; try quiet_trace.
  apply Forall_cons. split; [|constructor]. split; [done|]. intros; done.
Qed.

Lemma process_rank_guard oldmap oldwhoami oldstate s :
  whoami s <> MDS_RANK_NONE ->
  state_valid (whoami s) oldstate (state s) = true ->
  Forall (fan_out_guard oldstate)
    (trace (process_rank oldmap oldwhoami oldstate s)).
Proof.
  intros Hw Hvalid. unfold process_rank. rewrite bind_get.
  do 3 take_step same_identity no_fan_out
         ltac:(try solve [ exact I | intros; exact I
                         | intros; split; [done | intros; done]
                         | intros; unfold same_identity in *; simpl in *;
                           first [ done | intuition congruence ] ]).
  rewrite !trace_after.
  repeat match goal with H : same_identity _ _ |- _ =>
    destruct H as (? & ? & ? & ? & ?) end.
  repeat (apply Forall_app; split; [by apply no_fan_out_guard|]).
  lazymatch goal with
  | |- context [(when _ _ ≫= _) ?s3] => rename s3 into s3'
  end.
  assert (Hs3 : state s3' = state s) by congruence.
  apply Forall_trace_bind.
  - destruct (Z.eqb_spec oldstate (state s)); cbn [negb when]; [constructor|].
    apply (state_change_guard oldstate s3' (whoami s)); [done| |];
      rewrite Hs3; [done | congruence].
  - intros _ s'. apply no_fan_out_guard.
    apply (always_trace (fun _ _ => True)), no_fan_out_peer_events.
Qed.

Lemma process_map_guard oldmap oldwhoami oldstate s :
  state_valid (whoami s) oldstate (state s) = true ->
  Forall (fan_out_guard oldstate)
    (trace (process_map oldmap oldwhoami oldstate s)).
Proof.
  intros Hvalid. rewrite process_map_marks, trace_after.
  apply Forall_app.
  split; [apply no_fan_out_guard, no_fan_out_removed_peers|].
  set (s1 := if negb (state s =? oldstate)
             then with_last_state oldstate s else s).
  assert (H1 : state s1 = state s /\ whoami s1 = whoami s)
    by (subst s1; by destruct (negb _)).
  destruct H1 as [H1s H1w].
  assert (Hstep : forall B (k : unit -> M B),
    (when (negb (state s =? oldstate)) (modify (with_last_state oldstate))
     ≫= k) s = k tt s1).
  { intros. subst s1. destruct (negb _); unfold when.
    - by rewrite bind_modify.
    - by rewrite bind_ret. }
  rewrite Hstep. clear Hstep.
  destruct (state s =? STATE_STANDBY);
    [|destruct ((state s =? STATE_STANDBY_REPLAY) && _ && _);
      [|destruct (Z.eqb_spec (whoami s) MDS_RANK_NONE)]].
  - apply no_fan_out_guard, (always_trace (fun _ _ => True)).
    always_walk fail quiet_side.
  - apply no_fan_out_guard, (always_trace (fun _ _ => True)).
    always_walk fail quiet_side.
  - apply no_fan_out_guard, (always_trace (fun _ _ => True)).
    apply no_fan_out_rank_none_case.
  - apply process_rank_guard; rewrite ?H1s, ?H1w; done.
Qed.

(** Property X15.  Whatever the map, [handle_mds_map] starts the stopping
    sequence only from the state active, and reports a finished recovery
    only with the state it comes from, which is creating or rejoin. *)
Theorem fan_out_guards (m : MMDSMap) (st : MDS) :
  Forall (fan_out_guard (state st)) (trace (handle_mds_map m st)).
Proof.
  destruct (Z.le_gt_cases (m_epoch m) (epoch (mdsmap st))) as [Hle|Hlt].
  { rewrite handle_mds_map_discard by done. cbn [trace]. quiet_trace. }
  rewrite handle_mds_map_install by lia. rewrite trace_after.
  apply Forall_app. split; [quiet_trace|].
  apply Forall_trace_bind; [|intros; cbn; quiet_trace].
  destruct (compat_writeable (m_encoded m)); cbn [negb].
  - rewrite identify_and_process_eq.
    destruct (negb _ && negb _); [cbn [trace]; quiet_trace|].
    destruct (state_valid _ _ _) eqn:Hvalid; cbn [negb];
      [|cbn [trace]; quiet_trace].
    by apply process_map_guard.
  - apply no_fan_out_guard, (always_trace (fun _ _ => True)).
    apply no_fan_out_suicide.
Qed.

(** ** The waiters for a map epoch *)

Lemma finished_app t1 t2 : finished (t1 ++ t2) = finished t1 ++ finished t2.
Proof.
  induction t1 as [|e t1 IH]; [done|]. destruct e; simpl; by rewrite ?IH.
Qed.

Lemma finished_calm t : Forall calm t -> finished t = [].
Proof.
  induction 1 as [|e t [_ He] _ IH]; [done|].
  destruct e; simpl; try done. by destruct (He ls).
Qed.

Lemma calm_not_notified t : Forall calm t -> NotifyMdsmapChanged ∉ t.
Proof.
  intros H Hin. rewrite Forall_forall in H. by destruct (H _ Hin).
Qed.

Lemma finished_contexts (l : list (list Z)) :
  finished (FinishContexts <$> l) = l.
Proof. induction l as [|x l IH]; [done|]. cbn. by f_equal. Qed.

Lemma not_due_sorted e w :
  StronglySorted Z.lt (fst <$> w) ->
  Forall (fun p => e < fst p) (not_due e w).
Proof.
  induction w as [|[k ls] w IH]; [constructor|]. simpl.
  intros Hs. apply StronglySorted_inv in Hs as [Hs Hk].
  destruct (Z.leb_spec k e); [by apply IH|].
  constructor; [done|]. rewrite Forall_fmap in Hk.
  eapply Forall_impl; [exact Hk|]. intros [k' ls']. simpl. lia.
Qed.

Lemma drain_waiters_eq e w s :
  waiting_for_mdsmap s = w ->
  drain_waiters e w s
  = Ret tt (with_waiting_for_mdsmap (not_due e w) s)
      (FinishContexts <$> (snd <$> due e w)).
Proof.
  revert s. induction w as [|[k ls] w IH]; intros s Hw.
  - simpl. rewrite <- Hw. by destruct s.
  - simpl. destruct (k <=? e).
    + rewrite bind_modify, bind_emit, IH by done. reflexivity.
    + rewrite <- Hw. by destruct s.
Qed.

Ltac calm_side :=
  try solve [ exact I | intros; exact I
            | intros; unfold calm; split; [done | intros; done]
            | intros; unfold waiters_kept in *; simpl in *;
              first [ done | intuition congruence ] ].

Lemma calm_suicide fast : always waiters_kept calm (suicide fast).
Proof. always_walk fail calm_side. Qed.

Lemma calm_rank_none_case : always waiters_kept calm rank_none_case.
Proof. always_walk fail calm_side. Qed.

Lemma calm_state_change oldstate :
  always waiters_kept calm (state_change oldstate).
Proof. always_walk fail calm_side. Qed.

Lemma calm_removed_peers oldinfo newinfo :
  Forall calm (removed_peers oldinfo newinfo).
Proof.
  unfold removed_peers. apply Forall_fmap, Forall_forall. intros p _.
  split; [done | intros; done].
Qed.

(** The end of the handler drains the waiters. *)
Lemma peer_events_drains oldmap oldstate s :
  drained_or_kept (epoch (mdsmap s)) s (peer_events oldmap oldstate s)
  /\ NotifyMdsmapChanged ∈ trace (peer_events oldmap oldstate s).
Proof.
  unfold peer_events. rewrite bind_get. cbv zeta.
  do 7 take_step waiters_kept calm calm_side.
  repeat match goal with H : waiters_kept _ _ |- _ => destruct H as [? ?] end.
  lazymatch goal with
  | |- context [(drain_waiters _ _ ≫= _) ?s7] => rename s7 into s7'
  end.
  assert (Hw : waiting_for_mdsmap s7' = waiting_for_mdsmap s) by congruence.
  rewrite (bind_eq _ _ _ _ _ _ (drain_waiters_eq _ _ s7' Hw)).
  unfold set_osd_epoch_barrier.
  assert (Hin : forall t1 t2 t3 t4 t5 t6 t7 t8 : list event,
            NotifyMdsmapChanged
            ∈ t1 ++ t2 ++ t3 ++ t4 ++ t5 ++ t6 ++ t7 ++ t8
              ++ [NotifyMdsmapChanged]).
  { intros. rewrite !elem_of_app, list_elem_of_singleton. tauto. }
  destruct (is_active s); mrun; cbn [trace final_state];
    (split; [left; split; [|split]|]); try apply Hin; try reflexivity;
    cbn [trace]; rewrite !finished_app, finished_contexts;
    rewrite !finished_calm by done; cbn; by rewrite app_nil_r.
Qed.

Lemma kept_calm e s (r : result unit) :
  Forall calm (trace r) ->
  waiting_for_mdsmap (final_state r) = waiting_for_mdsmap s ->
  drained_or_kept e s r.
Proof. intros. by right. Qed.

Lemma always_kept_calm e (m : M unit) s s0 :
  always waiters_kept calm m ->
  waiting_for_mdsmap s = waiting_for_mdsmap s0 ->
  drained_or_kept e s0 (m s).
Proof.
  intros Hm Hs. destruct (Hm s) as [[Hw _] Ht].
  apply kept_calm; [done | congruence].
Qed.

Lemma drained_or_kept_after e s s1 t r :
  waiting_for_mdsmap s1 = waiting_for_mdsmap s -> Forall calm t ->
  drained_or_kept e s1 r -> drained_or_kept e s (after t r).
Proof.
  intros Hw Ht [(Hin & Hf & Hfin)|[Hc Hf]]; [left | right];
    rewrite trace_after, final_state_after, <- ?Hw.
  - split; [apply elem_of_app; by right|]. split; [done|].
    by rewrite finished_app, finished_calm.
  - split; [by apply Forall_app | done].
Qed.

Lemma drained_or_kept_from e s s1 r :
  waiting_for_mdsmap s1 = waiting_for_mdsmap s ->
  drained_or_kept e s1 r -> drained_or_kept e s r.
Proof. intros Hw. unfold drained_or_kept. by rewrite Hw. Qed.

Lemma drained_or_kept_bind e s (m : M unit) (k : unit -> M unit) s1 :
  drained_or_kept e s (m s1) ->
  (forall s', exists t, k tt s' = Ret tt s' t /\ Forall calm t) ->
  drained_or_kept e s ((m ≫= k) s1).
Proof.
  intros Hm Hk. rewrite bind_unfold.
  destruct (m s1) as [[] s2 t2| |]; [|done|done].
  destruct (Hk s2) as (t & -> & Ht). cbn [after].
  destruct Hm as [(Hin & Hf & Hfin)|[Hc Hf]]; [left | right];
    cbn [trace final_state] in *.
  - split; [apply elem_of_app; by left|]. split; [done|].
    by rewrite finished_app, (finished_calm t), app_nil_r.
  - split; [by apply Forall_app | done].
Qed.

Lemma process_rank_drains oldmap oldwhoami oldstate s :
  drained_or_kept (epoch (mdsmap s)) s
    (process_rank oldmap oldwhoami oldstate s).
Proof.
  unfold process_rank. rewrite bind_get.
  do 3 take_step waiters_kept calm calm_side.
  repeat match goal with H : waiters_kept _ _ |- _ => destruct H as [? ?] end.
  rewrite !after_after.
  lazymatch goal with
  | |- context [(when _ _ ≫= _) ?s3] => rename s3 into s3'
  end.
  assert (Hw3 : waiting_for_mdsmap s3' = waiting_for_mdsmap s) by congruence.
  assert (Hm3 : mdsmap s3' = mdsmap s) by congruence.
  apply (drained_or_kept_after _ _ s3'); [done|
    by repeat (apply Forall_app; split)|].
  rewrite <- Hm3. rewrite bind_unfold.
  assert (Hsc : always waiters_kept calm
                  (when (negb (oldstate =? state s)) (state_change oldstate))).
  { apply always_when; [by intros|]. apply calm_state_change. }
  destruct (Hsc s3') as [[Hw Hm] Ht].
  destruct (when _ _ s3') as [[] s4 t4| |]; cbn [final_state trace] in *.
  - apply (drained_or_kept_after _ _ s4); [done | done|].
    rewrite <- Hm. apply peer_events_drains.
  - by apply kept_calm.
  - by apply kept_calm.
Qed.

Lemma process_map_drains oldmap oldwhoami oldstate s :
  drained_or_kept (epoch (mdsmap s)) s
    (process_map oldmap oldwhoami oldstate s).
Proof.
  rewrite process_map_marks.
  apply (drained_or_kept_after _ _ s); [done | apply calm_removed_peers|].
  set (s1 := if negb (state s =? oldstate)
             then with_last_state oldstate s else s).
  assert (H1 : waiting_for_mdsmap s1 = waiting_for_mdsmap s
               /\ mdsmap s1 = mdsmap s)
    by (subst s1; by destruct (negb _)).
  destruct H1 as [H1w H1m].
  assert (Hstep : forall B (k : unit -> M B),
    (when (negb (state s =? oldstate)) (modify (with_last_state oldstate))
     ≫= k) s = k tt s1).
  { intros. subst s1. destruct (negb _); unfold when.
    - by rewrite bind_modify.
    - by rewrite bind_ret. }
  rewrite Hstep. clear Hstep.
  destruct (state s =? STATE_STANDBY);
    [|destruct ((state s =? STATE_STANDBY_REPLAY) && _ && _);
      [|destruct (whoami s =? MDS_RANK_NONE)]].
  - apply always_kept_calm; [|done]. always_walk fail calm_side.
  - apply always_kept_calm; [|done]. always_walk fail calm_side.
  - apply always_kept_calm; [|done]. apply calm_rank_none_case.
  - rewrite <- H1m.
    apply (drained_or_kept_from _ _ s1); [done|].
    apply process_rank_drains.
Qed.

Lemma handle_mds_map_drains m st :
  drained_or_kept (epoch (m_encoded m)) st (handle_mds_map m st).
Proof.
  destruct (Z.le_gt_cases (m_epoch m) (epoch (mdsmap st))) as [Hle|Hlt].
  { rewrite handle_mds_map_discard by done. apply kept_calm; [|done].
    repeat constructor; intros; done. }
  rewrite handle_mds_map_install by lia.
  apply (drained_or_kept_after _ _ (swapped_in m st)); [done| |].
  { repeat constructor; intros; done. }
  apply drained_or_kept_bind.
  2:{ intros s'. eexists. split; [reflexivity|].
      repeat constructor; intros; done. }
  destruct (compat_writeable (m_encoded m)); cbn [negb].
  - rewrite identify_and_process_eq.
    destruct (negb _ && negb _);
      [apply kept_calm; [repeat constructor; intros; done | done]|].
    destruct (negb (state_valid _ _ _));
      [apply kept_calm; [repeat constructor; intros; done | done]|].
    apply (drained_or_kept_from _ _ (identified (swapped_in m st))); [done|].
    apply process_map_drains.
  - apply always_kept_calm; [apply calm_suicide | done].
Qed.

(** Property X16.  When [handle_mds_map] notifies the cache of the map
    change, it has taken the front of the waiters whose epoch is at most
    the map's off the list and finished exactly those, in order; on a
    sorted list no waiter that is due stays behind.  When it does not
    notify, the waiters are as they were and nothing is finished. *)
Theorem waiters_drained (m : MMDSMap) (st : MDS) :
  (NotifyMdsmapChanged ∈ trace (handle_mds_map m st) ->
   waiting_for_mdsmap (final_state (handle_mds_map m st))
   = not_due (epoch (m_encoded m)) (waiting_for_mdsmap st)
   /\ finished (trace (handle_mds_map m st))
      = snd <$> due (epoch (m_encoded m)) (waiting_for_mdsmap st)
   /\ (StronglySorted Z.lt (fst <$> waiting_for_mdsmap st) ->
       Forall (fun p => epoch (m_encoded m) < fst p)
         (waiting_for_mdsmap (final_state (handle_mds_map m st)))))
  /\ (NotifyMdsmapChanged ∉ trace (handle_mds_map m st) ->
      waiting_for_mdsmap (final_state (handle_mds_map m st))
      = waiting_for_mdsmap st
      /\ finished (trace (handle_mds_map m st)) = []).
Proof.
  destruct (handle_mds_map_drains m st) as [(Hin & Hf & Hfin)|[Hc Hf]].
  - split; [|done]. intros _. split; [done|]. split; [done|].
    rewrite Hf. apply not_due_sorted.
  - split; [by intros ?%calm_not_notified|].
    intros _. split; [done | by apply finished_calm].
Qed.

Lemma waiters_drained_witness :
  waiting_for_mdsmap
    (final_state (handle_mds_map msg_rank0_stopping with_waiters))
  = [(15, [3])]
  /\ finished (trace (handle_mds_map msg_rank0_stopping with_waiters))
     = [[1; 2]].
Proof.
  assert (Hn : NotifyMdsmapChanged
               ∈ trace (handle_mds_map msg_rank0_stopping with_waiters)).
  { apply list_elem_of_In. vm_compute.
    repeat (first [left; reflexivity | right]). }
  destruct (proj1 (waiters_drained msg_rank0_stopping with_waiters) Hn)
    as (Hw & Hf & _).
  split; [exact Hw | exact Hf].
Defined.

Lemma send_preopen_out_queue_eq con q :
  send_preopen_out_queue con q = ([], ConSendMessage con <$> q).
Proof. induction q as [|m q IH]; [done|]. simpl. by rewrite IH. Qed.

(** Property X17.  On a live daemon [ms_handle_accept] points the attached
    session at the accepted connection, sends the queued messages on it in
    queue order, empties the queue and drops one reference; no other
    session and no connection changes.  Accepting the same connection
    again only drops a reference. *)
Theorem accept_delivers_preopen_queue (d : MDS) (con : nat) (net : Net)
    (c : Con) (sid : nat) (s : Session) :
  stopping d = false ->
  attached net con c sid s ->
  (session_connection s <> Some con ->
   exists net',
     ms_handle_accept d con net
     = Some (tt, net',
             (ConSendMessage con <$> preopen_out_queue s) ++ [SessionPut sid])
     /\ sessions net' !! sid
        = Some (with_preopen_out_queue []
                  (with_session_connection (Some con) s))
     /\ (forall sid', sid' <> sid ->
           sessions net' !! sid' = sessions net !! sid')
     /\ connections net' = connections net
     /\ ms_handle_accept d con net' = Some (tt, net', [SessionPut sid]))
  /\ (session_connection s = Some con ->
      ms_handle_accept d con net = Some (tt, net, [SessionPut sid])).
Proof.
  intros Hs (Hc & Hp & Hsid). unfold ms_handle_accept. rewrite Hs, Hc.
  cbn [mbind option_bind]. rewrite Hp, Hsid. cbn [mbind option_bind].
  split; intros Hcon.
  - rewrite bool_decide_eq_true_2 by done.
    rewrite send_preopen_out_queue_eq. eexists. split; [reflexivity|].
    unfold update_session. cbn [sessions connections].
    split; [by rewrite lookup_alter_eq, Hsid|].
    split; [intros sid' Hne; by rewrite lookup_alter_ne|].
    split; [done|].
    rewrite Hc. cbn [mbind option_bind]. rewrite Hp, lookup_alter_eq, Hsid.
    cbn [mbind option_bind fmap option_fmap option_map session_connection
         with_preopen_out_queue with_session_connection].
    by rewrite bool_decide_eq_false_2 by (intros H; by apply H).
  - by rewrite bool_decide_eq_false_2 by (intros H; by apply H).
Qed.

Lemma serving_rank0_active : serving rank0_active.
Proof. split; [reflexivity | vm_compute; congruence]. Qed.

Lemma accept_delivers_preopen_queue_witness :
  exists net',
    ms_handle_accept rank0_active 7 sample_net
    = Some (tt, net',
            [ConSendMessage 7 31; ConSendMessage 7 32; SessionPut 1])
    /\ ms_handle_accept rank0_active 7 net' = Some (tt, net', [SessionPut 1]).
Proof.
  assert (Ha : attached sample_net 7 (client_con (Some 1%nat)) 1
                 (client_session false))
    by (repeat split; reflexivity).
  assert (Hc : session_connection (client_session false) <> Some 7%nat)
    by discriminate.
  destruct (proj1 (accept_delivers_preopen_queue rank0_active 7 sample_net
                     (client_con (Some 1%nat)) 1 (client_session false)
                     eq_refl Ha) Hc)
    as (net' & Hrun & _ & _ & _ & Hagain).
  exists net'. split; [exact Hrun | exact Hagain].
Defined.

(** Property X18.  A reset is ignored for a peer that is not a client and on
    a daemon that is stopping or gone.  Otherwise the connection is marked
    down and detached exactly when its session is closed, and the
    reference is dropped; without a session [ms_handle_reset] marks the
    connection down and [ms_handle_remote_reset] does nothing. *)
Theorem reset_tears_down_closed_sessions (d : MDS) (con : nat) (net : Net)
    (c : Con) :
  connections net !! con = Some c ->
  (con_peer_type c <> CEPH_ENTITY_TYPE_CLIENT \/ ~ serving d ->
   ms_handle_reset d con net = Some (false, net, [])
   /\ ms_handle_remote_reset d con net = Some (tt, net, []))
  /\ (con_peer_type c = CEPH_ENTITY_TYPE_CLIENT -> serving d ->
      (con_get_priv c = None ->
       ms_handle_reset d con net = Some (false, net, [ConMarkDown con])
       /\ ms_handle_remote_reset d con net = Some (tt, net, []))
      /\ (forall sid s,
            con_get_priv c = Some sid -> sessions net !! sid = Some s ->
            ms_handle_reset d con net
            = Some (false,
                    (if session_is_closed s then set_priv con None net
                     else net),
                    (if session_is_closed s then [ConMarkDown con] else [])
                    ++ [SessionPut sid])
            /\ ms_handle_remote_reset d con net
               = Some (tt,
                       (if session_is_closed s then set_priv con None net
                        else net),
                       (if session_is_closed s then [ConMarkDown con] else [])
                       ++ [SessionPut sid]))).
Proof.
  intros Hc. unfold ms_handle_reset, ms_handle_remote_reset, serving.
  rewrite Hc. cbn [mbind option_bind]. split.
  - intros [Ht|Hs].
    + by destruct (Z.eqb_spec (con_peer_type c) CEPH_ENTITY_TYPE_CLIENT).
    + destruct (negb _); [done|]. destruct (stopping d); [done|].
      destruct (Z.eqb_spec (want_state d) STATE_DNE); [done|].
      by destruct Hs.
  - intros -> [-> Hw]. cbn [negb Z.eqb]. rewrite Z.eqb_refl. cbn [negb].
    destruct (Z.eqb_spec (want_state d) STATE_DNE); [done|].
    split.
    + by intros ->.
    + intros sid s -> ->. cbn [mbind option_bind].
      by destruct (session_is_closed s).
Qed.

Lemma reset_tears_down_closed_sessions_witness :
  ms_handle_reset rank0_active 7 closed_net
  = Some (false, set_priv 7 None closed_net, [ConMarkDown 7; SessionPut 1])
  /\ ms_handle_reset rank0_active 7 sample_net
     = Some (false, sample_net, [SessionPut 1]).
Proof.
  split.
  - exact (proj1 (proj2 (proj2 (reset_tears_down_closed_sessions
                                  rank0_active 7 closed_net
                                  (client_con (Some 1%nat)) eq_refl)
                           eq_refl serving_rank0_active)
                    1%nat (client_session true) eq_refl eq_refl)).
  - exact (proj1 (proj2 (proj2 (reset_tears_down_closed_sessions
                                  rank0_active 7 sample_net
                                  (client_con (Some 1%nat)) eq_refl)
                           eq_refl serving_rank0_active)
                    1%nat (client_session false) eq_refl eq_refl)).
Defined.

(** The store after the calls on the session's [auth_caps]. *)
Lemma caps_applied sid v net s :
  sessions net !! sid = Some s ->
  let net' :=
    match v_auth_cap_str v with
    | Some str =>
        update_session sid (with_auth_caps_call (ParseCaps str))
          (if v_allow_all v
           then update_session sid (with_auth_caps_call SetAllowAll) net
           else net)
    | None =>
        if v_allow_all v
        then update_session sid (with_auth_caps_call SetAllowAll) net
        else net
    end in
  sessions net' !! sid
  = Some (with_auth_caps (session_auth_caps s ++ caps_calls v) s)
  /\ connections net' = connections net
  /\ sessionmap net' = sessionmap net.
Proof.
  intros Hsid. unfold caps_calls, update_session.
  destruct (v_auth_cap_str v), (v_allow_all v);
    cbn [sessions connections sessionmap];
    rewrite ?lookup_alter_eq, ?Hsid; cbn;
    unfold with_auth_caps, with_auth_caps_call; cbn;
    rewrite <- ?app_assoc, ?app_nil_r; try done.
  by destruct s.
Qed.

(** Property X19.  A valid authorizer attaches the peer's session to the
    connection and records the capabilities on it.  For a known session
    the session's connection is left for [ms_handle_accept], which then
    delivers the queued messages; a new session points at the connection at
    once and is not entered into the session map. *)
Theorem verify_then_accept (d : MDS) (reg : AuthRegistries)
    (new_session : Session) (con : nat) (peer_type protocol : Z)
    (authorizer_data : string) (net : Net) (c : Con)
    (handler : string -> verdict) :
  serving d ->
  connections net !! con = Some c ->
  registry_for reg peer_type protocol = Some handler ->
  v_is_valid (handler authorizer_data) = true ->
  (forall sid s,
     sessionmap net !! (con_peer_type c, v_global_id (handler authorizer_data))
     = Some sid ->
     sessions net !! sid = Some s ->
     session_connection s <> Some con ->
     exists net1 net2,
       ms_verify_authorizer d reg new_session con peer_type protocol
         authorizer_data net
       = Some ((true, Some true), net1, [SessionGet sid])
       /\ sessions net1 !! sid
          = Some (with_auth_caps
                    (session_auth_caps s
                     ++ caps_calls (handler authorizer_data)) s)
       /\ ms_handle_accept d con net1
          = Some (tt, net2,
                  (ConSendMessage con <$> preopen_out_queue s)
                  ++ [SessionPut sid])
       /\ sessions net2 !! sid
          = Some (with_preopen_out_queue []
                    (with_session_connection (Some con)
                       (with_auth_caps
                          (session_auth_caps s
                           ++ caps_calls (handler authorizer_data)) s))))
  /\ (sessionmap net !! (con_peer_type c, v_global_id (handler authorizer_data))
      = None ->
      exists net1,
        let sid := fresh (dom (sessions net)) in
        ms_verify_authorizer d reg new_session con peer_type protocol
          authorizer_data net
        = Some ((true, Some true), net1, [])
        /\ sessions net !! sid = None
        /\ sessions net1 !! sid
           = Some (with_auth_caps
                     (session_auth_caps new_session
                      ++ caps_calls (handler authorizer_data))
                     (with_session_connection (Some con)
                        (with_session_inst (con_peer_addr c)
                           (con_peer_type c,
                            v_global_id (handler authorizer_data))
                           new_session)))
        /\ sessionmap net1 = sessionmap net
        /\ ms_handle_accept d con net1 = Some (tt, net1, [SessionPut sid])).
Proof.
  intros [Hs Hw] Hc Hreg Hvalid. unfold ms_verify_authorizer.
  rewrite Hs. destruct (Z.eqb_spec (want_state d) STATE_DNE); [done|].
  cbv zeta.
  assert ((if peer_type =? CEPH_ENTITY_TYPE_MDS
           then authorize_handler_cluster_registry reg protocol
           else authorize_handler_service_registry reg protocol)
          = Some handler) as ->.
  { unfold registry_for in Hreg. by destruct (peer_type =? _). }
  rewrite Hvalid, Hc. cbn [mbind option_bind].
  set (v := handler authorizer_data). split.
  - intros sid s Hmap Hsid Hcon. rewrite Hmap, Hsid. cbn [mbind option_bind].
    destruct (caps_applied sid v (set_priv con (Some sid) net) s Hsid)
      as (Hs1 & Hc1 & _).
    eexists _, _. split; [reflexivity|]. split; [exact Hs1|].
    unfold ms_handle_accept. rewrite Hs, Hc1.
    cbn [set_priv connections]. rewrite lookup_alter_eq, Hc.
    cbn [mbind option_bind fmap option_fmap option_map con_get_priv].
    rewrite Hs1. cbn [mbind option_bind].
    rewrite bool_decide_eq_true_2 by done.
    rewrite send_preopen_out_queue_eq. split; [reflexivity|].
    unfold update_session at 1. cbn [sessions].
    by rewrite lookup_alter_eq, Hs1.
  - intros Hmap. rewrite Hmap. cbn [mbind option_bind].
    set (sid := fresh (dom (sessions net))).
    set (s0 := with_session_connection (Some con) _).
    assert (Hfresh : sessions net !! sid = None).
    { apply not_elem_of_dom. apply is_fresh. }
    set (net0 := set_priv con (Some sid) _).
    assert (Hsid : sessions net0 !! sid = Some s0).
    { subst net0. cbn [set_priv sessions]. apply lookup_insert_eq. }
    destruct (caps_applied sid v net0 s0 Hsid) as (Hs1 & Hc1 & Hm1).
    eexists. split; [reflexivity|]. split; [done|]. split; [exact Hs1|].
    split; [by rewrite Hm1|].
    unfold ms_handle_accept. rewrite Hs, Hc1. subst net0.
    cbn [set_priv connections]. rewrite lookup_alter_eq, Hc.
    cbn [mbind option_bind fmap option_fmap option_map con_get_priv].
    rewrite Hs1. cbn [mbind option_bind].
    by rewrite bool_decide_eq_false_2 by (intros H; by apply H).
Qed.

Lemma verify_then_accept_witness :
  exists net1 net2,
    ms_verify_authorizer rank0_active sample_registries
      (client_session false) 8 CEPH_ENTITY_TYPE_CLIENT 2 "ticket" sample_net
    = Some ((true, Some true), net1, [SessionGet 1])
    /\ ms_handle_accept rank0_active 8 net1
       = Some (tt, net2,
               [ConSendMessage 8 31; ConSendMessage 8 32; SessionPut 1]).
Proof.
  destruct (proj1 (verify_then_accept rank0_active sample_registries
                     (client_session false) 8 CEPH_ENTITY_TYPE_CLIENT 2
                     "ticket" sample_net (client_con None) accepting_handler
                     serving_rank0_active eq_refl eq_refl eq_refl)
              1%nat (client_session false) eq_refl eq_refl)
    as (net1 & net2 & Hverify & _ & Haccept & _); [discriminate|].
  exists net1, net2. split; [exact Hverify | exact Haccept].
Defined.

(** Property X20.  "dirfrag split" calls [split_dir] exactly when the bits
    are positive and the named fragment is in the cache with this daemon
    as its authority, and otherwise fails with a text and no call; "dirfrag
    merge" calls [merge_dir] as soon as the inode is in the cache and the
    fragment parses, without looking at the fragment. *)
Theorem dirfrag_split_and_merge (v : cache_view)
    (cmdmap : gmap string cmd_val) :
  match splittable v cmdmap with
  | Some (dir, bits) =>
      command_dirfrag_split v cmdmap = (true, "", [SplitDir dir bits])
  | None =>
      exists text, command_dirfrag_split v cmdmap = (false, text, [])
                   /\ text <> ""
  end
  /\ (cmd_getval_int cmdmap "bits" = None ->
      command_dirfrag_split v cmdmap = (false, "missing bits argument", []))
  /\ (forall bits, cmd_getval_int cmdmap "bits" = Some bits -> bits <= 0 ->
      command_dirfrag_split v cmdmap = (false, "must split by >0 bits", []))
  /\ match named_frag v cmdmap with
     | Some (inode, fg) =>
         command_dirfrag_merge v cmdmap = (true, "", [MergeDir inode fg])
     | None =>
         exists text, command_dirfrag_merge v cmdmap = (false, text, [])
                      /\ text <> ""
     end.
Proof.
  unfold splittable, command_dirfrag_split, command_dirfrag_merge,
    _command_dirfrag_get, named_frag.
  destruct (cmd_getval_int cmdmap "bits") as [bits|];
    cbn [mbind option_bind];
    [destruct (Z.leb_spec bits 0)|];
    destruct (cmd_getval_str cmdmap "path") as [path|];
    cbn [mbind option_bind];
    try destruct (cmd_getval_str cmdmap "frag") as [frag_str|];
    cbn [mbind option_bind];
    try destruct (cache_traverse v path) as [inode|];
    cbn [mbind option_bind];
    try destruct (frag_parse v frag_str) as [fg|];
    cbn [mbind option_bind];
    try destruct (get_dirfrag inode fg) as [dir|];
    cbn [mbind option_bind];
    try destruct (is_auth dir) eqn:Hauth; cbn [negb].
  all: repeat split; try done; try (intros; lia);
    try (intros ? [= <-]; lia); try (eexists; split; [reflexivity|done]).
Qed.

Lemma dirfrag_split_and_merge_witness :
  command_dirfrag_split sample_cache (split_cmdmap 1)
  = (true, "", [SplitDir sample_dir 1])
  /\ command_dirfrag_split sample_cache (split_cmdmap 0)
     = (false, "must split by >0 bits", [])
  /\ command_dirfrag_merge sample_cache (split_cmdmap 1)
     = (true, "", [MergeDir sample_inode root_frag]).
Proof.
  split; [|split].
  - exact (proj1 (dirfrag_split_and_merge sample_cache (split_cmdmap 1))).
  - apply (proj1 (proj2 (proj2 (dirfrag_split_and_merge sample_cache
                                  (split_cmdmap 0)))) 0);
      [reflexivity | lia].
  - exact (proj2 (proj2 (proj2 (dirfrag_split_and_merge sample_cache
                                  (split_cmdmap 1))))).
Defined.

(** Property X21.  [_command_export_dir] never exports to the daemon itself;
    an export is made only to a rank that is up and in, of the root
    fragment of the inode at the path, for which the daemon is the
    authority.  It returns 0 exactly when it made the export, and -ENOENT
    or -EINVAL without any call otherwise. *)
Theorem export_dir_validation (d : MDS) (rv : rank_view) (v : cache_view)
    (path : string) (target : Z) :
  (target = whoami d ->
   _command_export_dir d rv v path target = (- ENOENT, []))
  /\ (forall dir t,
        MigratorExportDir dir t ∈ snd (_command_export_dir d rv v path target)
        -> t = target /\ target <> whoami d
           /\ is_up rv target = true /\ is_in rv target = true
           /\ is_auth dir = true
           /\ exists inode, cache_traverse v path = Some inode
                            /\ get_dirfrag inode root_frag = Some dir)
  /\ (fst (_command_export_dir d rv v path target) = 0
      <-> exists dir,
            snd (_command_export_dir d rv v path target)
            = [MigratorExportDir dir target])
  /\ (fst (_command_export_dir d rv v path target) <> 0 ->
      snd (_command_export_dir d rv v path target) = []
      /\ (fst (_command_export_dir d rv v path target) = - ENOENT
          \/ fst (_command_export_dir d rv v path target) = - EINVAL)).
Proof.
  unfold _command_export_dir.
  split.
  { intros ->. by rewrite Z.eqb_refl. }
  destruct (Z.eqb_spec target (whoami d)) as [Heq|Hne];
    destruct (is_up rv target) eqn:Hup, (is_in rv target) eqn:Hin;
    cbn [negb orb];
    try destruct (cache_traverse v path) as [inode|];
    try destruct (get_dirfrag inode root_frag) as [dir|] eqn:Hdir;
    try destruct (is_auth dir) eqn:Hauth; cbn [negb fst snd];
    unfold ENOENT, EINVAL; cbn [Z.opp].
  all: split; [intros dir0 t Hin0;
               first [ by apply elem_of_nil in Hin0
                     | apply list_elem_of_singleton in Hin0;
                       injection Hin0 as -> ->; repeat split; try done;
                       by eexists ]|].
  all: split; [split; [intros H; first [done | by eexists]
                      | intros [dir0 H]; done]|].
  all: intros H; first [done | split; [done|]; first [by left | by right]].
Qed.

Lemma export_dir_validation_witness :
  _command_export_dir rank0_active sample_ranks sample_cache "/a" 0
  = (- ENOENT, [])
  /\ fst (_command_export_dir rank0_active sample_ranks sample_cache "/a" 1)
     = 0.
Proof.
  split.
  - apply (export_dir_validation rank0_active sample_ranks sample_cache
             "/a" 0).
    reflexivity.
  - apply (export_dir_validation rank0_active sample_ranks sample_cache
             "/a" 1).
    exists sample_dir. reflexivity.
Defined.

Lemma one_or_none {A} (b : bool) (x : A) :
  (if b then [x] else []) = [] <-> b = false.
Proof. by destruct b. Qed.

(** Property X22.  The keys of [get_tracked_conf_keys] are exactly the ones
    [handle_conf_change] reacts to: with log options that parse it does
    nothing if and only if no tracked key has changed; the log client is
    reconfigured exactly when one of the four clog keys changed and the
    options parse. *)
Theorem conf_change_tracked_keys (conf : md_config_t) (changed : gset string)
    (parsed : bool) :
  (handle_conf_change conf changed true = []
   <-> forall k, k ∈ get_tracked_conf_keys -> k ∉ changed)
  /\ (ClogUpdateConfig ∈ handle_conf_change conf changed parsed
      <-> parsed = true
          /\ exists k, k ∈ ["clog_to_monitors"; "clog_to_syslog";
                            "clog_to_syslog_facility"; "clog_to_syslog_level"]
                       /\ k ∈ changed).
Proof.
  unfold handle_conf_change, get_tracked_conf_keys, update_log_config.
  split.
  - split.
    + intros H.
      apply app_eq_nil in H as [Ha H]. apply app_eq_nil in H as [Hb Hc].
      apply one_or_none in Ha, Hb, Hc.
      apply orb_false_iff in Ha as [H1 H2].
      apply orb_false_iff in Hb as [H3 H4].
      apply orb_false_iff in Hc as [Hc H8].
      apply orb_false_iff in Hc as [Hc H7].
      apply orb_false_iff in Hc as [H5 H6].
      apply bool_decide_eq_false in H1, H2, H3, H4, H5, H6, H7, H8.
      intros k Hk.
      repeat (apply elem_of_cons in Hk as [->|Hk]); try done.
      by apply elem_of_nil in Hk.
    + intros H.
      rewrite !bool_decide_eq_false_2; [done|..];
        apply H; by apply (bool_decide_unpack _).
  - rewrite !elem_of_app.
    set (bc := _ || _ || _ || _).
    assert (Hbc : bc = true
                  <-> exists k, k ∈ ["clog_to_monitors"; "clog_to_syslog";
                                     "clog_to_syslog_facility";
                                     "clog_to_syslog_level"]
                                /\ k ∈ changed).
    { subst bc. rewrite !orb_true_iff, !bool_decide_eq_true. split.
      - intros [[[H|H]|H]|H]; eexists; (split; [|exact H]);
          by apply (bool_decide_unpack _).
      - intros (k & Hk & Hin).
        repeat (apply elem_of_cons in Hk as [->|Hk]); auto.
        by apply elem_of_nil in Hk. }
    rewrite <- Hbc. split.
    + intros [H|[H|H]].
      * destruct (_ || _) in H; [|by apply elem_of_nil in H].
        by apply list_elem_of_singleton in H.
      * destruct (_ || _) in H; [|by apply elem_of_nil in H].
        by apply list_elem_of_singleton in H.
      * destruct bc, parsed; try (by apply elem_of_nil in H); done.
    + intros [-> ->]. right. right. by apply list_elem_of_singleton.
Qed.

Lemma conf_change_tracked_keys_witness :
  handle_conf_change sample_conf {[ "mds_cache_size" ]} true = []
  /\ ClogUpdateConfig
     ∈ handle_conf_change sample_conf {[ "clog_to_syslog" ]} true.
Proof.
  split.
  - apply (conf_change_tracked_keys sample_conf {[ "mds_cache_size" ]} true).
    intros k Hk. rewrite elem_of_singleton. intros ->.
    revert Hk. unfold get_tracked_conf_keys.
    rewrite !elem_of_cons, elem_of_nil. intuition discriminate.
  - apply (conf_change_tracked_keys sample_conf {[ "clog_to_syslog" ]} true).
    split; [reflexivity|]. exists "clog_to_syslog".
    split; [|by apply elem_of_singleton].
    rewrite !elem_of_cons. tauto.
Defined.

(** * Start-up *)

Lemma later_nil {A} (r : outcome A) : later [] r = r.
Proof. by destruct r. Qed.

Lemma later_later {A} t1 t2 (r : outcome A) :
  later t1 (later t2 r) = later (t1 ++ t2) r.
Proof. destruct r; simpl; by rewrite app_assoc. Qed.

Lemma calls_later {A} t (r : outcome A) : calls (later t r) = t ++ calls r.
Proof. by destruct r. Qed.

Lemma seqB_unfold {A C} (m : Boot A) (k : A -> Boot C) s :
  (m ≫= k) s
  = match m s with
    | Done a s1 t1 => later t1 (k a s1)
    | Gone s1 t1 => Gone s1 t1
    | Failed s1 t1 => Failed s1 t1
    | Waiting s1 t1 => Waiting s1 t1
    end.
Proof. reflexivity. Qed.

Lemma seqB_assoc {A C D} (m : Boot A) (f : A -> Boot C) (g : C -> Boot D) s :
  ((m ≫= f) ≫= g) s = (m ≫= (fun a => f a ≫= g)) s.
Proof.
  rewrite !seqB_unfold. destruct (m s) as [a s1 t1| | |]; try done.
  rewrite seqB_unfold. destruct (f a s1) as [c s2 t2| | |]; try done.
  simpl. by rewrite later_later.
Qed.

Lemma seqB_out {C} c (k : unit -> Boot C) s :
  (out c ≫= k) s = later [c] (k tt s).
Proof. reflexivity. Qed.

Lemma seqB_outs {C} cs (k : unit -> Boot C) s :
  (outs cs ≫= k) s = later cs (k tt s).
Proof. reflexivity. Qed.

Lemma seqB_get {C} (k : MDS -> Boot C) s : (get_mds ≫= k) s = k s s.
Proof. rewrite seqB_unfold. simpl. apply later_nil. Qed.

Lemma seqB_set {C} f (k : unit -> Boot C) s :
  (set_mds f ≫= k) s = k tt (f s).
Proof. rewrite seqB_unfold. simpl. apply later_nil. Qed.

Lemma seqB_ret {A C} (a : A) (k : A -> Boot C) s : (mret a ≫= k) s = k a s.
Proof. rewrite seqB_unfold. simpl. apply later_nil. Qed.

Lemma seqB_lift_ret {A C} (m : M A) (k : A -> Boot C) s a s1 t1 :
  m s = Ret a s1 t1 -> (lift m ≫= k) s = later (Core <$> t1) (k a s1).
Proof. intros H. rewrite seqB_unfold. unfold lift. by rewrite H. Qed.

Lemma seqB_lift_asserted {A C} (m : M A) (k : A -> Boot C) s s1 t1 :
  m s = Asserted s1 t1 -> (lift m ≫= k) s = Failed s1 (Core <$> t1).
Proof. intros H. rewrite seqB_unfold. unfold lift. by rewrite H. Qed.

Lemma seqB_done {A C} (m : Boot A) (k : A -> Boot C) s a s1 t1 :
  m s = Done a s1 t1 -> (m ≫= k) s = later t1 (k a s1).
Proof. intros H. rewrite seqB_unfold. by rewrite H. Qed.

Lemma seqB_waiting {A C} (m : Boot A) (k : A -> Boot C) s s1 t1 :
  m s = Waiting s1 t1 -> (m ≫= k) s = Waiting s1 t1.
Proof. intros H. rewrite seqB_unfold. by rewrite H. Qed.

Lemma run_out c s : out c s = Done tt s [c].
Proof. reflexivity. Qed.

Lemma run_retB {A} (a : A) s : (mret a : Boot A) s = Done a s [].
Proof. reflexivity. Qed.

Ltac bstep :=
  first [ rewrite seqB_assoc | rewrite seqB_out | rewrite seqB_outs
        | rewrite seqB_get | rewrite seqB_set | rewrite seqB_ret
        | rewrite later_later | rewrite later_nil | rewrite run_out
        | rewrite run_retB ].

Ltac brun := repeat bstep.

Lemma late_core (t : list event) :
  Forall (fun c => late c = false) (Core <$> t).
Proof. induction t; constructor; done. Qed.

Lemma wait_auth_rotating_cases rs s :
  exists t, Forall (fun c => late c = false) t
    /\ (wait_auth_rotating rs s = Waiting s t
        \/ (wait_auth_rotating rs s = Done tt s t
            /\ Exists (fun r => 0 <= r) rs)).
Proof.
  induction rs as [|r rs IH]; simpl.
  - exists []. split; [done|]. by left.
  - rewrite seqB_out. destruct (Z.ltb_spec r 0) as [Hr|Hr].
    + destruct IH as (t & Ht & [IH|[IH Hex]]); rewrite IH; simpl;
        exists (MoncWaitAuthRotating 30 :: t);
        (split; [by constructor|]); [by left|right].
      split; [done|]. by apply Exists_cons_tl.
    + exists [MoncWaitAuthRotating 30]. split; [by repeat constructor|].
      right. split; [done|]. by apply Exists_cons_hd.
Qed.

Lemma wait_for_tmap2omap_cases vs s :
  exists t, Forall (fun c => late c = false) t
    /\ (wait_for_tmap2omap vs s = Waiting s t
        \/ (wait_for_tmap2omap vs s = Done tt s t
            /\ Exists (fun v => has_tmap2omap v = true) vs)).
Proof.
  induction vs as [|v vs IH]; simpl.
  - exists []. split; [done|]. by left.
  - rewrite !seqB_out. destruct (has_tmap2omap v) eqn:Hv.
    + exists [Core ObjecterMaybeRequestMap; ObjecterWaitForOsdMap].
      split; [by repeat constructor|]. right. split; [done|].
      by apply Exists_cons_hd.
    + rewrite seqB_out.
      destruct IH as (t & Ht & [IH|[IH Hex]]); rewrite IH; simpl;
        exists (Core ObjecterMaybeRequestMap :: ObjecterWaitForOsdMap
                :: Core (Sleep 10) :: t);
        (split; [by repeat constructor|]); [by left|right].
      split; [done|]. by apply Exists_cons_tl.
Qed.

Lemma wait_auth_rotating_done rs s :
  Exists (fun r => 0 <= r) rs ->
  exists t, wait_auth_rotating rs s = Done tt s t
            /\ Forall (fun c => late c = false) t.
Proof.
  induction 1 as [r rs Hr|r rs _ IH]; simpl; rewrite seqB_out.
  - destruct (Z.ltb_spec r 0); [lia|]. simpl.
    eexists. split; [done|]. by repeat constructor.
  - destruct IH as (t & IH & Ht).
    destruct (r <? 0); simpl.
    + rewrite IH. simpl. eexists. split; [done|]. by constructor.
    + eexists. split; [done|]. by repeat constructor.
Qed.

Lemma wait_for_tmap2omap_done vs s :
  Exists (fun v => has_tmap2omap v = true) vs ->
  exists t, wait_for_tmap2omap vs s = Done tt s t
            /\ Forall (fun c => late c = false) t.
Proof.
  induction 1 as [v vs Hv|v vs _ IH]; simpl; rewrite !seqB_out.
  - rewrite Hv. simpl. eexists. split; [done|]. by repeat constructor.
  - destruct IH as (t & IH & Ht).
    destruct (has_tmap2omap v); simpl.
    + eexists. split; [done|]. by repeat constructor.
    + rewrite seqB_out, IH. simpl. eexists. split; [done|].
      by repeat constructor.
Qed.

Lemma update_log_config_early p :
  Forall (fun c => late c = false) (Conf <$> update_log_config p).
Proof. destruct p; by repeat constructor. Qed.

Ltac early :=
  repeat first
    [ apply Forall_nil_2
    | apply Forall_app_2
    | apply Forall_cons_2; [reflexivity|]
    | apply late_core
    | apply update_log_config_early
    | assumption ].

Lemma reset_tick_eq s :
  reset_tick s
  = Ret tt (with_tick_event true s)
      ((if tick_event s then [TimerCancelEvent] else [])
       ++ [TimerAddEventAfter]).
Proof.
  unfold reset_tick. destruct (tick_event s) eqn:E; mrun; by rewrite ?E.
Qed.

(** Property X23.  When the monitor does not authenticate the daemon, [init]
    runs [suicide] under the lock and returns the error; it starts neither
    the objecter nor the beacon.  With the latch already set it stops at
    the assertion of [suicide], holding the lock. *)
Theorem init_authentication_failure (w : Z) (b : boot_run) (s : MDS) :
  authenticate b < 0 ->
  (stopping s = false ->
   init w b s
   = Done (authenticate b) (suicided s)
       ([ObjecterInit; AddDispatcherTail "objecter";
         AddDispatcherTail "beacon"; AddDispatcherTail "mds";
         MoncSetMessenger; MoncSetWantKeys 0x07; MoncInit; FinisherStart;
         MoncSetLogClient]
        ++ (Conf <$> update_log_config (log_options_parsed b))
        ++ [MoncAuthenticate; Core LockLock]
        ++ (Core <$> suicide_trace false s) ++ [Core LockUnlock]))
  /\ (stopping s = true ->
      exists t, init w b s = Failed s t /\ Core LockLock ∈ t
                /\ Core LockUnlock ∉ t).
Proof.
  intros Hr. unfold init.
  destruct (Z.ltb_spec (authenticate b) 0) as [_|]; [|lia].
  split; intros Hs; brun.
  - rewrite (seqB_lift_ret _ _ _ _ _ _ (suicide_eq false s Hs)). brun.
    simpl later. rewrite app_nil_r, <- !app_assoc. reflexivity.
  - rewrite (seqB_lift_asserted _ _ _ _ _ (suicide_asserts false s Hs)).
    destruct (log_options_parsed b); simpl; eexists; (split; [done|]);
      (split; [rewrite ?elem_of_cons; tauto|]);
      intros Hin;
      repeat (apply elem_of_cons in Hin as [Hin|Hin]; [discriminate|]);
      by apply elem_of_nil in Hin.
Qed.

Lemma sample_boot_waits r replay others :
  Exists (fun r => 0 <= r) (auth_rotating (sample_boot r replay others))
  /\ Exists (fun v => has_tmap2omap v = true)
       (osd_maps (sample_boot r replay others)).
Proof.
  split.
  - apply Exists_cons_tl, Exists_cons_hd. simpl. lia.
  - apply Exists_cons_tl, Exists_cons_hd. reflexivity.
Qed.

Lemma booting_mds_free c :
  c ∈ registered_commands -> admin_socket booting_mds !! c = None.
Proof. intros _. apply lookup_empty. Qed.

Lemma init_authentication_failure_witness :
  exists t,
    init STATE_BOOT (sample_boot (-13) false (mret tt)) booting_mds
    = Done (-13) (suicided booting_mds) t.
Proof.
  eexists.
  apply (init_authentication_failure STATE_BOOT
           (sample_boot (-13) false (mret tt)) booting_mds);
    [simpl; lia | reflexivity].
Defined.

Lemma quiet_later {A} t (r : outcome A) :
  Forall (fun c => late c = false) t -> quiet r -> quiet (later t r).
Proof. unfold quiet. rewrite calls_later. apply Forall_app_2. Qed.

Lemma quiet_lift_then {A C} (m : M A) (k : A -> Boot C) s :
  (forall a s1, quiet (k a s1)) -> quiet ((lift m ≫= k) s).
Proof.
  intros Hk. rewrite seqB_unfold. unfold lift.
  destruct (m s) as [a s1 t1| |]; try apply late_core.
  apply quiet_later; [apply late_core | apply Hk].
Qed.

Lemma not_quiet {A} (r : outcome A) c :
  c ∈ calls r -> late c = true -> quiet r -> False.
Proof.
  intros Hc Hl Hq. unfold quiet in Hq. rewrite Forall_forall in Hq.
  specialize (Hq c Hc). congruence.
Qed.

Ltac hush :=
  repeat first
    [ progress brun
    | apply quiet_later; [early|]
    | apply quiet_lift_then; intros
    | solve [unfold quiet; simpl; early] ].

(** Property X24.  [init] reaches [timer.init()], the beacon and whatever
    follows only after the monitor has authenticated the daemon, the
    rotating keys have arrived, the daemon did not want to be gone when
    the lock was taken, and an OSD map with the tmap2omap feature has been
    seen. *)
Theorem init_late_calls_need_waits (w : Z) (b : boot_run) (s : MDS)
    (c : call) :
  c ∈ calls (init w b s) -> late c = true ->
  0 <= authenticate b
  /\ Exists (fun r => 0 <= r) (auth_rotating b)
  /\ want_state s <> STATE_DNE
  /\ Exists (fun v => has_tmap2omap v = true) (osd_maps b).
Proof.
  intros Hc Hl.
  assert (Hq : quiet (init w b s) -> False) by exact (not_quiet _ _ Hc Hl).
  clear Hc Hl. unfold init in Hq. revert Hq.
  destruct (Z.ltb_spec (authenticate b) 0) as [Ha|Ha].
  { intros Hq. destruct Hq. hush. }
  brun.
  destruct (wait_auth_rotating_cases (auth_rotating b) s)
    as (t1 & Ht1 & [Hw|[Hw Hex1]]).
  { intros Hq. destruct Hq. rewrite (seqB_waiting _ _ _ _ _ Hw). hush. }
  rewrite (seqB_done _ _ _ _ _ _ Hw). brun.
  destruct (Z.eqb_spec (want_state s) STATE_DNE) as [Hd|Hd].
  { intros Hq. destruct Hq. hush. }
  brun.
  destruct (wait_for_tmap2omap_cases (osd_maps b) s)
    as (t2 & Ht2 & [Hv|[Hv Hex2]]).
  { intros Hq. destruct Hq. rewrite (seqB_waiting _ _ _ _ _ Hv). hush. }
  done.
Qed.

Lemma init_late_calls_need_waits_witness :
  0 <= authenticate (sample_boot 0 false (mret tt))
  /\ Exists (fun r => 0 <= r) (auth_rotating (sample_boot 0 false (mret tt)))
  /\ want_state booting_mds <> STATE_DNE
  /\ Exists (fun v => has_tmap2omap v = true)
       (osd_maps (sample_boot 0 false (mret tt))).
Proof.
  apply (init_late_calls_need_waits STATE_BOOT
           (sample_boot 0 false (mret tt)) booting_mds TimerInit);
    [|reflexivity].
  apply list_elem_of_In. vm_compute.
  repeat (first [left; reflexivity | right]).
Defined.

Lemma registered_is_Some h (a : gmap string asok_entry) c :
  c ∈ registered_commands -> is_Some (registered h a !! c).
Proof.
  revert c. apply elem_of_list_cases. unfold registered.
  repeat constructor;
    by rewrite ?lookup_insert_ne by done; rewrite lookup_insert_eq.
Qed.

(** Property X25.  Once the waits are over, and with nothing else touching
    the controller, [init] returns 0 with the daemon rankless, the tick
    scheduled and the admin commands registered.  A wanted replay state is
    announced to the beacon as boot, and kept as the standby type, and
    [mds_standby_replay] turns a wanted boot into standby-replay. *)
Theorem init_announces_to_beacon (w : Z) (b : boot_run) (s : MDS) :
  0 <= authenticate b ->
  Exists (fun r => 0 <= r) (auth_rotating b) ->
  want_state s <> STATE_DNE ->
  Exists (fun v => has_tmap2omap v = true) (osd_maps b) ->
  meanwhile b = mret tt ->
  (forall c, c ∈ registered_commands -> admin_socket s !! c = None) ->
  ~ (effective_wanted_state w b = STATE_ONESHOT_REPLAY
     /\ mds_standby_for_rank b = -1 /\ mds_standby_for_name b = "") ->
  exists s' t0,
    init w b s
    = Done 0 s'
        (t0 ++ late_calls b (effective_wanted_state w b) (want_state s')
                 (standby_type s') (tick_event s) [])
    /\ Forall (fun c => late c = false) t0
    /\ whoami s' = MDS_RANK_NONE
    /\ want_state s'
       = (if replaying (effective_wanted_state w b) then STATE_BOOT
          else effective_wanted_state w b)
    /\ standby_type s'
       = (if replaying (effective_wanted_state w b)
          then effective_wanted_state w b else standby_type s)
    /\ tick_event s' = true
    /\ stopping s' = stopping s
    /\ (forall c, c ∈ registered_commands ->
        is_Some (admin_socket s' !! c)).
Proof.
  intros Ha Hrot Hd Hosd Hmean Hfree Hone. unfold init.
  destruct (Z.ltb_spec (authenticate b) 0) as [|_]; [lia|].
  destruct (wait_auth_rotating_done _ s Hrot) as (t1 & Hw & Ht1).
  destruct (wait_for_tmap2omap_done _ s Hosd) as (t2 & Hv & Ht2).
  brun. rewrite (seqB_done _ _ _ _ _ _ Hw). brun.
  destruct (Z.eqb_spec (want_state s) STATE_DNE) as [|_]; [done|].
  brun. rewrite (seqB_done _ _ _ _ _ _ Hv). brun.
  rewrite Hmean.
  rewrite (seqB_lift_ret _ _ _ _ _ _ (run_ret tt s)). brun.
  destruct (Z.eqb_spec (want_state s) STATE_DNE) as [|_]; [done|].
  brun. unfold start_beacon.
  fold (effective_wanted_state w b).
  fold (replaying (effective_wanted_state w b)).
  set (wanted := effective_wanted_state w b) in *.
  brun.
  assert (Hgo : (wanted =? STATE_ONESHOT_REPLAY)
                && (mds_standby_for_rank b =? -1)
                && bool_decide (mds_standby_for_name b = "") = false).
  { apply not_true_is_false. intros H.
    apply andb_prop in H as [H H3]. apply andb_prop in H as [H1 H2].
    apply Hone. repeat split; [lia|lia|by apply bool_decide_eq_true in H3]. }
  rewrite Hgo.
  destruct (replaying wanted) eqn:Hrep; brun;
    rewrite (seqB_lift_ret _ _ _ _ _ _ (reset_tick_eq _)); brun;
    (erewrite seqB_lift_ret
       by (apply set_up_admin_socket_eq; exact Hfree));
    brun; unfold later;
    (eexists _,
       ([ObjecterInit; AddDispatcherTail "objecter";
         AddDispatcherTail "beacon"; AddDispatcherTail "mds";
         MoncSetMessenger; MoncSetWantKeys 0x07; MoncInit; FinisherStart;
         MoncSetLogClient]
        ++ (Conf <$> update_log_config (log_options_parsed b))
        ++ [MoncAuthenticate] ++ t1
        ++ [ObjecterStart; Core LockLock; MoncSubWant "mdsmap";
            MoncRenewSubs; Core LockUnlock]
        ++ t2 ++ [Core LockLock]));
    (split; [f_equal; unfold late_calls, set_up, with_standby_type;
             rewrite Hrep; fields; destruct (tick_event s);
             rewrite ?fmap_app, <- ?app_assoc;
             cbn [app fmap list_fmap]; reflexivity|]);
    (split; [early|]); unfold set_up, with_standby_type; fields;
    (repeat split; try reflexivity); intros c Hc;
    by apply registered_is_Some.
Qed.

Lemma init_announces_to_beacon_witness :
  exists s' t,
    init STATE_BOOT (sample_boot 0 true (mret tt)) booting_mds = Done 0 s' t
    /\ BeaconInit STATE_BOOT (-2) "" ∈ t
    /\ want_state s' = STATE_BOOT
    /\ standby_type s' = STATE_STANDBY_REPLAY
    /\ whoami s' = MDS_RANK_NONE.
Proof.
  destruct (sample_boot_waits 0 true (mret tt)) as [Hrot Hosd].
  assert (Hd : want_state booting_mds <> STATE_DNE)
    by (vm_compute; congruence).
  assert (Hone : ~ (effective_wanted_state STATE_BOOT
                      (sample_boot 0 true (mret tt))
                    = STATE_ONESHOT_REPLAY
                    /\ mds_standby_for_rank (sample_boot 0 true (mret tt))
                       = -1
                    /\ mds_standby_for_name (sample_boot 0 true (mret tt))
                       = ""))
    by (vm_compute; intros [? _]; congruence).
  destruct (init_announces_to_beacon STATE_BOOT
              (sample_boot 0 true (mret tt)) booting_mds
              ltac:(simpl; lia) Hrot Hd Hosd eq_refl booting_mds_free Hone)
    as (s' & t0 & Hinit & _ & Hwho & Hwant & Hstandby & _).
  eexists s', _. split; [exact Hinit|].
  split; [|by repeat split].
  apply elem_of_app. right. rewrite Hwant, Hstandby.
  apply list_elem_of_In. vm_compute. do 3 right. left. reflexivity.
Defined.

Lemma suicided_fields s :
  admin_socket (suicided s) = cleaned_socket (admin_socket s)
  /\ tick_event (suicided s) = false
  /\ stopping (suicided s) = true
  /\ standby_type (suicided s) = standby_type s.
Proof.
  unfold suicided, cleaned.
  destruct (hb s), (tick_event s) eqn:Ht; repeat split;
    first [reflexivity | exact Ht].
Qed.

(** Property X26.  Oneshot replay without a rank or a name to follow makes
    [init] run [suicide], and then carry on: it starts the beacon again
    with boot, schedules a tick, registers the admin commands and returns
    0, with the stopping latch set. *)
Theorem init_oneshot_without_target (b : boot_run) (s : MDS) :
  0 <= authenticate b ->
  Exists (fun r => 0 <= r) (auth_rotating b) ->
  want_state s <> STATE_DNE ->
  Exists (fun v => has_tmap2omap v = true) (osd_maps b) ->
  meanwhile b = mret tt ->
  (forall c, c ∈ registered_commands -> admin_socket s !! c = None) ->
  stopping s = false ->
  mds_standby_for_rank b = -1 ->
  mds_standby_for_name b = "" ->
  exists s' t0,
    init STATE_ONESHOT_REPLAY b s
    = Done 0 s'
        (t0 ++ late_calls b STATE_ONESHOT_REPLAY STATE_BOOT
                 STATE_ONESHOT_REPLAY false
                 (Core <$> suicide_trace false s))
    /\ Forall (fun c => late c = false) t0
    /\ stopping s' = true
    /\ want_state s' = STATE_BOOT
    /\ standby_type s' = STATE_ONESHOT_REPLAY
    /\ tick_event s' = true
    /\ (forall c, c ∈ registered_commands ->
        is_Some (admin_socket s' !! c)).
Proof.
  intros Ha Hrot Hd Hosd Hmean Hfree Hstop Hrank Hname. unfold init.
  destruct (Z.ltb_spec (authenticate b) 0) as [|_]; [lia|].
  destruct (wait_auth_rotating_done _ s Hrot) as (t1 & Hw & Ht1).
  destruct (wait_for_tmap2omap_done _ s Hosd) as (t2 & Hv & Ht2).
  brun. rewrite (seqB_done _ _ _ _ _ _ Hw). brun.
  destruct (Z.eqb_spec (want_state s) STATE_DNE) as [|_]; [done|].
  brun. rewrite (seqB_done _ _ _ _ _ _ Hv). brun.
  rewrite Hmean.
  rewrite (seqB_lift_ret _ _ _ _ _ _ (run_ret tt s)). brun.
  destruct (Z.eqb_spec (want_state s) STATE_DNE) as [|_]; [done|].
  brun. unfold start_beacon. rewrite Hrank, Hname.
  rewrite bool_decide_eq_true_2 by done.
  eval_tests. cbn [andb orb]. brun.
  erewrite seqB_lift_ret by (apply suicide_eq; exact Hstop). brun.
  set (s2 := suicided (with_want_state STATE_ONESHOT_REPLAY s)).
  destruct (suicided_fields (with_want_state STATE_ONESHOT_REPLAY s))
    as (Hsock & Htick & Hstopped & Hstandby).
  fold s2 in Hsock, Htick, Hstopped, Hstandby.
  rewrite (seqB_lift_ret _ _ _ _ _ _ (reset_tick_eq _)). brun.
  assert (Hfree' : forall c, c ∈ registered_commands ->
                     admin_socket s2 !! c = None).
  { intros c Hc. rewrite Hsock, cleaned_socket_lookup.
    case_bool_decide; [done | by apply Hfree]. }
  erewrite seqB_lift_ret
    by (apply set_up_admin_socket_eq; exact Hfree').
  brun. unfold later.
  eexists _,
    ([ObjecterInit; AddDispatcherTail "objecter";
      AddDispatcherTail "beacon"; AddDispatcherTail "mds";
      MoncSetMessenger; MoncSetWantKeys 0x07; MoncInit; FinisherStart;
      MoncSetLogClient]
     ++ (Conf <$> update_log_config (log_options_parsed b))
     ++ [MoncAuthenticate] ++ t1
     ++ [ObjecterStart; Core LockLock; MoncSubWant "mdsmap";
         MoncRenewSubs; Core LockUnlock]
     ++ t2 ++ [Core LockLock]).
  split.
  { f_equal. unfold late_calls, with_standby_type.
    change (replaying STATE_ONESHOT_REPLAY) with true.
    fields. rewrite Htick, ?Hname.
    rewrite ?fmap_app, <- ?app_assoc; cbn [app fmap list_fmap].
    reflexivity. }
  split; [early|].
  unfold set_up, with_standby_type. fields.
  repeat split; try done. intros c Hc. by apply registered_is_Some.
Qed.

Lemma init_oneshot_without_target_witness :
  exists s' t,
    init STATE_ONESHOT_REPLAY (sample_boot 0 false (mret tt)) booting_mds
    = Done 0 s' t
    /\ stopping s' = true
    /\ tick_event s' = true
    /\ Core BeaconShutdown ∈ t
    /\ BeaconInit STATE_BOOT (-1) "" ∈ t.
Proof.
  destruct (sample_boot_waits 0 false (mret tt)) as [Hrot Hosd].
  assert (Hd : want_state booting_mds <> STATE_DNE)
    by (vm_compute; congruence).
  destruct (init_oneshot_without_target (sample_boot 0 false (mret tt))
              booting_mds ltac:(simpl; lia) Hrot Hd Hosd eq_refl
              booting_mds_free eq_refl eq_refl eq_refl)
    as (s' & t0 & Hinit & _ & Hstop & _ & _ & Htick & _).
  eexists s', _. split; [exact Hinit|].
  split; [exact Hstop|]. split; [exact Htick|].
  split; apply elem_of_app; right; apply list_elem_of_In; vm_compute;
    repeat (first [left; reflexivity | right]).
Defined.

(** Property X27.  When the daemon is shut down while [init] waits for the
    OSD map without the lock, [init] finds it gone, calls [suicide] a
    second time and stops at its assertion, before the timer is
    initialised. *)
Theorem init_shutdown_while_waiting (w : Z) (b : boot_run) (s s1 : MDS)
    (t1 : list event) :
  0 <= authenticate b ->
  Exists (fun r => 0 <= r) (auth_rotating b) ->
  want_state s <> STATE_DNE ->
  Exists (fun v => has_tmap2omap v = true) (osd_maps b) ->
  meanwhile b s = Ret tt s1 t1 ->
  want_state s1 = STATE_DNE ->
  stopping s1 = true ->
  exists t, init w b s = Failed s1 t
            /\ Forall (fun c => late c = false) t.
Proof.
  intros Ha Hrot Hd Hosd Hmean Hdne Hstop. unfold init.
  destruct (Z.ltb_spec (authenticate b) 0) as [|_]; [lia|].
  destruct (wait_auth_rotating_done _ s Hrot) as (t2 & Hw & Ht2).
  destruct (wait_for_tmap2omap_done _ s Hosd) as (t3 & Hv & Ht3).
  brun. rewrite (seqB_done _ _ _ _ _ _ Hw). brun.
  destruct (Z.eqb_spec (want_state s) STATE_DNE) as [|_]; [done|].
  brun. rewrite (seqB_done _ _ _ _ _ _ Hv). brun.
  rewrite (seqB_lift_ret _ _ _ _ _ _ Hmean). brun.
  rewrite Hdne. eval_tests.
  rewrite (seqB_lift_asserted _ _ _ _ _ (suicide_asserts false s1 Hstop)).
  unfold later. eexists. split; [reflexivity|]. early.
Qed.

Lemma init_shutdown_while_waiting_witness :
  exists t,
    init STATE_BOOT (sample_boot 0 false handle_signal) booting_mds
    = Failed (suicided booting_mds) t.
Proof.
  destruct (sample_boot_waits 0 false handle_signal) as [Hrot Hosd].
  assert (Hd : want_state booting_mds <> STATE_DNE)
    by (vm_compute; congruence).
  destruct (init_shutdown_while_waiting STATE_BOOT
              (sample_boot 0 false handle_signal) booting_mds
              (suicided booting_mds) (suicide_trace false booting_mds)
              ltac:(simpl; lia) Hrot Hd Hosd eq_refl eq_refl eq_refl)
    as (t & Hinit & _).
  exists t. exact Hinit.
Defined.

(** ** What start-up does to the identity *)

Lemma last_state_of_later {A} t (r : outcome A) :
  last_state_of (later t r) = last_state_of r.
Proof. by destruct r. Qed.

Section Keeps.
Variable R : MDS -> MDS -> Prop.
Hypothesis R_refl : forall s, R s s.
Hypothesis R_trans : forall a b c, R a b -> R b c -> R a c.

Lemma keeps_ret {A} (a : A) : keeps R (mret a).
Proof using R_refl. intros s. apply R_refl. Qed.

Lemma keeps_out c : keeps R (out c).
Proof using R_refl. intros s. apply R_refl. Qed.

Lemma keeps_outs cs : keeps R (outs cs).
Proof using R_refl. intros s. apply R_refl. Qed.

Lemma keeps_get : keeps R get_mds.
Proof using R_refl. intros s. apply R_refl. Qed.

Lemma keeps_waiting {A} : keeps R (@waiting A).
Proof using R_refl. intros s. apply R_refl. Qed.

Lemma keeps_set f : (forall s, R s (f s)) -> keeps R (set_mds f).
Proof. intros Hf s. apply Hf. Qed.

Lemma keeps_lift {A} (m : M A) :
  (forall s, R s (final_state (m s))) -> keeps R (lift m).
Proof. intros Hm s. specialize (Hm s). unfold lift. by destruct (m s). Qed.

Lemma keeps_bind {A C} (m : Boot A) (k : A -> Boot C) :
  keeps R m -> (forall a, keeps R (k a)) -> keeps R (m ≫= k).
Proof using R_trans.
  intros Hm Hk s. specialize (Hm s). rewrite seqB_unfold.
  destruct (m s) as [a s1 t1| | |]; try done.
  rewrite last_state_of_later. eapply R_trans; [exact Hm | apply Hk].
Qed.

Lemma keeps_wait_auth_rotating rs : keeps R (wait_auth_rotating rs).
Proof using R_refl R_trans.
  induction rs as [|r rs IH]; simpl; [apply keeps_waiting|].
  apply keeps_bind; [apply keeps_out|]. intros _.
  destruct (r <? 0); [apply IH | apply keeps_ret].
Qed.

Lemma keeps_wait_for_tmap2omap vs : keeps R (wait_for_tmap2omap vs).
Proof using R_refl R_trans.
  induction vs as [|v vs IH]; simpl; [apply keeps_waiting|].
  apply keeps_bind; [apply keeps_out|]. intros _.
  apply keeps_bind; [apply keeps_out|]. intros _.
  destruct (has_tmap2omap v); [apply keeps_ret|].
  apply keeps_bind; [apply keeps_out | intros _; apply IH].
Qed.
End Keeps.

Lemma rank_reset_refl s : rank_reset s s.
Proof. repeat split; by left. Qed.

Lemma rank_reset_trans a b c :
  rank_reset a b -> rank_reset b c -> rank_reset a c.
Proof.
  intros (H1 & H2 & H3 & H4 & H5) (G1 & G2 & G3 & G4 & G5).
  repeat split; try congruence.
  destruct G5 as [G5|G5]; [|by right]. rewrite G5. exact H5.
Qed.

Lemma identity_kept_rank_reset s s' : identity_kept s s' -> rank_reset s s'.
Proof. intros (H1 & H2 & H3 & H4 & H5). repeat split; try done. by left. Qed.

Lemma identity_kept_pieces :
  always identity_kept (fun _ => True) (suicide false)
  /\ always identity_kept (fun _ => True) reset_tick
  /\ always identity_kept (fun _ => True) set_up_admin_socket.
Proof. split; [|split]; always_walk fail identity_side. Qed.

Ltac keeps_step :=
  lazymatch goal with
  | |- keeps _ (mret _) => apply keeps_ret; exact rank_reset_refl
  | |- keeps _ (out _) => apply keeps_out; exact rank_reset_refl
  | |- keeps _ (outs _) => apply keeps_outs; exact rank_reset_refl
  | |- keeps _ get_mds => apply keeps_get; exact rank_reset_refl
  | |- keeps _ (set_mds _) =>
      apply keeps_set; intros; repeat split; first [by left | by right]
  | |- keeps _ (wait_auth_rotating _) =>
      apply keeps_wait_auth_rotating;
      [exact rank_reset_refl | exact rank_reset_trans]
  | |- keeps _ (wait_for_tmap2omap _) =>
      apply keeps_wait_for_tmap2omap;
      [exact rank_reset_refl | exact rank_reset_trans]
  | |- keeps _ (_ ≫= _) =>
      apply keeps_bind; [exact rank_reset_trans | | intros]
  | |- keeps _ (if ?c then _ else _) => destruct c
  | |- keeps _ (start_beacon _ _) => unfold start_beacon
  end.

Lemma init_rank_reset w b :
  (forall s0, identity_kept s0 (final_state (meanwhile b s0))) ->
  keeps rank_reset (init w b).
Proof.
  intros Hmean.
  destruct identity_kept_pieces as (Hsui & Htick & Hsock).
  assert (Hl : forall (m : M unit),
            (forall s, identity_kept s (final_state (m s))) ->
            keeps rank_reset (lift m)).
  { intros m Hm. apply keeps_lift. intros s.
    apply identity_kept_rank_reset, Hm. }
  unfold init.
  repeat first
    [ keeps_step
    | apply Hl; first [ exact Hmean
                      | intros s0; apply (always_final _ _ _ s0 Hsui)
                      | intros s0; apply (always_final _ _ _ s0 Htick)
                      | intros s0; apply (always_final _ _ _ s0 Hsock) ] ].
Qed.

(** Property X11.  Only a cluster map and start-up write the identity of
    the daemon.  Every operation that does not hand a map to
    [handle_mds_map] leaves the installed map, the rank, the state, the
    incarnation and the last state as they were; and [init], as long as
    what the other threads do during its wait leaves the five alone,
    leaves them as they were but for the rank, which it may reset to
    none. *)
Theorem identity_written_by_maps_only (o : operation) (w : Z)
    (b : boot_run) (s : MDS) :
  (delivers_map o = false -> identity_kept s (final_state (run_op o s)))
  /\ ((forall s0, identity_kept s0 (final_state (meanwhile b s0))) ->
      rank_reset s (last_state_of (init w b s))).
Proof.
  split.
  - intros Ho.
    assert (H : always identity_kept (fun _ => True) (run_op o)).
    { destruct o as [m|m| | | | | | | | |]; try done; cbn [run_op].
      - unfold ms_dispatch, handle_core_message. cbn [delivers_map] in Ho.
        destruct (body m); try done; always_walk fail identity_side.
      - unfold handle_core_message. cbn [delivers_map] in Ho.
        destruct (body m); try done; always_walk fail identity_side.
      - always_walk fail identity_side.
      - always_walk fail identity_side.
      - always_walk fail identity_side.
      - always_walk fail identity_side.
      - always_walk fail identity_side.
      - always_walk fail identity_side.
      - always_walk fail identity_side.
      - always_walk fail identity_side. }
    apply H.
  - intros Hmean. by apply init_rank_reset.
Qed.

Lemma identity_written_by_maps_only_witness :
  identity_kept rank0_active
    (final_state (run_op (OpDispatch command_from_osd) rank0_active))
  /\ identity_kept rank0_active
       (final_state (run_op OpTick rank0_active))
  /\ rank_reset rank0_active
       (last_state_of
          (init STATE_BOOT (sample_boot 0 false handle_signal)
             rank0_active)).
Proof.
  split; [|split].
  - by apply (identity_written_by_maps_only (OpDispatch command_from_osd)
                STATE_BOOT (sample_boot 0 false handle_signal)
                rank0_active).
  - by apply (identity_written_by_maps_only OpTick STATE_BOOT
                (sample_boot 0 false handle_signal) rank0_active).
  - apply (identity_written_by_maps_only OpTick STATE_BOOT
             (sample_boot 0 false handle_signal) rank0_active).
    intros s0.
    by apply (identity_written_by_maps_only OpSignal STATE_BOOT
                (sample_boot 0 false handle_signal) s0).
Defined.
